(** * system-check-cli: the maintenance tool's task runner, logger and orchestrator

    A shallow embedding of the interactive variant of the tool (the script with
    the task catalog, [runTask], [writeLog], [runCommand], [checkAdmin], the
    eight maintenance operations and [main]).

    Asynchronous functions are computations in a state-and-outcome monad over a
    [World] (file system, terminal and the history of observable actions).
    An [await]ed promise that rejects is the outcome [Throw]; [process.exit] is
    the outcome [Exit], which no [catch] intercepts.  Everything the tool does
    not own (spawned executables, the clock, file permissions, the user at the
    checkbox prompt, the JSON parser) is read from an environment [Env]. *)

From Stdlib Require Import Ascii String ZArith Lia.
From stdpp Require Import base strings list gmap pretty.

Local Open Scope string_scope.
Set Warnings "-register-all".

(** ** Text helpers: the [String.prototype] methods the tool calls *)

Definition LF : ascii := "010"%char.
Definition CR : ascii := "013"%char.
Definition nl : string := String LF "".

(** [s.replace(/c/g, r)] for a one-character pattern [c]. *)
Fixpoint replaceAll (c : ascii) (r : string) (s : string) : string :=
  match s with
  | "" => ""
  | String a s' =>
      if Ascii.eqb a c then r +:+ replaceAll c r s'
      else String a (replaceAll c r s')
  end.

(** [s.includes(pat)] *)
Fixpoint includes (s pat : string) : bool :=
  String.prefix pat s ||
  match s with
  | "" => false
  | String _ s' => includes s' pat
  end.

(** White space of [String.prototype.trim] within ASCII. *)
Definition is_white (a : ascii) : bool :=
  bool_decide (a ∈ [" "%char; "009"%char; LF; "011"%char; "012"%char; CR]).

Fixpoint trimStart (s : string) : string :=
  match s with
  | "" => ""
  | String a s' => if is_white a then trimStart s' else s
  end.

Definition trim (s : string) : string :=
  String.rev (trimStart (String.rev (trimStart s))).

(** Membership of a character in a string. *)
Fixpoint has_char (c : ascii) (s : string) : bool :=
  match s with
  | "" => false
  | String a s' => Ascii.eqb a c || has_char c s'
  end.

(** ** Dates *)

(** A [Date] value: its time value ([Date.now()], milliseconds since the
    epoch) and its UTC fields as the runtime reports them. *)
Record Date := {
  time_ms : nat;
  year : nat; month : nat; day : nat;
  hours : nat; minutes : nat; seconds : nat; millis : nat
}.

Definition digit (n : nat) : ascii := ascii_of_nat (48 + n mod 10).

Fixpoint digits (width : nat) (n : nat) (acc : string) : string :=
  match width with
  | O => acc
  | S k => digits k (n / 10) (String (digit n) acc)
  end.

(** Decimal rendering padded with zeros to [width] characters. *)
Definition pad (width n : nat) : string := digits width n "".

(** A character that is no decimal digit. *)
Definition no_digit (c : ascii) : Prop := ∀ n, Ascii.eqb (digit n) c = false.

(** [Date.prototype.toISOString]: [YYYY-MM-DDTHH:mm:ss.sssZ], and the
    expanded six-digit year with a sign beyond year 9999 (the test
    [year / 100 < 100] says that the year is at most 9999). *)
Definition toISOString (d : Date) : string :=
  (if (year d / 100 <? 100)%nat then pad 4 (year d) else "+" +:+ pad 6 (year d))
  +:+ "-" +:+ pad 2 (month d) +:+ "-" +:+ pad 2 (day d)
  +:+ "T" +:+ pad 2 (hours d) +:+ ":" +:+ pad 2 (minutes d)
  +:+ ":" +:+ pad 2 (seconds d) +:+ "." +:+ pad 3 (millis d) +:+ "Z".

(** ** Errors, outcomes and the monad of asynchronous computations *)

(** A JavaScript [Error]; the tool only ever reads its [message]. *)
Record Error := { message : string }.

Inductive Res (A : Type) : Type :=
| Ok (a : A)            (* the promise resolved / the function returned *)
| Throw (e : Error)     (* the promise rejected / an exception was thrown *)
| Exit (code : Z).      (* [process.exit(code)] was called *)
Arguments Ok {A} a.
Arguments Throw {A} e.
Arguments Exit {A} code.

(** Paths built by [path.join(dir, name)]: the entry [name] of directory [dir]. *)
Abbreviation Path := (string * string)%type.

Inductive Style := Red | Green | Yellow | Gray | Bold | BoldCyan | BoldGreen.

(** Terminal text: plain strings, [chalk]-styled strings, concatenation. *)
Inductive Text :=
| Plain (s : string)
| Chalk (st : Style) (s : string)
| Cat (a b : Text).

(** The log levels the tool writes. *)
Inductive Level := INFO | WARN | ERROR.

#[global] Instance Level_eq_dec : EqDecision Level.
Proof. solve_decision. Defined.

Definition level_text (level : Level) : string :=
  match level with INFO => "INFO" | WARN => "WARN" | ERROR => "ERROR" end.

Inductive FsOp := OpAppend | OpWrite | OpUnlink | OpRm | OpReaddir.

(** Observable actions, in the order the process performs them. *)
Inductive Event :=
| SpinnerStart (text : string)
| SpinnerSucceed (text : Text)
| SpinnerFail (text : Text)
| ConsoleLog (text : Text)
| ConsoleError (text : Text)
| Spawn (command : string) (args : list string)
| Prompt (choices : list (string * string * bool))
| FsCall (op : FsOp) (p : Path) (data : string) (ok : bool).

Record World := {
  listing : gmap string (list string);   (* directory ↦ its entries, in [readdir] order *)
  content : gmap Path string;            (* regular files ↦ their text *)
  trace : list Event
}.

(** What a spawned child process does: the chunks it writes to its two
    pipes, and how it ends. *)
Inductive Pipe := Stdout | Stderr.

(** [SpawnFailed err] is a spawn that fails on a child that still has its
    pipes: Node creates the streams and then emits ['error'] (ENOENT, EACCES,
    EAGAIN).  A spawn that fails for want of file descriptors (EMFILE,
    ENFILE) returns a child without [stdout] and [stderr]; what [runCommand]
    does with such a child is in [Executor] below, and the machines of [Env]
    are those on which every child has its pipes. *)
Inductive Ending :=
| Closed (code : option Z)    (* ['close'] with the exit code; [null] when killed by a signal *)
| SpawnFailed (err : Error).  (* ['error']: the process could not be spawned *)

#[global] Instance Error_eq_dec : EqDecision Error.
Proof. solve_decision. Defined.

#[global] Instance Ending_eq_dec : EqDecision Ending.
Proof. solve_decision. Defined.

Record Child := { chunks : list (Pipe * string); ending : Ending }.

(** JSON values as far as the inventory report reads them. *)
Inductive Json :=
| JNull
| JBool (b : bool)
| JNum (shown : string) (nonzero : bool)   (* a number with its [String(n)] rendering *)
| JStr (s : string)
| JArr (items : list Json)
| JObj (fields : list (string * Json)).

Record Env := {
  tmpdir : string;                               (* [os.tmpdir()] *)
  sep : string;                                  (* [path.sep] *)
  EOL : string;                                  (* [os.EOL] *)
  silent : bool;                                 (* [argv.silent] *)
  started : Date;                                (* [new Date()] when the module is loaded *)
  date_at : nat → Date;                          (* the clock, after so many observable actions *)
  child : nat → string → list string → Child;    (* behaviour of a process spawned then *)
  readonly : gset Path;                          (* files that cannot be opened for writing *)
  locked : gset Path;                            (* entries that cannot be removed *)
  noread : gset string;                          (* directories that cannot be enumerated *)
  user_checks : string → bool → bool;            (* the user's final tick for a choice (key, default) *)
  JSON_parse : string → Error + Json             (* [JSON.parse] *)
}.

Definition M (A : Type) : Type := World → Res A * World.

Definition ret {A} (a : A) : M A := λ w, (Ok a, w).

Definition bind {A B} (m : M A) (k : A → M B) : M B := λ w,
  match m w with
  | (Ok a, w') => k a w'
  | (Throw e, w') => (Throw e, w')
  | (Exit c, w') => (Exit c, w')
  end.

Definition throw {A} (e : Error) : M A := λ w, (Throw e, w).

(** [process.exit(code)] *)
Definition process_exit {A} (code : Z) : M A := λ w, (Exit code, w).

(** [try { m } catch (error) { h error }] *)
Definition try_catch {A} (m : M A) (h : Error → M A) : M A := λ w,
  match m w with
  | (Throw e, w') => h e w'
  | r => r
  end.

(** [try { m } finally { f }]: [f] runs after [m] unless the process has
    exited; an abrupt completion of [f] replaces the outcome of [m]. *)
Definition try_finally {A} (m : M A) (f : M unit) : M A := λ w,
  match m w with
  | (Exit c, w') => (Exit c, w')
  | (r, w') =>
      match f w' with
      | (Ok _, w'') => (r, w'')
      | (Throw e, w'') => (Throw e, w'')
      | (Exit c, w'') => (Exit c, w'')
      end
  end.

(** A promise that is started and never awaited (modelled as settled on the
    spot): its effects happen; its rejection has no handler, and the runtime
    ends the process with status 1 on an unhandled rejection. *)
Definition detached (m : M unit) : M unit := λ w,
  match m w with
  | (Throw _, w') => (Exit 1, w')
  | r => r
  end.

Notation "'let*' x ':=' m 'in' k" := (bind m (λ x, k))
  (at level 10, x name, m at level 100, k at level 200).
Notation "m '>>' k" := (bind m (λ _, k))
  (at level 100, k at level 200, right associativity).

Definition emit (e : Event) : M unit := λ w,
  (Ok tt, {| listing := listing w; content := content w; trace := trace w ++ [e] |}).

(** [for (const x of xs) { body x }] *)
Fixpoint for_of {A} (xs : list A) (body : A → M unit) : M unit :=
  match xs with
  | [] => ret tt
  | x :: xs' => body x >> for_of xs' body
  end.

(** ** JavaScript values read by the inventory report *)

Definition dq : string := String "034"%char "".

(** The lines of a template literal, joined by line feeds. *)
Fixpoint unlines (ls : list string) : string :=
  match ls with
  | [] => ""
  | [l] => l
  | l :: ls' => l +:+ nl +:+ unlines ls'
  end.

Fixpoint assoc {A} (k : string) (kvs : list (string * A)) : option A :=
  match kvs with
  | [] => None
  | (k', v) :: kvs' => if decide (k' = k) then Some v else assoc k kvs'
  end.

Definition type_error (what k : string) : Error :=
  {| message := "Cannot read properties of " +:+ what +:+ " (reading '" +:+ k +:+ "')" |}.

(** [v.k], where [None] stands for [undefined]: reading a property of
    [undefined] or [null] throws; an object yields the field or [undefined];
    every other value has none of the properties the report reads. *)
Definition js_get (v : option Json) (k : string) : Error + option Json :=
  match v with
  | None => inl (type_error "undefined" k)
  | Some JNull => inl (type_error "null" k)
  | Some (JObj fields) => inr (assoc k fields)
  | Some _ => inr None
  end.

(** [String(v)], as a template literal renders a value. *)
Fixpoint js_string (v : Json) : string :=
  match v with
  | JNull => "null"
  | JBool b => if b then "true" else "false"
  | JNum shown _ => shown
  | JStr s => s
  | JArr items =>
      (fix join (l : list Json) : string :=
         match l with
         | [] => ""
         | x :: l' =>
             (match x with JNull => "" | _ => js_string x end)
             +:+ (match l' with [] => "" | _ => "," +:+ join l' end)
         end) items
  | JObj _ => "[object Object]"
  end.

Definition js_template (v : option Json) : string :=
  match v with None => "undefined" | Some j => js_string j end.

(** Truthiness, for [if (systemInfo.GPU)]. *)
Definition js_truthy (v : option Json) : bool :=
  match v with
  | None | Some JNull => false
  | Some (JBool b) => b
  | Some (JNum _ nonzero) => nonzero
  | Some (JStr s) => match s with "" => false | _ => true end
  | Some (JArr _) | Some (JObj _) => true
  end.

(** [`${root.a.b}`] *)
Definition js_field (root : option Json) (a b : string) : Error + string :=
  match js_get root a with
  | inl e => inl e
  | inr o =>
      match js_get o b with
      | inl e => inl e
      | inr v => inr (js_template v)
      end
  end.

Definition cat (ts : list Text) : Text :=
  match ts with
  | [] => Plain ""
  | t :: ts' => foldl Cat t ts'
  end.

(** The summary built from [systemInfo] (the [output] string of
    [runHardwareCheck]); the first failing property read decides the error. *)
Definition inventory_output (systemInfo : Json) : Error + Text :=
  let root := Some systemInfo in
  let bind {A B} (x : Error + A) (k : A → Error + B) : Error + B :=
    match x with inl e => inl e | inr a => k a end in
  bind (js_field root "OS" "Caption") (λ caption,
  bind (js_field root "OS" "Version") (λ version,
  bind (js_field root "OS" "BuildNumber") (λ build,
  bind (js_field root "CPU" "Name") (λ cpu,
  bind (js_field root "CPU" "NumberOfCores") (λ cores,
  bind (js_field root "CPU" "NumberOfLogicalProcessors") (λ logical,
  bind (js_field root "CPU" "MaxClockSpeed") (λ speed,
  bind (js_get root "GPU") (λ gpu,
  bind (if js_truthy gpu then
          bind (js_field root "GPU" "Name") (λ gname,
          bind (js_field root "GPU" "AdapterRAM") (λ vram,
          inr [Chalk Bold "GPU:";
               Plain (nl +:+ "  - " +:+ gname +:+ nl +:+ "    - VRAM: " +:+ vram +:+ " MB" +:+ nl)]))
        else inr []) (λ gpu_block,
  bind (js_field root "RAM" "TotalPhysicalMemory") (λ ram,
  bind (js_field root "Motherboard" "Manufacturer") (λ maker,
  bind (js_field root "Motherboard" "Product") (λ product,
  inr (cat
    ([Chalk BoldCyan (nl +:+ "--- System Information ---" +:+ nl);
      Chalk Bold "OS:";
      Plain (nl +:+ "  - " +:+ caption +:+ " (Version: " +:+ version +:+ ", Build: "
             +:+ build +:+ ")" +:+ nl);
      Chalk Bold "CPU:";
      Plain (nl +:+ "  - " +:+ cpu +:+ nl +:+ "    - Cores: " +:+ cores
             +:+ ", Logical Processors: " +:+ logical +:+ nl
             +:+ "    - Max Speed: " +:+ speed +:+ " MHz" +:+ nl)]
     ++ gpu_block ++
     [Chalk Bold "RAM:";
      Plain (nl +:+ "  - Total: " +:+ ram +:+ " GB" +:+ nl);
      Chalk Bold "Motherboard:";
      Plain (nl +:+ "  - " +:+ maker +:+ " " +:+ product +:+ nl);
      Chalk BoldCyan "------------------------"])))))))))))))).

(** The PowerShell scripts the tool writes out and runs. *)
Definition updateScript : string :=
  unlines
    ["";
     "            $updateSession = New-Object -ComObject Microsoft.Update.Session";
     "            $updateSearcher = $updateSession.CreateUpdateSearcher()";
     "            $searchResult = $updateSearcher.Search(" +:+ dq +:+ "IsInstalled=0 and Type='Software' and IsHidden=0" +:+ dq +:+ ")";
     "            if ($searchResult.Updates.Count -gt 0) {";
     "                Write-Host " +:+ dq +:+ "Found $($searchResult.Updates.Count) update(s)." +:+ dq +:+ "";
     "            } else {";
     "                Write-Host " +:+ dq +:+ "No updates found." +:+ dq +:+ "";
     "            }";
     "        "].

Definition inventoryScript : string :=
  unlines
    ["";
     "            # Get OS Information";
     "            $os = Get-CimInstance -ClassName Win32_OperatingSystem";
     "            $osInfo = @{";
     "                Caption = $os.Caption";
     "                Version = $os.Version";
     "                BuildNumber = $os.BuildNumber";
     "            }";
     "";
     "            # Get CPU Information";
     "            $cpu = Get-CimInstance -ClassName Win32_Processor";
     "            $cpuInfo = @{";
     "                Name = $cpu.Name";
     "                Manufacturer = $cpu.Manufacturer";
     "                MaxClockSpeed = $cpu.MaxClockSpeed";
     "                NumberOfCores = $cpu.NumberOfCores";
     "                NumberOfLogicalProcessors = $cpu.NumberOfLogicalProcessors";
     "            }";
     "";
     "            # Get GPU Information";
     "            $gpu = Get-CimInstance -ClassName Win32_VideoController | Select-Object -First 1";
     "            $gpuInfo = @{";
     "                Name = $gpu.Name";
     "                AdapterRAM = $gpu.AdapterRAM / 1MB";
     "            }";
     "";
     "            # Get RAM Information";
     "            $ram = Get-CimInstance -ClassName Win32_ComputerSystem";
     "            $ramInfo = @{";
     "                TotalPhysicalMemory = [math]::Round($ram.TotalPhysicalMemory / 1GB)";
     "            }";
     "";
     "            # Get Motherboard Information";
     "            $mb = Get-CimInstance -ClassName Win32_BaseBoard";
     "            $mbInfo = @{";
     "                Manufacturer = $mb.Manufacturer";
     "                Product = $mb.Product";
     "            }";
     "";
     "            # Combine all info into a single object";
     "            $systemInfo = @{";
     "                OS = $osInfo";
     "                CPU = $cpuInfo";
     "                GPU = $gpuInfo";
     "                RAM = $ramInfo";
     "                Motherboard = $mbInfo";
     "            }";
     "";
     "            # Convert to JSON and write to output";
     "            $systemInfo | ConvertTo-Json";
     "        "].

(** ** The tool *)

Section Tool.

Variable E : Env.

(** [path.join(dir, name)] and the text of a path inside a message. *)
Definition path_join (dir name : string) : Path := (dir, name).
Definition path_text (p : Path) : string := p.1 +:+ sep E +:+ p.2.

(** [const logFile = path.join(os.tmpdir(), `SystemMaintenance-${...}.log`)] *)
Definition logFile : Path :=
  path_join (tmpdir E)
    ("SystemMaintenance-" +:+ replaceAll ":" "-" (toISOString (started E)) +:+ ".log").

(** *** The file system ([fs/promises])

    Directories are flat: an entry is removed from, or added to, the listing
    of its own directory only.  Each call is recorded with its outcome. *)

Definition fs_error (what syscall : string) (p : string) : Error :=
  {| message := what +:+ ", " +:+ syscall +:+ " '" +:+ p +:+ "'" |}.

Definition fs_fail {A} (op : FsOp) (p : Path) (data : string) (e : Error) : M A := λ w,
  (Throw e,
   {| listing := listing w; content := content w;
      trace := trace w ++ [FsCall op p data false] |}).

Definition add_entry (name : string) (names : list string) : list string :=
  if decide (name ∈ names) then names else names ++ [name].

Definition remove_entry (name : string) (names : list string) : list string :=
  filter (λ n, n ≠ name) names.

(** Opening a file for writing: the directory must exist and the file must
    be writable. *)
Definition fs_store (op : FsOp) (p : Path) (data : string)
    (new_text : option string → string) : M unit := λ w,
  match listing w !! p.1 with
  | None =>
      fs_fail op p data
        (fs_error "ENOENT: no such file or directory" "open" (path_text p)) w
  | Some names =>
      if decide (p ∈ readonly E) then
        fs_fail op p data (fs_error "EPERM: operation not permitted" "open" (path_text p)) w
      else
        (Ok tt,
         {| listing := <[p.1 := add_entry p.2 names]> (listing w);
            content := <[p := new_text (content w !! p)]> (content w);
            trace := trace w ++ [FsCall op p data true] |})
  end.

(** [fs.appendFile(p, data)]: creates the file when it is absent. *)
Definition fs_appendFile (p : Path) (data : string) : M unit :=
  fs_store OpAppend p data (λ old, default "" old +:+ data).

(** [fs.writeFile(p, data)] *)
Definition fs_writeFile (p : Path) (data : string) : M unit :=
  fs_store OpWrite p data (λ _, data).

Definition fs_remove (op : FsOp) (p : Path) : M unit := λ w,
  (Ok tt,
   {| listing := alter (remove_entry p.2) p.1 (listing w);
      content := delete p (content w);
      trace := trace w ++ [FsCall op p "" true] |}).

(** [fs.rm(p, { recursive: true, force: true })]: an absent entry is no error. *)
Definition fs_rm (p : Path) : M unit := λ w,
  if decide (p ∈ locked E) then
    fs_fail OpRm p "" (fs_error "EPERM: operation not permitted" "rm" (path_text p)) w
  else fs_remove OpRm p w.

(** [fs.unlink(p)] *)
Definition fs_unlink (p : Path) : M unit := λ w,
  if decide (p.2 ∈ default [] (listing w !! p.1)) then
    if decide (p ∈ locked E) then
      fs_fail OpUnlink p "" (fs_error "EPERM: operation not permitted" "unlink" (path_text p)) w
    else fs_remove OpUnlink p w
  else
    fs_fail OpUnlink p ""
      (fs_error "ENOENT: no such file or directory" "unlink" (path_text p)) w.

(** [fs.readdir(d)] *)
Definition fs_readdir (d : string) : M (list string) := λ w,
  match listing w !! d with
  | None =>
      fs_fail OpReaddir (d, "") "" (fs_error "ENOENT: no such file or directory" "scandir" d) w
  | Some names =>
      if decide (d ∈ noread E) then
        fs_fail OpReaddir (d, "") "" (fs_error "EPERM: operation not permitted" "scandir" d) w
      else
        (Ok names,
         {| listing := listing w; content := content w;
            trace := trace w ++ [FsCall OpReaddir (d, "") "" true] |})
  end.

(** [new Date()] *)
Definition new_Date : M Date := λ w, (Ok (date_at E (length (trace w))), w).

(** *** [writeLog] *)

(** [`${timestamp} [${level}] ${message}${os.EOL}`] *)
Definition logEntry (timestamp : string) (level : Level) (msg : string) : string :=
  timestamp +:+ " [" +:+ level_text level +:+ "] " +:+ msg +:+ EOL E.

Definition writeLog (msg : string) (level : Level) : M unit :=
  let* d := new_Date in
  let timestamp := toISOString d in
  fs_appendFile logFile (logEntry timestamp level msg).

(** *** [runCommand]

    The promise of [runCommand] for a child that has its pipes: the four
    listeners are attached, the chunks are accumulated, and the first of
    ['close'] and ['error'] settles the promise.  The executor itself, with
    the order in which it attaches the listeners, is in [Executor]; lemma
    [runCommand_follows_executor] relates the two. *)

(** The two ['data'] listeners: [stdout += data] and [stderr += data]. *)
Definition on_data (acc : string * string) (c : Pipe * string) : string * string :=
  match c.1 with
  | Stdout => (acc.1 +:+ c.2, acc.2)
  | Stderr => (acc.1, acc.2 +:+ c.2)
  end.

(** [`${code}`] for an exit code. *)
Definition code_text (code : option Z) : string :=
  match code with Some c => pretty c | None => "null" end.

Definition runCommand (command : string) (args : list string) : M (string * string) := λ w,
  let c := child E (length (trace w)) command args in
  let w' := {| listing := listing w; content := content w;
               trace := trace w ++ [Spawn command args] |} in
  let out := foldl on_data ("", "") (chunks c) in
  match ending c with
  | Closed code =>
      if decide (code = Some 0%Z) then (Ok out, w')
      else
        (Throw {| message := "Command failed with exit code " +:+ code_text code
                              +:+ nl +:+ out.2 |}, w')
  | SpawnFailed err => (Throw err, w')
  end.

(** *** [runTask]

    A task resolves with [undefined] ([None]) or with an object carrying a
    [message] ([Some m]); [result && result.message] is truthy when the
    message is a non-empty string. *)
Definition truthy (s : string) : bool :=
  match s with "" => false | _ => true end.

Definition runTask (title : string) (task : M (option string)) : M bool :=
  emit (SpinnerStart title) >>
  try_catch
    (let* result := task in
     match result with
     | Some m =>
         if truthy m then emit (SpinnerSucceed (Chalk Green (title +:+ " - " +:+ m)))
         else emit (SpinnerSucceed (Chalk Green title))
     | None => emit (SpinnerSucceed (Chalk Green title))
     end >>
     ret true)
    (λ error,
     emit (SpinnerFail (Chalk Red title)) >>
     emit (ConsoleError (Chalk Red ("  " +:+ replaceAll LF (nl +:+ "  ") (message error)))) >>
     writeLog (title +:+ " failed: " +:+ message error) ERROR >>
     ret false).

(** *** [checkAdmin] *)
Definition checkAdmin : M unit :=
  emit (SpinnerStart "Checking for Administrator privileges") >>
  try_catch
    (runCommand "net" ["session"] >>
     emit (SpinnerSucceed (Chalk Green "Running as Administrator: OK")) >>
     writeLog "Running as Administrator: OK" INFO)
    (λ error,
     emit (SpinnerFail (Chalk Red "Administrator privileges check failed.")) >>
     emit (ConsoleError (Chalk Red "ERROR: This script requires Administrator privileges!")) >>
     emit (ConsoleLog (Chalk Yellow
       "Please re-run your terminal (PowerShell, Command Prompt, etc.) as an Administrator.")) >>
     writeLog "ERROR: Script not running as Administrator." ERROR >>
     process_exit 1).

(** [Date.now()] *)
Definition Date_now : M nat := let* d := new_Date in ret (time_ms d).

(** A synchronous computation that may throw. *)
Definition lift {A} (x : Error + A) : M A :=
  match x with inl e => throw e | inr a => ret a end.

(** *** The maintenance operations *)

Definition runWindowsUpdateCheck : M bool :=
  runTask "Checking for Windows Updates"
    (let psScript := updateScript in
     let* now := Date_now in
     let scriptPath := path_join (tmpdir E) ("ps-script-" +:+ pretty now +:+ ".ps1") in
     fs_writeFile scriptPath psScript >>
     try_finally
       (let* out := runCommand "powershell.exe"
                      ["-ExecutionPolicy"; "Bypass"; "-File"; path_text scriptPath] in
        ret (Some (trim out.1)))
       (try_catch (fs_unlink scriptPath)
          (λ err, writeLog ("Failed to delete temp script: " +:+ message err) WARN))).

Definition runWingetUpdates : M bool :=
  runTask "Updating Winget Software"
    (runCommand "winget" ["source"; "update"] >>
     emit (ConsoleLog (Chalk Yellow
       (nl +:+ "  Use `winget upgrade` to view packages and `winget upgrade --all` to install all updates."))) >>
     ret None).

Definition runChocoUpdates : M bool :=
  runTask "Updating Chocolatey Software"
    (try_catch (runCommand "choco" ["--version"])
       (λ error, throw {| message :=
          "Chocolatey is not installed or not in your PATH. Please install Chocolatey to use this feature." |}) >>
     runCommand "choco" ["outdated"] >>
     emit (ConsoleLog (Chalk Yellow
       (nl +:+ "  Use `choco upgrade all -y` to upgrade all outdated packages."))) >>
     ret None).

Definition runDismCheck : M bool :=
  runTask "Checking DISM Health"
    (runCommand "Dism.exe" ["/Online"; "/Cleanup-Image"; "/CheckHealth"] >>
     ret None).

Definition runSfcScan : M bool :=
  runTask "Running System File Checker (sfc /scannow)"
    (try_catch (runCommand "sfc" ["/scannow"])
       (λ error,
        if includes (message error) "exit code 1" then
          throw {| message :=
            "sfc /scannow failed. This may indicate that Windows Resource Protection found integrity violations."
            +:+ nl +:+ "  Please check the CBS.log for more details: C:\Windows\Logs\CBS\CBS.log" |}
        else throw error) >>
     ret None).

(** The body of [for (const tempPath of tempPaths)] in [runTempFileCleanup].
    The handler of a failed [fs.rm] calls [writeLog] without awaiting it. *)
Definition sweep (tempPath : string) : M unit :=
  try_catch
    (writeLog ("Cleaning folder: " +:+ tempPath) INFO >>
     let* files := fs_readdir tempPath in
     for_of files (λ file,
       let filePath := path_join tempPath file in
       try_catch (fs_rm filePath)
         (λ err,
          detached (writeLog ("Could not delete " +:+ path_text filePath +:+ ": "
                              +:+ message err) WARN))))
    (λ err,
     writeLog ("Could not access temp path " +:+ tempPath +:+ ": " +:+ message err) WARN).

Definition runTempFileCleanup : M bool :=
  runTask "Cleaning Temporary Files"
    (let tempPaths := [tmpdir E; "C:\Windows\Temp"] in
     for_of tempPaths sweep >>
     ret None).

Definition runDiskOptimization : M bool :=
  runTask "Optimizing System Drive (C:)"
    (runCommand "powershell.exe" ["-Command"; "Optimize-Volume -DriveLetter C"] >>
     ret None).

Definition runHardwareCheck : M bool :=
  emit (SpinnerStart "Gathering Hardware & OS Information") >>
  try_catch
    (let psScript := inventoryScript in
     let* now := Date_now in
     let scriptPath := path_join (tmpdir E) ("hw-info-" +:+ pretty now +:+ ".ps1") in
     fs_writeFile scriptPath psScript >>
     let* out := runCommand "powershell.exe"
                   ["-ExecutionPolicy"; "Bypass"; "-File"; path_text scriptPath] in
     let* systemInfo := lift (JSON_parse E out.1) in
     try_catch (fs_unlink scriptPath)
       (λ err, writeLog ("Failed to delete temp script: " +:+ message err) WARN) >>
     let* output := lift (inventory_output systemInfo) in
     emit (SpinnerSucceed (Chalk Green "Gathered Hardware & OS Information")) >>
     emit (ConsoleLog output) >>
     writeLog "Gathered Hardware & OS Information" INFO >>
     ret true)
    (λ error,
     emit (SpinnerFail (Chalk Red "Gathering Hardware & OS Information")) >>
     emit (ConsoleError (Chalk Red ("  " +:+ replaceAll LF (nl +:+ "  ") (message error)))) >>
     writeLog ("Hardware & OS Information failed: " +:+ message error) ERROR >>
     ret false).

(** *** The orchestrator *)

Record Entry := { name : string; task : M bool; checked : bool }.

(** The object literal [tasks] of [main], in insertion order. *)
Definition tasks : list (string * Entry) :=
  [("hwInfo", {| name := "Gather Hardware & OS Information"; task := runHardwareCheck; checked := true |});
   ("winUpdate", {| name := "Check for Windows Updates"; task := runWindowsUpdateCheck; checked := true |});
   ("winget", {| name := "Update Winget Software"; task := runWingetUpdates; checked := true |});
   ("choco", {| name := "Update Chocolatey Software"; task := runChocoUpdates; checked := true |});
   ("dism", {| name := "Check DISM Health"; task := runDismCheck; checked := true |});
   ("sfc", {| name := "Run System File Checker (SFC)"; task := runSfcScan; checked := true |});
   ("cleanup", {| name := "Clean Temporary Files"; task := runTempFileCleanup; checked := true |});
   ("optimize", {| name := "Optimize System Drive"; task := runDiskOptimization; checked := false |})].

(** [Object.keys(tasks)] *)
Definition keys (catalog : list (string * Entry)) : list string := map fst catalog.

(** The choices handed to the prompt: [(name, value, checked)]. *)
Definition choices (catalog : list (string * Entry)) : list (string * string * bool) :=
  map (λ kv, (name kv.2, kv.1, checked kv.2)) catalog.

(** [inquirer.prompt] with one checkbox question: the answer holds the
    values of the choices the user leaves ticked, in the order of the choices. *)
Definition prompt_checkbox (cs : list (string * string * bool)) : M (list string) :=
  emit (Prompt cs) >>
  ret (map (λ c, c.1.2) (filter (λ c, user_checks E c.1.2 c.2 = true) cs)).

(** The properties every object literal inherits from [Object.prototype]:
    [tasks[k]] finds them although they are no keys of the catalog. *)
Definition object_prototype_keys : list string :=
  ["constructor"; "__defineGetter__"; "__defineSetter__"; "hasOwnProperty";
   "__lookupGetter__"; "__lookupSetter__"; "isPrototypeOf"; "propertyIsEnumerable";
   "toString"; "valueOf"; "__proto__"; "toLocaleString"].

(** The loop [for (const taskKey of tasksToRun)] over a catalog.
    [tasks[taskKey]] is the entry of a catalog key, an inherited function or
    object for a key of [Object.prototype], and [undefined] otherwise.  An
    inherited value passes the guard [if (tasks[taskKey])] and has no [task]:
    calling it throws a [TypeError]. *)
Definition run_selected (catalog : list (string * Entry)) (tasksToRun : list string) : M unit :=
  for_of tasksToRun (λ taskKey,
    match assoc taskKey catalog with
    | Some entry => task entry >> ret tt
    | None =>
        if decide (taskKey ∈ object_prototype_keys) then
          throw {| message := "tasks[taskKey].task is not a function" |}
        else ret tt
    end).

Definition main : M unit :=
  emit (ConsoleLog (Chalk BoldCyan ("=== Windows System Maintenance Tool (Node.js) ===" +:+ nl))) >>
  writeLog "Script started." INFO >>
  checkAdmin >>
  let* tasksToRun :=
    (if silent E then ret (keys tasks) else prompt_checkbox (choices tasks)) in
  match tasksToRun with
  | [] => emit (ConsoleLog (Chalk Yellow "No tasks selected. Exiting."))
  | _ =>
      emit (ConsoleLog (Plain "")) >>
      run_selected tasks tasksToRun >>
      emit (ConsoleLog (Chalk BoldGreen (nl +:+ "=== MAINTENANCE COMPLETE ==="))) >>
      emit (ConsoleLog (Chalk Gray ("Log file created at: " +:+ path_text logFile)))
  end.

(** [main().catch(async (err) => { ... process.exit(1) })] *)
Definition program : M unit :=
  try_catch main
    (λ err,
     emit (ConsoleError (Chalk Red (nl +:+ "CRITICAL ERROR: " +:+ message err))) >>
     writeLog ("Critical script error: " +:+ message err) ERROR >>
     process_exit 1).

End Tool.

(** The status the process ends with: 0 when the script runs to its end, the
    argument of [process.exit], and 1 when a rejection is left unhandled
    (the runtime then ends the process itself). *)
Definition exit_status (r : Res unit) : Z :=
  match r with
  | Ok _ => 0
  | Exit code => code
  | Throw _ => 1
  end.

(** ** Observations on a run *)

(** The progress reports among the actions: a spinner starting with a title,
    and a spinner ending in success ([true]) or failure ([false]). *)
Definition phase (ev : Event) : option (string + bool) :=
  match ev with
  | SpinnerStart title => Some (inl title)
  | SpinnerSucceed _ => Some (inr true)
  | SpinnerFail _ => Some (inr false)
  | _ => None
  end.

Definition phases (evs : list Event) : list (string + bool) := omap phase evs.

(** The commands spawned, in order. *)
Definition spawned (evs : list Event) : list (string * list string) :=
  omap (λ ev, match ev with Spawn c args => Some (c, args) | _ => None end) evs.

(** The entries whose removal was attempted with [fs.rm], in order. *)
Definition rm_attempts (evs : list Event) : list Path :=
  omap (λ ev, match ev with FsCall OpRm p _ _ => Some p | _ => None end) evs.

(** The texts appended to file [f], oldest first. *)
Definition appended (f : Path) (evs : list Event) : list string :=
  omap (λ ev,
        match ev with
        | FsCall OpAppend p data true => if decide (p = f) then Some data else None
        | _ => None
        end) evs.

(** The world once the spinner of a task titled [title] has started. *)
Definition after_start (title : string) (w : World) : World :=
  {| listing := listing w; content := content w;
     trace := trace w ++ [SpinnerStart title] |}.

(** What one operation reports: its title, then how it ended. *)
Definition report (tb : string * bool) : list (string + bool) := [inl tb.1; inr tb.2].

Definition crlf : string := String CR (String LF "").

(** ** Reading the log back *)

Fixpoint drop_chars (n : nat) (s : string) : string :=
  match n, s with
  | S k, String _ s' => drop_chars k s'
  | _, _ => s
  end.

(** The text before and after the first occurrence of [sep]. *)
Fixpoint split_first (sep : string) (s : string) : option (string * string) :=
  if String.prefix sep s then Some ("", drop_chars (String.length sep) s)
  else
    match s with
    | "" => None
    | String a s' =>
        match split_first sep s' with
        | Some (l, r) => Some (String a l, r)
        | None => None
        end
    end.

(** The lines of a text: a line ends at a line feed. *)
Fixpoint lines (s : string) : list string :=
  match s with
  | "" => [""]
  | String a s' =>
      if Ascii.eqb a LF then "" :: lines s'
      else
        match lines s' with
        | l :: ls => String a l :: ls
        | [] => [String a ""]
        end
  end.

Section Reading.

Variable E : Env.

Definition level_of_text (s : string) : option Level :=
  if decide (s = "INFO") then Some INFO
  else if decide (s = "WARN") then Some WARN
  else if decide (s = "ERROR") then Some ERROR
  else None.

(** The reader of one log line, written after the spec's words for the
    format (the tool only ever writes the log): a line
    [<timestamp> [<LEVEL>] <message>] is read as the text up to the first
    space, the bracketed level, a space, and the rest. *)
Definition parseLogLine (line : string) : option (Level * string) :=
  match split_first " " line with
  | Some (_, String "[" rest) =>
      match split_first "] " rest with
      | Some (lvl, msg) =>
          match level_of_text lvl with
          | Some level => Some (level, msg)
          | None => None
          end
      | None => None
      end
  | _ => None
  end.

(** Reading the first entry of a log text back, after the spec's words: the
    first line is what stands before the first platform line terminator. *)
Definition readLogLine (text : string) : option ((Level * string) * string) :=
  match split_first (EOL E) text with
  | Some (line, rest) =>
      match parseLogLine line with
      | Some entry => Some (entry, rest)
      | None => None
      end
  | None => None
  end.

(** The level of an appended entry. *)
Definition entry_level (data : string) : option Level :=
  match parseLogLine data with
  | Some (level, _) => Some level
  | None => None
  end.

(** The entries of a given level appended to the log file. *)
Definition logged (level : Level) (evs : list Event) : list string :=
  filter (λ data, entry_level data = Some level) (appended (logFile E) evs).

(** The log file can be appended to: its directory exists and the file is
    not write-protected. *)
Definition log_writable (w : World) : Prop :=
  is_Some (listing w !! tmpdir E) ∧ logFile E ∉ readonly E.

(** *** Specifications of computations, while the log is writable *)

(** A computation that reports no progress: it returns or throws, never
    ends the process, and keeps the log writable. *)
Definition quiet {A} (m : M A) : Prop :=
  ∀ w, log_writable w →
    ∃ r w' evs, m w = (r, w') ∧ (∀ c, r ≠ Exit c) ∧ log_writable w' ∧
                trace w' = (trace w ++ evs)%list ∧ phases evs = [].

(** The body of a [try] whose last steps report success and return [true]:
    it either throws before reporting anything, or reports success once and
    returns [true]. *)
Definition guarded (m : M bool) : Prop :=
  ∀ w, log_writable w →
    ∃ r w' evs, m w = (r, w') ∧ log_writable w' ∧ trace w' = (trace w ++ evs)%list ∧
                ((∃ e, r = Throw e ∧ phases evs = []) ∨
                 (r = Ok true ∧ phases evs = [inr true])).

(** An operation that always returns: it starts a spinner with [title],
    ends it once, and returns the boolean it ended with. *)
Definition announces (title : string) (m : M bool) : Prop :=
  ∀ w, log_writable w →
    ∃ b w' evs, m w = (Ok b, w') ∧ log_writable w' ∧
                trace w' = (trace w ++ evs)%list ∧ phases evs = report (title, b).

(** The keys [main] sets out to run: every key of the catalog in silent
    mode, the answer of the prompt otherwise. *)
Definition chosen : list string :=
  if silent E then keys (tasks E)
  else map (λ c, c.1.2) (filter (λ c, user_checks E c.1.2 c.2 = true) (choices (tasks E))).

(** What [main] does once the privilege check has returned. *)
Definition after_checkAdmin : M unit :=
  let* tasksToRun :=
    (if silent E then ret (keys (tasks E)) else prompt_checkbox E (choices (tasks E))) in
  match tasksToRun with
  | [] => emit (ConsoleLog (Chalk Yellow "No tasks selected. Exiting."))
  | _ =>
      emit (ConsoleLog (Plain "")) >>
      run_selected (tasks E) tasksToRun >>
      emit (ConsoleLog (Chalk BoldGreen (nl +:+ "=== MAINTENANCE COMPLETE ==="))) >>
      emit (ConsoleLog (Chalk Gray ("Log file created at: " +:+ path_text E (logFile E))))
  end.

(** The world in which [main] calls [writeLog] for the first time. *)
Definition greeted (w : World) : World :=
  {| listing := listing w; content := content w;
     trace := (trace w ++
       [ConsoleLog (Chalk BoldCyan ("=== Windows System Maintenance Tool (Node.js) ===" +:+ nl))])%list |}.

(** What [fs.readdir(d)] yields in world [w]: the entries, or nothing when
    the directory is missing or may not be enumerated. *)
Definition readdir_result (w : World) (d : string) : option (list string) :=
  match listing w !! d with
  | Some names => if decide (d ∈ noread E) then None else Some names
  | None => None
  end.

(** The entries of a directory that cannot be removed. *)
Definition undeletable (d : string) (names : list string) : list string :=
  filter (λ n, (d, n) ∈ locked E) names.

(** The message logged for an entry that could not be removed. *)
Definition could_not_delete (d n : string) : string :=
  "Could not delete " +:+ path_text E (path_join d n) +:+ ": "
  +:+ message (fs_error "EPERM: operation not permitted" "rm" (path_text E (path_join d n))).

(** A log entry written at some time, with a level and a message. *)
Definition is_entry (level : Level) (msg : string) (data : string) : Prop :=
  ∃ d, data = logEntry E (toISOString d) level msg.

(** A computation that cannot fail while the log is writable. *)
Definition unfailing {A} (m : M A) : Prop :=
  ∀ w, log_writable w →
    ∃ a w' evs, m w = (Ok a, w') ∧ log_writable w' ∧
                trace w' = (trace w ++ evs)%list ∧ phases evs = [].

(** The progress title under which the operation of a catalog key runs. *)
Definition title_of (key : string) : option string :=
  assoc key
    [("hwInfo", "Gathering Hardware & OS Information");
     ("winUpdate", "Checking for Windows Updates");
     ("winget", "Updating Winget Software");
     ("choco", "Updating Chocolatey Software");
     ("dism", "Checking DISM Health");
     ("sfc", "Running System File Checker (sfc /scannow)");
     ("cleanup", "Cleaning Temporary Files");
     ("optimize", "Optimizing System Drive (C:)")].

(** The text [runTask] prints for a failure. *)
Definition indented (msg : string) : string :=
  "  " +:+ replaceAll LF (nl +:+ "  ") msg.

End Reading.

(** The text a child wrote to one pipe: its chunks there, in order. *)
Definition from_pipe (pipe : Pipe) (c : Pipe * string) : string :=
  match pipe, c.1 with
  | Stdout, Stdout | Stderr, Stderr => c.2
  | _, _ => ""
  end.

Definition piped (pipe : Pipe) (cs : list (Pipe * string)) : string :=
  foldr (λ c acc, from_pipe pipe c +:+ acc) "" cs.

(** ** Concrete machines, for evaluating the tool *)

Module Scenario.

Definition boot : Date :=
  {| time_ms := 1700; year := 2024; month := 3; day := 7;
     hours := 9; minutes := 5; seconds := 1; millis := 42 |}.

Definition exits (code : Z) (err : string) : Child :=
  {| chunks := [(Stderr, err)]; ending := Closed (Some code) |}.

(** A Windows machine: the temp directory is [C:\Temp], the user keeps the
    default ticks, and the inventory script prints nothing that parses. *)
Definition machine (quiet_mode : bool) (ro lk : gset Path) (nr : gset string)
    (ch : string → list string → Child) : Env :=
  {| tmpdir := "C:\Temp"; sep := "\"; EOL := crlf; silent := quiet_mode;
     started := boot; date_at := λ _, boot;
     child := λ _, ch;
     readonly := ro; locked := lk; noread := nr;
     user_checks := λ _ ticked, ticked;
     JSON_parse := λ _, inl {| message := "Unexpected end of JSON input" |} |}.

Definition log_path : Path :=
  ("C:\Temp", "SystemMaintenance-2024-03-07T09-05-01.042Z.log").

(** Every command exits with status 0 and prints nothing. *)
Definition all_pass : string → list string → Child :=
  λ _ _, {| chunks := []; ending := Closed (Some 0%Z) |}.

(** The privilege probe passes; every other command exits with status 1
    after one line on its error pipe. *)
Definition only_admin : string → list string → Child :=
  λ c _, if decide (c = "net") then {| chunks := []; ending := Closed (Some 0%Z) |}
         else exits 1 ("Error: 87" +:+ crlf).

(** No command succeeds, the privilege probe included. *)
Definition all_fail : string → list string → Child :=
  λ _ _, exits 2 ("System error 5 has occurred." +:+ crlf).

Definition disk : World :=
  {| listing := {[ "C:\Temp" := ["a.txt"; "busy.tmp"];
                   "C:\Windows\Temp" := ["old.log"] ]};
     content := ∅; trace := [] |}.

End Scenario.

(** ** The earlier variants of the script

    The repository keeps earlier versions of the script beside the one
    embedded above.  They share [writeLog], [runCommand] and [checkAdmin]
    word for word, and differ in the wrapper and the operations. *)

(** The variant with three fixed steps and no catalog: [runTask] ignores
    what the operation returns, and the package update installs by itself in
    silent mode. *)
Module Fixed.

Section Tool.

Variable E : Env.

Definition runTask (title : string) (task : M unit) : M bool :=
  emit (SpinnerStart title) >>
  try_catch
    (task >>
     emit (SpinnerSucceed (Chalk Green title)) >>
     ret true)
    (λ error,
     emit (SpinnerFail (Chalk Red title)) >>
     emit (ConsoleError (Chalk Red ("  " +:+ replaceAll LF (nl +:+ "  ") (message error)))) >>
     writeLog E (title +:+ " failed: " +:+ message error) ERROR >>
     ret false).

Definition runWingetUpdates : M bool :=
  runTask "Updating Winget Software"
    (runCommand E "winget" ["source"; "update"] >>
     if silent E then
       runCommand E "winget"
         ["upgrade"; "--all"; "--accept-package-agreements"; "--accept-source-agreements";
          "--silent"; "--disable-interactivity"] >>
       ret tt
     else
       emit (ConsoleLog (Chalk Yellow
         (nl +:+ "  Run `winget upgrade` to view packages and `winget upgrade --all` to install all updates.")))).

Definition runDismCheck : M bool :=
  runTask "Checking DISM Health"
    (runCommand E "Dism.exe" ["/Online"; "/Cleanup-Image"; "/CheckHealth"] >>
     ret tt).

Definition runSfcScan : M bool :=
  runTask "Running System File Checker (sfc /scannow)"
    (runCommand E "sfc" ["/scannow"] >>
     ret tt).

Definition main : M unit :=
  emit (ConsoleLog (Chalk BoldCyan "=== Windows System Maintenance Tool (Node.js) ===")) >>
  writeLog E "Script started." INFO >>
  checkAdmin E >>
  runWingetUpdates >>
  runDismCheck >>
  runSfcScan >>
  emit (ConsoleLog (Chalk BoldGreen (nl +:+ "=== MAINTENANCE COMPLETE ==="))) >>
  emit (ConsoleLog (Chalk Gray ("Log file created at: " +:+ path_text E (logFile E)))).

Definition program : M unit :=
  try_catch main
    (λ err,
     emit (ConsoleError (Chalk Red (nl +:+ "CRITICAL ERROR: " +:+ message err))) >>
     writeLog E ("Critical script error: " +:+ message err) ERROR >>
     process_exit 1).

End Tool.

End Fixed.

(** The variant with the first catalog: the update check hands its script to
    PowerShell on the command line instead of writing it to a file. *)
Module Earlier.

Section Tool.

Variable E : Env.

Definition runWindowsUpdateCheck : M bool :=
  runTask E "Checking for Windows Updates"
    (let psScript := updateScript in
     let* out := runCommand E "powershell.exe" ["-Command"; psScript] in
     ret (Some (trim out.1))).

End Tool.

End Earlier.

(** ** The executor of [runCommand], listener by listener

    [runCommand] above is the outcome of the promise for a child that has its
    pipes.  Here the body of the executor is followed statement by statement
    (l.31-53): the two [data] listeners are attached first, then [close],
    and [error] last; the events of the child are delivered afterwards. *)
Module Executor.

(** What a child emits once the executor has returned. *)
Inductive Emitted :=
| Data (pipe : Pipe) (chunk : string)   (* ['data'] on [child.stdout] or [child.stderr] *)
| Close (code : option Z)               (* ['close'] *)
| Failure (err : Error).                (* ['error'] *)

(** What [spawn] returns: a child whose [stdout] and [stderr] exist or are
    [undefined], and the events it will emit. *)
Record Spawned := { has_pipes : bool; emitted : list Emitted }.

Inductive Listener := OnStdout | OnStderr | OnClose | OnError.

#[global] Instance Listener_eq_dec : EqDecision Listener.
Proof. solve_decision. Defined.

Inductive Promise :=
| Pending
| Resolved (out : string * string)
| Rejected (e : Error).

(** The variables of the closure, the promise, the listeners attached so
    far, and the ['error'] event that found no listener, if any: an unhandled
    ['error'] event is thrown by the emitter and ends the process. *)
Record State := {
  stdout : string;
  stderr : string;
  promise : Promise;
  listeners : list Listener;
  uncaught : option Error
}.

(** [resolve] and [reject] settle a pending promise and are ignored once it
    is settled. *)
Definition settle (p : Promise) (s : State) : State :=
  {| stdout := stdout s; stderr := stderr s;
     promise := match promise s with Pending => p | settled => settled end;
     listeners := listeners s; uncaught := uncaught s |}.

(** The executor.  On a child without pipes [child.stdout] is [undefined],
    [child.stdout.on] throws a [TypeError] before any listener is attached,
    and an exception in the executor rejects the promise. *)
Definition executor (c : Spawned) : State :=
  if has_pipes c then
    {| stdout := ""; stderr := ""; promise := Pending;
       listeners := [OnStdout; OnStderr; OnClose; OnError]; uncaught := None |}
  else
    {| stdout := ""; stderr := ""; promise := Rejected (type_error "undefined" "on");
       listeners := []; uncaught := None |}.

(** The delivery of one event to the listeners that are attached. *)
Definition deliver (s : State) (ev : Emitted) : State :=
  match uncaught s with
  | Some _ => s
  | None =>
      match ev with
      | Data Stdout chunk =>
          if decide (OnStdout ∈ listeners s) then
            {| stdout := stdout s +:+ chunk; stderr := stderr s; promise := promise s;
               listeners := listeners s; uncaught := None |}
          else s
      | Data Stderr chunk =>
          if decide (OnStderr ∈ listeners s) then
            {| stdout := stdout s; stderr := stderr s +:+ chunk; promise := promise s;
               listeners := listeners s; uncaught := None |}
          else s
      | Close code =>
          if decide (OnClose ∈ listeners s) then
            if decide (code = Some 0%Z) then settle (Resolved (stdout s, stderr s)) s
            else
              settle (Rejected {| message := "Command failed with exit code "
                                             +:+ code_text code +:+ nl +:+ stderr s |}) s
          else s
      | Failure err =>
          if decide (OnError ∈ listeners s) then settle (Rejected err) s
          else
            {| stdout := stdout s; stderr := stderr s; promise := promise s;
               listeners := listeners s; uncaught := Some err |}
      end
  end.

Definition run (c : Spawned) : State := foldl deliver (executor c) (emitted c).

(** The child of a machine of [Env]: it has its pipes, emits its chunks and
    then ends. *)
Definition of_child (c : Child) : Spawned :=
  {| has_pipes := true;
     emitted := map (λ d, Data d.1 d.2) (chunks c) ++
                [match ending c with
                 | Closed code => Close code
                 | SpawnFailed err => Failure err
                 end] |}.

(** The promise as an outcome of the monad. *)
Definition settled_as (r : Res (string * string)) : Promise :=
  match r with
  | Ok out => Resolved out
  | Throw e => Rejected e
  | Exit _ => Pending
  end.

End Executor.

(** ** Further observations *)

(** The styled pieces of a terminal text, left to right. *)
Fixpoint segments (t : Text) : list (option Style * string) :=
  match t with
  | Plain s => [(None, s)]
  | Chalk st s => [(Some st, s)]
  | Cat a b => (segments a ++ segments b)%list
  end.

(** A value that has properties to read: neither [undefined] nor [null]. *)
Definition readable (v : option Json) : Prop := v ≠ None ∧ v ≠ Some JNull.

(** [root.k], or [undefined] where reading it throws. *)
Definition field (root : Json) (k : string) : option Json :=
  match js_get (Some root) k with
  | inr v => v
  | inl _ => None
  end.

(** The files whose removal was attempted with [fs.unlink], in order. *)
Definition unlink_attempts (evs : list Event) : list Path :=
  omap (λ ev, match ev with FsCall OpUnlink p _ _ => Some p | _ => None end) evs.

Section Footprint.

Variable E : Env.

(** The executables the tool ever starts. *)
Definition executables : list string :=
  ["net"; "powershell.exe"; "winget"; "choco"; "Dism.exe"; "sfc"].

(** The two directories the cleanup sweeps. *)
Definition temp_dirs : list string := [tmpdir E; "C:\Windows\Temp"].

(** What an action of the tool may touch: it starts one of its executables;
    it appends to its log file only; it writes and unlinks files in the
    platform temp directory only; it enumerates and removes inside the two
    temp directories only. *)
Definition within_footprint (ev : Event) : Prop :=
  match ev with
  | Spawn command _ => command ∈ executables
  | FsCall OpAppend p _ _ => p = logFile E
  | FsCall OpWrite p _ _ => p.1 = tmpdir E
  | FsCall OpUnlink p _ _ => p.1 = tmpdir E
  | FsCall OpRm p _ _ => p.1 ∈ temp_dirs
  | FsCall OpReaddir p _ _ => p.1 ∈ temp_dirs
  | _ => True
  end.

(** A computation all of whose actions satisfy [P], from every world. *)
Definition emits (P : Event → Prop) {A} (m : M A) : Prop :=
  ∀ w, ∃ evs, trace (m w).2 = (trace w ++ evs)%list ∧ Forall P evs.




(** The temp script of the update check and of the inventory, when the
    operation starts in world [w]: the spinner starts, then [Date.now()] is
    read. *)
Definition update_script_path (w : World) : Path :=
  path_join (tmpdir E)
    ("ps-script-" +:+ pretty (time_ms (date_at E (length (trace w) + 1))) +:+ ".ps1").

Definition inventory_script_path (w : World) : Path :=
  path_join (tmpdir E)
    ("hw-info-" +:+ pretty (time_ms (date_at E (length (trace w) + 1))) +:+ ".ps1").

(** The entries of the platform temp directory in world [w]. *)
Definition temp_entries (w : World) : list string :=
  default [] (listing w !! tmpdir E).

End Footprint.

(** A machine on which every command exits with status 0 and the output of
    the inventory script parses to [systemInfo]. *)
Definition inventory_machine (systemInfo : Json) : Env :=
  {| tmpdir := "C:\Temp"; sep := "\"; EOL := crlf; silent := true;
     started := Scenario.boot; date_at := λ _, Scenario.boot;
     child := λ _, Scenario.all_pass;
     readonly := ∅; locked := ∅; noread := ∅;
     user_checks := λ _ ticked, ticked;
     JSON_parse := λ _, inr systemInfo |}.

(** A parsed inventory with every section but the graphics adapter. *)
Definition sample_inventory : Json :=
  JObj [("OS", JObj [("Caption", JStr "Windows 11"); ("Version", JStr "10.0");
                     ("BuildNumber", JStr "22631")]);
        ("CPU", JObj [("Name", JStr "CPU"); ("NumberOfCores", JNum "8" true);
                      ("NumberOfLogicalProcessors", JNum "16" true);
                      ("MaxClockSpeed", JNum "3200" true)]);
        ("RAM", JObj [("TotalPhysicalMemory", JNum "32" true)]);
        ("Motherboard", JObj [("Manufacturer", JStr "ACME"); ("Product", JStr "B1")])].

(** A computation that ends the process, if at all, with status [code]. *)
Definition exits_only (code : Z) {A} (m : M A) : Prop :=
  ∀ w c, (m w).1 = Exit c → c = code.

(** An interactive machine whose user clears every tick of the prompt. *)
Definition unticked_machine : Env :=
  {| tmpdir := "C:\Temp"; sep := "\"; EOL := crlf; silent := false;
     started := Scenario.boot; date_at := λ _, Scenario.boot;
     child := λ _, Scenario.all_pass;
     readonly := ∅; locked := ∅; noread := ∅;
     user_checks := λ _ _, false;
     JSON_parse := λ _, inl {| message := "Unexpected end of JSON input" |} |}.

(** Proof automation: the hints that compose quiet computations, and the
    closing step of a specification. *)
Create HintDb quiet.

Ltac done_spec := repeat (split; [done|]); done.

(** * Properties *)

Local Open Scope list_scope.

(** ** Text *)

Lemma has_char_app c a b : has_char c (a +:+ b) = has_char c a || has_char c b.
Proof.
  induction a as [|x a IH]; simpl; [done|].
  rewrite IH. by destruct (Ascii.eqb x c).
Qed.

Lemma space_no_digit : no_digit " ".
Proof.
  intros n. unfold digit. pose proof (Nat.mod_upper_bound n 10 ltac:(lia)) as Hlt.
  destruct (n mod 10) as [|[|[|[|[|[|[|[|[|[|m]]]]]]]]]]; try reflexivity; lia.
Qed.

Lemma LF_no_digit : no_digit LF.
Proof.
  intros n. unfold digit. pose proof (Nat.mod_upper_bound n 10 ltac:(lia)) as Hlt.
  destruct (n mod 10) as [|[|[|[|[|[|[|[|[|[|m]]]]]]]]]]; try reflexivity; lia.
Qed.

Lemma digits_lack c k : no_digit c → ∀ n acc,
  has_char c acc = false → has_char c (digits k n acc) = false.
Proof.
  intros Hc. induction k as [|k IH]; intros n acc Hacc; cbn [digits]; [done|].
  apply IH. cbn [has_char]. by rewrite Hc.
Qed.

Lemma pad_lacks c k n : no_digit c → has_char c (pad k n) = false.
Proof. intros Hc. by apply digits_lack. Qed.

(** An ISO timestamp consists of digits and the marks [+-T:.Z]. *)
Lemma toISOString_lacks c d :
  no_digit c → has_char c "+-T:.Z" = false → has_char c (toISOString d) = false.
Proof.
  intros Hc Hmarks. unfold toISOString.
  cbn [has_char] in Hmarks.
  repeat (apply orb_false_elim in Hmarks as [? Hmarks]).
  repeat (rewrite has_char_app; apply orb_false_intro);
    try (by apply pad_lacks); try (cbn [has_char]; by rewrite ?orb_false_r).
  destruct (_ <? _)%nat; [by apply pad_lacks|].
  rewrite has_char_app. rewrite (pad_lacks c 6 _ Hc).
  cbn [has_char]. by rewrite ?orb_false_r.
Qed.

Lemma toISOString_no_space d : has_char " " (toISOString d) = false.
Proof. apply toISOString_lacks; [apply space_no_digit | reflexivity]. Qed.

Lemma toISOString_no_LF d : has_char LF (toISOString d) = false.
Proof. apply toISOString_lacks; [apply LF_no_digit | reflexivity]. Qed.

Lemma prefix_cons_ne c a s r : a ≠ c → String.prefix (String c r) (String a s) = false.
Proof. intros Hne. simpl. destruct (ascii_dec c a); congruence. Qed.

Lemma prefix_cons_eq c r s : String.prefix (String c r) (String c s) = String.prefix r s.
Proof. simpl. by destruct (ascii_dec c c). Qed.

Lemma eqb_false_ne (a c : ascii) : Ascii.eqb a c = false → a ≠ c.
Proof. intros H ->. by rewrite Ascii.eqb_refl in H. Qed.

Lemma prefix_nil r : String.prefix "" r = true.
Proof. by destruct r. Qed.

(** Splitting at a one-character separator that the left part lacks. *)
Lemma split_first_char c l r :
  has_char c l = false → split_first (String c "") (l +:+ String c r) = Some (l, r).
Proof.
  induction l as [|a l IH]; simpl; intros Hl.
  - destruct (ascii_dec c c); [|done]. by rewrite prefix_nil.
  - apply orb_false_elim in Hl as [Ha Hl].
    destruct (ascii_dec c a) as [->|_]; [by rewrite Ascii.eqb_refl in Ha|].
    by rewrite (IH Hl).
Qed.

(** Splitting at the platform line terminator when the line has no line feed. *)
Lemma split_first_eol eol l r :
  eol = nl ∨ eol = crlf →
  has_char LF l = false → split_first eol (l +:+ eol +:+ r) = Some (l, r).
Proof.
  intros Heol. induction l as [|a l IH]; intros Hl.
  - destruct Heol as [-> | ->]; simpl; by rewrite prefix_nil.
  - simpl in Hl. apply orb_false_elim in Hl as [Ha Hl].
    specialize (IH Hl). apply eqb_false_ne in Ha.
    change ((String a l) +:+ eol +:+ r) with (String a (l +:+ eol +:+ r)).
    assert (String.prefix eol (String a (l +:+ eol +:+ r)) = false) as Hp.
    { destruct Heol as [-> | ->].
      - apply prefix_cons_ne. done.
      - unfold crlf. destruct (decide (a = CR)) as [->|Hne]; [|by apply prefix_cons_ne].
        rewrite prefix_cons_eq.
        destruct l as [|b l]; [by apply prefix_cons_ne|].
        simpl in Hl. apply orb_false_elim in Hl as [Hb _].
        apply eqb_false_ne in Hb. by apply prefix_cons_ne. }
    unfold split_first; fold split_first. by rewrite Hp, IH.
Qed.

Lemma lines_app_nl l r :
  has_char LF l = false → lines (l +:+ nl +:+ r) = l :: lines r.
Proof.
  induction l as [|a l IH]; simpl; intros Hl; [done|].
  apply orb_false_elim in Hl as [Ha Hl].
  rewrite Ha, (IH Hl). done.
Qed.

(** ** The logger and the file system *)

Section Run.

Variable E : Env.

Abbreviation writable := (log_writable E).

Lemma phases_app a b : phases (a ++ b) = phases a ++ phases b.
Proof. apply omap_app. Qed.

Lemma appended_app f a b : appended f (a ++ b) = appended f a ++ appended f b.
Proof. apply omap_app. Qed.

Lemma rm_attempts_app a b : rm_attempts (a ++ b) = rm_attempts a ++ rm_attempts b.
Proof. apply omap_app. Qed.

Lemma spawned_app a b : spawned (a ++ b) = spawned a ++ spawned b.
Proof. apply omap_app. Qed.

(** Appending to the log file when it is writable. *)
Lemma append_log_ok data w :
  writable w →
  ∃ names,
    listing w !! tmpdir E = Some names ∧
    fs_appendFile E (logFile E) data w =
      (Ok tt,
       {| listing := <[tmpdir E := add_entry (logFile E).2 names]> (listing w);
          content := <[logFile E := default "" (content w !! logFile E) +:+ data]> (content w);
          trace := trace w ++ [FsCall OpAppend (logFile E) data true] |}).
Proof.
  intros [[names Hn] Hro]. exists names. split; [done|].
  unfold fs_appendFile, fs_store. simpl. rewrite Hn.
  by destruct (decide (logFile E ∈ readonly E)).
Qed.

(** Appending to the log file when it is not writable: the call fails and
    changes nothing but the history. *)
Lemma append_log_fail data w :
  ¬ writable w →
  ∃ e,
    fs_appendFile E (logFile E) data w =
      (Throw e,
       {| listing := listing w; content := content w;
          trace := trace w ++ [FsCall OpAppend (logFile E) data false] |}).
Proof.
  intros Hnw. unfold fs_appendFile, fs_store, fs_fail. simpl.
  destruct (listing w !! tmpdir E) as [names|] eqn:Hn; [|eauto].
  destruct (decide (logFile E ∈ readonly E)); [eauto|].
  exfalso. apply Hnw. split; [by rewrite Hn | done].
Qed.

(** The error of that failed append: the directory of the log is missing,
    or the log file may not be opened for writing. *)
Lemma append_log_fail_error data w :
  ¬ writable w →
  fs_appendFile E (logFile E) data w =
    (Throw {| message :=
                match listing w !! tmpdir E with
                | Some _ => "EPERM: operation not permitted"
                | None => "ENOENT: no such file or directory"
                end +:+ ", open '" +:+ path_text E (logFile E) +:+ "'" |},
     {| listing := listing w; content := content w;
        trace := trace w ++ [FsCall OpAppend (logFile E) data false] |}).
Proof.
  intros Hnw. unfold fs_appendFile, fs_store, fs_fail, fs_error. simpl.
  destruct (listing w !! tmpdir E) as [names|] eqn:Hn; [|done].
  destruct (decide (logFile E ∈ readonly E)); [done|].
  exfalso. apply Hnw. split; [by rewrite Hn | done].
Qed.

Lemma writable_insert w dir names ct tr :
  writable w →
  writable {| listing := <[dir := names]> (listing w); content := ct; trace := tr |}.
Proof.
  intros [Hs Hro]. split; [|done]. simpl.
  destruct (decide (dir = tmpdir E)) as [->|Hne].
  - rewrite lookup_insert_eq. eauto.
  - by rewrite lookup_insert_ne.
Qed.

Lemma writable_alter w f dir ct tr :
  writable w →
  writable {| listing := alter f dir (listing w); content := ct; trace := tr |}.
Proof.
  intros [[names Hs] Hro]. split; [|done]. simpl.
  destruct (decide (dir = tmpdir E)) as [->|Hne].
  - rewrite lookup_alter_eq, Hs. simpl. eauto.
  - rewrite lookup_alter_ne by done. eauto.
Qed.

Lemma writable_same w ct tr :
  writable w → writable {| listing := listing w; content := ct; trace := tr |}.
Proof. by intros [Hs Hro]. Qed.

(** [writeLog] on a writable log: one entry is appended, and the log stays
    writable. *)
Lemma writeLog_ok msg level w :
  writable w →
  ∃ w',
    writeLog E msg level w = (Ok tt, w') ∧
    writable w' ∧
    trace w' = trace w ++
      [FsCall OpAppend (logFile E)
         (logEntry E (toISOString (date_at E (length (trace w)))) level msg) true] ∧
    content w' !! logFile E =
      Some (default "" (content w !! logFile E)
            +:+ logEntry E (toISOString (date_at E (length (trace w)))) level msg) ∧
    (∃ names, listing w !! tmpdir E = Some names ∧
              listing w' = <[tmpdir E := add_entry (logFile E).2 names]> (listing w)).
Proof.
  intros Hw. unfold writeLog, bind, new_Date.
  destruct (append_log_ok
    (logEntry E (toISOString (date_at E (length (trace w)))) level msg) w Hw)
    as (names & Hn & ->).
  eexists. split; [done|]. split; [by apply writable_insert|].
  split; [done|]. split; [simpl; by rewrite lookup_insert_eq|].
  exists names. done.
Qed.

(** [writeLog] on a log that cannot be written: the failure of the append
    is the outcome, and nothing is printed. *)
Lemma writeLog_fail msg level w :
  ¬ writable w →
  ∃ e,
    writeLog E msg level w =
      (Throw e,
       {| listing := listing w; content := content w;
          trace := trace w ++
            [FsCall OpAppend (logFile E)
               (logEntry E (toISOString (date_at E (length (trace w)))) level msg) false] |}).
Proof.
  intros Hw. unfold writeLog, bind, new_Date.
  destruct (append_log_fail
    (logEntry E (toISOString (date_at E (length (trace w)))) level msg) w Hw)
    as (e & ->).
  eauto.
Qed.

(** Once an append to the log has succeeded, the log is writable. *)
Lemma writeLog_Ok_writable msg level w w' :
  writeLog E msg level w = (Ok tt, w') → writable w'.
Proof.
  intros Hrun.
  destruct (decide (is_Some (listing w !! tmpdir E) ∧ logFile E ∉ readonly E)) as [Hw|Hnw].
  - destruct (writeLog_ok msg level w Hw) as (w'' & Hr & Hw'' & _). congruence.
  - destruct (writeLog_fail msg level w Hnw) as (e & Hr). congruence.
Qed.

End Run.

(** ** [runCommand] *)

Lemma append_cons x (a b : string) : String x a +:+ b = String x (a +:+ b).
Proof. reflexivity. Qed.

Lemma append_assoc (a b c : string) : (a +:+ b) +:+ c = a +:+ (b +:+ c).
Proof.
  induction a as [|x a IH]; [done|].
  rewrite !append_cons. by rewrite IH.
Qed.

Lemma append_nil_r (a : string) : a +:+ "" = a.
Proof.
  induction a as [|x a IH]; [done|].
  rewrite append_cons. by rewrite IH.
Qed.

(** The two listeners accumulate each pipe's chunks in order. *)
Lemma foldl_on_data cs : ∀ out err,
  foldl on_data (out, err) cs = (out +:+ piped Stdout cs, err +:+ piped Stderr cs).
Proof.
  induction cs as [|[[] s] cs IH]; intros out err; simpl.
  - by rewrite !append_nil_r.
  - change (on_data (out, err) (Stdout, s)) with (out +:+ s, err).
    rewrite IH. by rewrite append_assoc.
  - change (on_data (out, err) (Stderr, s)) with (out, err +:+ s).
    rewrite IH. by rewrite append_assoc.
Qed.

(** On a child that has its pipes [runCommand] spawns one process and
    settles by how it ends: exit code 0 resolves with the accumulated stdout
    and stderr text; a nonzero exit code rejects with an error whose message
    carries that code and the captured stderr; an ['error'] event rejects
    with the error itself. *)
Lemma runCommand_settles (E : Env) (command : string) (args : list string) (w : World) :
  let c := child E (length (trace w)) command args in
  let r := runCommand E command args w in
  trace r.2 = trace w ++ [Spawn command args] ∧
  (ending c = Closed (Some 0%Z) →
     r.1 = Ok (piped Stdout (chunks c), piped Stderr (chunks c))) ∧
  (∀ code : Z, code ≠ 0%Z → ending c = Closed (Some code) →
     r.1 = Throw {| message := "Command failed with exit code " +:+ pretty code
                               +:+ nl +:+ piped Stderr (chunks c) |}) ∧
  (∀ err, ending c = SpawnFailed err → r.1 = Throw err).
Proof.
  intros c r. subst r. unfold runCommand. fold c.
  rewrite (foldl_on_data (chunks c) "" ""). simpl.
  split; [by destruct (ending c) as [code|err]; [destruct (decide _)|]|].
  split; [|split].
  - intros ->. by destruct (decide _).
  - intros code Hne ->. destruct (decide _) as [Heq|_]; [congruence|]. done.
  - by intros err ->.
Qed.

Lemma runCommand_settles_witness :
  (runCommand (Scenario.machine true ∅ ∅ ∅ Scenario.all_pass) "net" ["session"]
     Scenario.disk).1 = Ok ("", "")
  ∧ (runCommand (Scenario.machine true ∅ ∅ ∅ Scenario.all_fail) "net" ["session"]
       Scenario.disk).1
    = Throw {| message := "Command failed with exit code 2" +:+ nl
                          +:+ "System error 5 has occurred." +:+ crlf |}
  ∧ (runCommand
       (Scenario.machine true ∅ ∅ ∅
          (λ _ _, {| chunks := [(Stdout, "partial")];
                     ending := SpawnFailed {| message := "spawn cmd.exe ENOENT" |} |}))
       "net" ["session"] Scenario.disk).1
    = Throw {| message := "spawn cmd.exe ENOENT" |}.
Proof.
  split; [|split].
  - apply (runCommand_settles (Scenario.machine true ∅ ∅ ∅ Scenario.all_pass)
             "net" ["session"] Scenario.disk).
    reflexivity.
  - apply (proj1 (proj2 (proj2 (runCommand_settles
             (Scenario.machine true ∅ ∅ ∅ Scenario.all_fail)
             "net" ["session"] Scenario.disk))) 2%Z); [lia | reflexivity].
  - apply (runCommand_settles
             (Scenario.machine true ∅ ∅ ∅
                (λ _ _, {| chunks := [(Stdout, "partial")];
                           ending := SpawnFailed {| message := "spawn cmd.exe ENOENT" |} |}))
             "net" ["session"] Scenario.disk).
    reflexivity.
Defined.

(** The executor on a child with its pipes: the chunks are accumulated by
    the two [data] listeners, whatever their order. *)
Lemma executor_accumulates (cs : list (Pipe * string)) : ∀ s,
  Executor.uncaught s = None →
  Executor.listeners s =
    [Executor.OnStdout; Executor.OnStderr; Executor.OnClose; Executor.OnError] →
  foldl Executor.deliver s (map (λ d, Executor.Data d.1 d.2) cs) =
    {| Executor.stdout := (foldl on_data (Executor.stdout s, Executor.stderr s) cs).1;
       Executor.stderr := (foldl on_data (Executor.stdout s, Executor.stderr s) cs).2;
       Executor.promise := Executor.promise s;
       Executor.listeners := Executor.listeners s;
       Executor.uncaught := None |}.
Proof.
  induction cs as [|[[] chunk] cs IH]; intros s Hu Hl.
  - destruct s. cbn in *. by subst.
  - cbn [map foldl fst snd]. unfold Executor.deliver at 2. rewrite Hu, Hl.
    destruct (decide _) as [_|Hn]; [|destruct Hn; set_solver].
    rewrite IH by done. done.
  - cbn [map foldl fst snd]. unfold Executor.deliver at 2. rewrite Hu, Hl.
    destruct (decide _) as [_|Hn]; [|destruct Hn; set_solver].
    rewrite IH by done. done.
Qed.

(** [runCommand] is the outcome of the executor on every child that has its
    pipes: the promise settles as [runCommand] says, and no ['error'] event
    is left without a listener. *)
Lemma runCommand_follows_executor (E : Env) (command : string) (args : list string)
    (w : World) :
  let c := child E (length (trace w)) command args in
  Executor.promise (Executor.run (Executor.of_child c))
    = Executor.settled_as (runCommand E command args w).1 ∧
  Executor.uncaught (Executor.run (Executor.of_child c)) = None.
Proof.
  intros c. unfold Executor.run, Executor.of_child, runCommand. fold c.
  cbn [Executor.emitted Executor.has_pipes Executor.executor].
  rewrite foldl_app, executor_accumulates by done.
  cbn [Executor.stdout Executor.stderr Executor.promise Executor.listeners foldl].
  unfold Executor.deliver. cbn [Executor.uncaught Executor.listeners].
  destruct (ending c) as [code|err].
  - destruct (decide _) as [_|Hn]; [|destruct Hn; set_solver].
    destruct (decide (code = Some 0%Z)); cbn; by destruct (foldl on_data _ _).
  - destruct (decide _) as [_|Hn]; [|destruct Hn; set_solver]. done.
Qed.

(** On a child without pipes the promise is rejected by the [TypeError] of
    the executor, not by the error of the spawn, and the ['error'] event of
    the child finds no listener. *)
Lemma executor_without_pipes (err : Error) (later : list Executor.Emitted) :
  let r := Executor.run {| Executor.has_pipes := false;
                           Executor.emitted := Executor.Failure err :: later |} in
  Executor.promise r = Executor.Rejected (type_error "undefined" "on") ∧
  Executor.uncaught r = Some err.
Proof.
  unfold Executor.run. cbn [Executor.emitted Executor.has_pipes Executor.executor foldl].
  unfold Executor.deliver at 2. cbn [Executor.uncaught Executor.listeners].
  destruct (decide _) as [Hin|_]; [by apply elem_of_nil in Hin|].
  induction later as [|ev later IH]; [done|].
  cbn [foldl]. unfold Executor.deliver at 2. cbn [Executor.uncaught]. exact IH.
Qed.

(** C3 at the failing input: a spawn that fails for want of file descriptors
    returns a child without pipes and emits ['error'].  The executor throws
    at [child.stdout.on] before the [error] listener is attached: the promise
    rejects with a [TypeError] instead of the spawn error, and the ['error']
    event, left without a listener, ends the process. *)
Lemma spawn_without_pipes_is_not_surfaced :
  let spawn_error := {| message := "spawn cmd.exe EMFILE" |} in
  let r := Executor.run {| Executor.has_pipes := false;
                           Executor.emitted := [Executor.Failure spawn_error] |} in
  Executor.promise r =
    Executor.Rejected {| message := "Cannot read properties of undefined (reading 'on')" |} ∧
  Executor.promise r ≠ Executor.Rejected spawn_error ∧
  Executor.uncaught r = Some spawn_error.
Proof. vm_compute. done. Qed.

(** ** [writeLog] *)

(** C6, as the code has it.  [writeLog] awaits the file append and has no
    handler around it: when the log can be appended to, exactly one entry is
    added to the file; when the append fails, that failure is the outcome of
    [writeLog] itself (its promise rejects to the caller), the file is left as
    it was, and nothing is printed to the terminal. *)
Theorem writeLog_outcome (E : Env) (msg : string) (level : Level) (w : World) :
  let entry := logEntry E (toISOString (date_at E (length (trace w)))) level msg in
  (log_writable E w →
     ∃ w', writeLog E msg level w = (Ok tt, w') ∧
           content w' !! logFile E = Some (default "" (content w !! logFile E) +:+ entry) ∧
           trace w' = trace w ++ [FsCall OpAppend (logFile E) entry true]) ∧
  (¬ log_writable E w →
     ∃ e w', writeLog E msg level w = (Throw e, w') ∧
             content w' = content w ∧
             trace w' = trace w ++ [FsCall OpAppend (logFile E) entry false]).
Proof.
  intros entry. split.
  - intros Hw. destruct (writeLog_ok E msg level w Hw) as (w' & Hr & _ & Ht & Hc & _).
    eauto.
  - intros Hnw. destruct (writeLog_fail E msg level w Hnw) as (e & Hr).
    eexists _, _. split; [exact Hr|]. done.
Qed.

Lemma writeLog_outcome_witness :
  (∃ w', writeLog (Scenario.machine true ∅ ∅ ∅ Scenario.all_pass) "Script started." INFO
           Scenario.disk = (Ok tt, w') ∧
         content w' !! Scenario.log_path
           = Some ("2024-03-07T09:05:01.042Z [INFO] Script started." +:+ crlf) ∧
         trace w' = [FsCall OpAppend Scenario.log_path
                       ("2024-03-07T09:05:01.042Z [INFO] Script started." +:+ crlf) true])
  ∧
  (∃ e w', writeLog (Scenario.machine true {[Scenario.log_path]} ∅ ∅ Scenario.all_pass)
             "Script started." INFO Scenario.disk = (Throw e, w') ∧
           content w' = ∅ ∧
           trace w' = [FsCall OpAppend Scenario.log_path
                         ("2024-03-07T09:05:01.042Z [INFO] Script started." +:+ crlf) false]).
Proof.
  split.
  - apply (proj1 (writeLog_outcome (Scenario.machine true ∅ ∅ ∅ Scenario.all_pass)
                    "Script started." INFO Scenario.disk)).
    unfold log_writable. compute_done.
  - apply (proj2 (writeLog_outcome
                    (Scenario.machine true {[Scenario.log_path]} ∅ ∅ Scenario.all_pass)
                    "Script started." INFO Scenario.disk)).
    unfold log_writable. compute_done.
Defined.

(** C6, as the spec words it, fails: with a write-protected log file the
    call does raise to its caller, and no warning reaches the terminal. *)
Lemma writeLog_raises_to_caller :
  let r := writeLog (Scenario.machine true {[Scenario.log_path]} ∅ ∅ Scenario.all_pass)
             "Script started." INFO Scenario.disk in
  r.1 = Throw {| message := "EPERM: operation not permitted, open "
                            +:+ "'C:\Temp\SystemMaintenance-2024-03-07T09-05-01.042Z.log'" |}
  ∧ trace r.2 = [FsCall OpAppend Scenario.log_path
                   ("2024-03-07T09:05:01.042Z [INFO] Script started." +:+ crlf) false].
Proof. vm_compute. done. Qed.

(** ** [runTask] *)

Lemma lines_cons a s :
  a ≠ LF →
  lines (String a s) =
    match lines s with
    | l :: ls => String a l :: ls
    | [] => [String a ""]
    end.
Proof.
  intros Hne. simpl. destruct (Ascii.eqb a LF) eqn:Heq; [|done].
  by apply Ascii.eqb_eq in Heq.
Qed.

Lemma lines_LF s : lines (String LF s) = "" :: lines s.
Proof. reflexivity. Qed.

Lemma lines_nonempty s : lines s ≠ [].
Proof.
  destruct s as [|a s]; simpl; [done|].
  destruct (Ascii.eqb a LF); [done|]. by destruct (lines s).
Qed.

(** Replacing every line feed by a line feed and two spaces indents every
    line but the first. *)
Lemma lines_replaceAll msg :
  lines (replaceAll LF (nl +:+ "  ") msg) =
    match lines msg with
    | l :: ls => l :: map (String.append "  ") ls
    | [] => []
    end.
Proof.
  induction msg as [|a msg IH]; [done|].
  pose proof (lines_nonempty msg) as Hne.
  cbn [replaceAll]. destruct (Ascii.eqb a LF) eqn:Heq.
  - apply Ascii.eqb_eq in Heq as ->.
    change ((nl +:+ "  ") +:+ replaceAll LF (nl +:+ "  ") msg)
      with (String LF (String " " (String " " (replaceAll LF (nl +:+ "  ") msg)))).
    rewrite !lines_LF. rewrite !lines_cons by done. rewrite IH.
    destruct (lines msg) as [|l ls]; [done|]. done.
  - apply eqb_false_ne in Heq.
    rewrite !lines_cons by done. rewrite IH.
    destruct (lines msg) as [|l ls]; [done|]. done.
Qed.

(** The printed failure text: every line of the message, two spaces in. *)
Lemma indented_lines msg :
  lines (indented msg) = map (String.append "  ") (lines msg).
Proof.
  unfold indented.
  change ("  " +:+ replaceAll LF (nl +:+ "  ") msg)
    with (String " " (String " " (replaceAll LF (nl +:+ "  ") msg))).
  rewrite !lines_cons by done. rewrite lines_replaceAll.
  pose proof (lines_nonempty msg).
  destruct (lines msg) as [|l ls]; [done|]. done.
Qed.

(** C1, as the code has it.  When the operation fails, [runTask] reports the
    failure, prints the message with every line indented, and awaits
    [writeLog] for the entry [<title> failed: <message>] at level ERROR.  If
    that append succeeds, exactly one entry is added and [runTask] returns
    [false]; if it fails, [runTask] itself rejects with the append's failure
    and no entry is added. *)
Theorem runTask_failure (E : Env) (title : string) (task : M (option string))
    (w w1 : World) (e : Error) :
  task (after_start title w) = (Throw e, w1) →
  let shown := [SpinnerFail (Chalk Red title);
                ConsoleError (Chalk Red (indented (message e)))] in
  let entry := logEntry E (toISOString (date_at E (length (trace w1) + 2))) ERROR
                 (title +:+ " failed: " +:+ message e) in
  lines (indented (message e)) = map (String.append "  ") (lines (message e)) ∧
  (log_writable E w1 →
     ∃ w', runTask E title task w = (Ok false, w') ∧
           trace w' = trace w1 ++ shown ++ [FsCall OpAppend (logFile E) entry true] ∧
           content w' !! logFile E
             = Some (default "" (content w1 !! logFile E) +:+ entry)) ∧
  (¬ log_writable E w1 →
     ∃ e' w',
       fs_appendFile E (logFile E) entry
         {| listing := listing w1; content := content w1; trace := trace w1 ++ shown |}
         = (Throw e', w') ∧
       runTask E title task w = (Throw e', w') ∧
       message e' =
         match listing w1 !! tmpdir E with
         | Some _ => "EPERM: operation not permitted"
         | None => "ENOENT: no such file or directory"
         end +:+ ", open '" +:+ path_text E (logFile E) +:+ "'" ∧
       trace w' = trace w1 ++ shown ++ [FsCall OpAppend (logFile E) entry false] ∧
       content w' = content w1).
Proof.
  intros Htask shown entry. split; [apply indented_lines|].
  unfold runTask, bind, try_catch, emit.
  change {| listing := listing w; content := content w;
            trace := trace w ++ [SpinnerStart title] |} with (after_start title w).
  rewrite Htask. cbn [fst snd listing content trace].
  set (w2 := {| listing := listing w1; content := content w1;
                trace := (trace w1 ++ [SpinnerFail (Chalk Red title)]) ++
                  [ConsoleError
                     (Chalk Red ("  " +:+ replaceAll LF (nl +:+ "  ") (message e)))] |}).
  assert (length (trace w2) = length (trace w1) + 2) as Hlen.
  { unfold w2. cbn [trace]. rewrite !length_app. simpl. lia. }
  split.
  - intros Hw. assert (log_writable E w2) as Hw2 by (by apply writable_same).
    destruct (writeLog_ok E (title +:+ " failed: " +:+ message e) ERROR w2 Hw2)
      as (w' & -> & _ & Ht & Hc & _).
    exists w'. split; [done|]. rewrite Ht, Hc, Hlen. split; [|done].
    unfold w2, shown, indented. cbn [trace]. by rewrite <- !app_assoc.
  - intros Hnw. assert (¬ log_writable E w2) as Hnw2.
    { intros [Hs Hro]. apply Hnw. by split. }
    assert ({| listing := listing w1; content := content w1; trace := trace w1 ++ shown |}
            = w2) as ->.
    { unfold w2, shown, indented. by rewrite <- app_assoc. }
    change (writeLog E (title +:+ " failed: " +:+ message e) ERROR w2)
      with (fs_appendFile E (logFile E)
              (logEntry E (toISOString (date_at E (length (trace w2)))) ERROR
                 (title +:+ " failed: " +:+ message e)) w2).
    unfold entry. rewrite <- Hlen.
    rewrite (append_log_fail_error E _ w2 Hnw2).
    eexists _, _. split; [reflexivity|]. split; [reflexivity|].
    cbn [message trace content listing]. split; [reflexivity|]. split; [|done].
    unfold w2, shown, indented. cbn [trace]. by rewrite <- !app_assoc.
Qed.

Lemma runTask_failure_witness :
  (∃ w', runTask (Scenario.machine true ∅ ∅ ∅ Scenario.all_pass) "Checking DISM Health"
           (throw {| message := "first" +:+ nl +:+ "second" |}) Scenario.disk
         = (Ok false, w') ∧
         trace w' =
           [SpinnerStart "Checking DISM Health";
            SpinnerFail (Chalk Red "Checking DISM Health");
            ConsoleError (Chalk Red ("  first" +:+ nl +:+ "  second"));
            FsCall OpAppend Scenario.log_path
              ("2024-03-07T09:05:01.042Z [ERROR] Checking DISM Health failed: first"
               +:+ nl +:+ "second" +:+ crlf) true])
  ∧
  (∃ w', runTask (Scenario.machine true {[Scenario.log_path]} ∅ ∅ Scenario.all_pass)
           "Checking DISM Health"
           (throw {| message := "first" +:+ nl +:+ "second" |}) Scenario.disk
         = (Throw {| message := "EPERM: operation not permitted, open "
                                +:+ "'C:\Temp\SystemMaintenance-2024-03-07T09-05-01.042Z.log'" |},
            w') ∧ content w' = ∅).
Proof.
  split.
  - destruct (runTask_failure (Scenario.machine true ∅ ∅ ∅ Scenario.all_pass)
                "Checking DISM Health" (throw {| message := "first" +:+ nl +:+ "second" |})
                Scenario.disk (after_start "Checking DISM Health" Scenario.disk)
                {| message := "first" +:+ nl +:+ "second" |} eq_refl)
      as (_ & Hok & _).
    destruct Hok as (w' & Hrun & Ht & _); [unfold log_writable; compute_done|].
    exists w'. split; [exact Hrun|]. rewrite Ht. reflexivity.
  - destruct (runTask_failure
                (Scenario.machine true {[Scenario.log_path]} ∅ ∅ Scenario.all_pass)
                "Checking DISM Health" (throw {| message := "first" +:+ nl +:+ "second" |})
                Scenario.disk (after_start "Checking DISM Health" Scenario.disk)
                {| message := "first" +:+ nl +:+ "second" |} eq_refl)
      as (_ & _ & Hfail).
    destruct Hfail as (e' & w' & _ & Hrun & Hmsg & _ & Hc);
      [unfold log_writable; compute_done|].
    exists w'. split; [|exact Hc]. rewrite Hrun. destruct e' as [m]. cbn [message] in Hmsg.
    rewrite Hmsg. reflexivity.
Defined.

(** C1, as the spec words it, fails: with a write-protected log file the
    failing task makes [runTask] reject instead of returning [false], and no
    ERROR entry is appended. *)
Lemma runTask_rejects_when_log_fails :
  let r := runTask (Scenario.machine true {[Scenario.log_path]} ∅ ∅ Scenario.all_pass)
             "Checking DISM Health" (throw {| message := "boom" |}) Scenario.disk in
  r.1 = Throw {| message := "EPERM: operation not permitted, open "
                            +:+ "'C:\Temp\SystemMaintenance-2024-03-07T09-05-01.042Z.log'" |}
  ∧ r.1 ≠ Ok false
  ∧ appended Scenario.log_path (trace r.2) = [].
Proof. vm_compute. done. Qed.

(** The success path of [runTask], in general: the spinner succeeds with the
    title, followed by the result message when there is a non-empty one, and
    [true] is returned; nothing else happens — [writeLog] is not called. *)
Lemma runTask_success (E : Env) (title : string) (task : M (option string))
    (w w1 : World) (result : option string) :
  task (after_start title w) = (Ok result, w1) →
  runTask E title task w =
    (Ok true,
     {| listing := listing w1; content := content w1;
        trace := trace w1 ++
          [SpinnerSucceed (Chalk Green
             match result with
             | Some m => if truthy m then title +:+ " - " +:+ m else title
             | None => title
             end)] |}).
Proof.
  intros Htask. unfold runTask, try_catch. unfold bind at 1. unfold emit at 1.
  fold (after_start title w). unfold bind at 1. unfold bind at 1. rewrite Htask.
  destruct result as [m|]; [destruct (truthy m)|]; reflexivity.
Qed.

(** C7 at the failing input: an operation that completes normally gets its
    success reported and [true] returned, and no log entry is written. *)
Lemma runTask_success_writes_no_log :
  let E := Scenario.machine true ∅ ∅ ∅ Scenario.all_pass in
  let r := runTask E "Checking DISM Health"
             (runCommand E "Dism.exe" ["/Online"; "/Cleanup-Image"; "/CheckHealth"] >>
              ret None) Scenario.disk in
  r.1 = Ok true
  ∧ trace r.2 = [SpinnerStart "Checking DISM Health";
                 Spawn "Dism.exe" ["/Online"; "/Cleanup-Image"; "/CheckHealth"];
                 SpinnerSucceed (Chalk Green "Checking DISM Health")]
  ∧ appended (logFile E) (trace r.2) = []
  ∧ content r.2 = ∅.
Proof. vm_compute. done. Qed.

(** ** The format of a log entry *)

(** Splitting at a two-character separator whose first character the left
    part lacks. *)
Lemma split_first_pair c1 c2 l r :
  has_char c1 l = false →
  split_first (String c1 (String c2 "")) (l +:+ String c1 (String c2 r)) = Some (l, r).
Proof.
  induction l as [|a l IH]; intros Hl.
  - change ("" +:+ String c1 (String c2 r)) with (String c1 (String c2 r)).
    unfold split_first. by rewrite !prefix_cons_eq, prefix_nil.
  - simpl in Hl. apply orb_false_elim in Hl as [Ha Hl]. apply eqb_false_ne in Ha.
    rewrite append_cons. unfold split_first; fold split_first.
    rewrite prefix_cons_ne by done. by rewrite (IH Hl).
Qed.

Lemma level_text_no_bracket level : has_char "]" (level_text level) = false.
Proof. by destruct level. Qed.

Lemma level_text_no_LF level : has_char LF (level_text level) = false.
Proof. by destruct level. Qed.

Lemma level_of_level_text level : level_of_text (level_text level) = Some level.
Proof. by destruct level. Qed.

(** Reading back a line of the written shape recovers its level and
    everything after the bracket, whatever the message holds. *)
Lemma parseLogLine_written d level text :
  parseLogLine (toISOString d +:+ " [" +:+ level_text level +:+ "] " +:+ text)
  = Some (level, text).
Proof.
  unfold parseLogLine.
  change (toISOString d +:+ " [" +:+ level_text level +:+ "] " +:+ text)
    with (toISOString d +:+ String " " (String "[" (level_text level +:+ "] " +:+ text))).
  rewrite split_first_char by apply toISOString_no_space.
  change (level_text level +:+ "] " +:+ text)
    with (level_text level +:+ String "]" (String " " text)).
  rewrite split_first_pair by apply level_text_no_bracket.
  by rewrite level_of_level_text.
Qed.

Lemma entry_level_written (E : Env) d level msg :
  entry_level (logEntry E (toISOString d) level msg) = Some level.
Proof.
  unfold entry_level, logEntry. by rewrite parseLogLine_written.
Qed.

(** C8, as the code has it.  An entry is the ISO timestamp, the bracketed
    level, the message and the platform line terminator.  When the message
    holds no line feed, the entry is exactly one line — its only line feed is
    the one of the terminator that ends it — and reading that line back
    recovers the level and the message. *)
Theorem logEntry_round_trip (E : Env) (d : Date) (level : Level) (msg rest : string) :
  EOL E = nl ∨ EOL E = crlf →
  has_char LF msg = false →
  let line := toISOString d +:+ " [" +:+ level_text level +:+ "] " +:+ msg in
  logEntry E (toISOString d) level msg = line +:+ EOL E ∧
  has_char LF line = false ∧
  length (lines (logEntry E (toISOString d) level msg)) = 2 ∧
  split_first (EOL E) (logEntry E (toISOString d) level msg +:+ rest) = Some (line, rest) ∧
  readLogLine E (logEntry E (toISOString d) level msg +:+ rest) = Some ((level, msg), rest).
Proof.
  intros Heol Hmsg line.
  assert (logEntry E (toISOString d) level msg = line +:+ EOL E) as Hentry.
  { unfold logEntry, line. by rewrite !append_assoc. }
  assert (has_char LF line = false) as Hline.
  { unfold line. rewrite !has_char_app.
    by rewrite toISOString_no_LF, level_text_no_LF, Hmsg. }
  assert (split_first (EOL E) (logEntry E (toISOString d) level msg +:+ rest)
          = Some (line, rest)) as Hsplit.
  { rewrite Hentry, append_assoc. by apply split_first_eol. }
  split; [done|]. split; [done|]. split.
  { rewrite Hentry. destruct Heol as [-> | ->].
    - rewrite <- (append_nil_r (line +:+ nl)), append_assoc.
      by rewrite lines_app_nl.
    - change crlf with (String CR "" +:+ nl +:+ "").
      rewrite <- append_assoc. rewrite lines_app_nl; [done|].
      rewrite has_char_app, Hline. done. }
  split; [done|].
  unfold readLogLine. rewrite Hsplit. unfold line. by rewrite parseLogLine_written.
Qed.

Lemma logEntry_round_trip_witness :
  readLogLine (Scenario.machine true ∅ ∅ ∅ Scenario.all_pass)
    (logEntry (Scenario.machine true ∅ ∅ ∅ Scenario.all_pass)
       (toISOString Scenario.boot) WARN "Could not delete C:\Temp\busy.tmp: EPERM"
     +:+ "next")
  = Some ((WARN, "Could not delete C:\Temp\busy.tmp: EPERM"), "next").
Proof.
  apply (logEntry_round_trip (Scenario.machine true ∅ ∅ ∅ Scenario.all_pass)
           Scenario.boot WARN "Could not delete C:\Temp\busy.tmp: EPERM" "next").
  - right. reflexivity.
  - reflexivity.
Defined.

(** C8, as the spec words it, fails on an entry the tool does write: the
    ERROR entry of a failed command carries the line feed that [runCommand]
    puts before the captured stderr, so the entry spans several lines and
    reading its first line back does not give the message that was logged. *)
Lemma failed_command_entry_spans_lines :
  let E := Scenario.machine true ∅ ∅ ∅ Scenario.only_admin in
  let msg := "Checking DISM Health failed: Command failed with exit code 1"
             +:+ nl +:+ "Error: 87" +:+ crlf in
  let entry := logEntry E (toISOString Scenario.boot) ERROR msg in
  appended (logFile E) (trace (runDismCheck E Scenario.disk).2) = [entry]
  ∧ length (lines entry) = 4
  ∧ readLogLine E entry
    = Some ((ERROR, "Checking DISM Health failed: Command failed with exit code 1"
                    +:+ nl +:+ "Error: 87"), crlf)
  ∧ readLogLine E entry ≠ Some ((ERROR, msg), "").
Proof. vm_compute. done. Qed.

(** ** Composing quiet computations *)

Section Steps.

Variable E : Env.

Abbreviation writable := (log_writable E).


Lemma quiet_ret {A} (a : A) : quiet E (ret a).
Proof.
  intros w Hw. exists (Ok a), w, []. rewrite app_nil_r. done_spec.
Qed.

Lemma quiet_throw {A} (e : Error) : quiet E (@throw A e).
Proof.
  intros w Hw. exists (Throw e), w, []. rewrite app_nil_r. done_spec.
Qed.

Lemma quiet_lift {A} (x : Error + A) : quiet E (lift x).
Proof. destruct x; [apply quiet_throw | apply quiet_ret]. Qed.

Lemma quiet_emit ev : phase ev = None → quiet E (emit ev).
Proof.
  intros Hev w Hw. eexists (Ok tt), _, [ev]. unfold emit.
  split; [done|]. split; [done|]. split; [by apply writable_same|].
  split; [done|]. unfold phases. simpl. by rewrite Hev.
Qed.

Lemma quiet_bind {A B} (m : M A) (k : A → M B) :
  quiet E m → (∀ a, quiet E (k a)) → quiet E (bind m k).
Proof.
  intros Hm Hk w Hw.
  destruct (Hm w Hw) as (r & w1 & evs1 & Hr & Hne & Hw1 & Ht1 & Hp1).
  unfold bind. rewrite Hr. destruct r as [a|e|c].
  - destruct (Hk a w1 Hw1) as (r2 & w2 & evs2 & Hr2 & Hne2 & Hw2 & Ht2 & Hp2).
    exists r2, w2, (evs1 ++ evs2). rewrite Hr2, Ht2, Ht1, app_assoc, phases_app, Hp1, Hp2.
    done_spec.
  - exists (Throw e), w1, evs1. done_spec.
  - by destruct (Hne c).
Qed.

Lemma quiet_try_catch {A} (m : M A) (h : Error → M A) :
  quiet E m → (∀ e, quiet E (h e)) → quiet E (try_catch m h).
Proof.
  intros Hm Hh w Hw.
  destruct (Hm w Hw) as (r & w1 & evs1 & Hr & Hne & Hw1 & Ht1 & Hp1).
  unfold try_catch. rewrite Hr. destruct r as [a|e|c].
  - exists (Ok a), w1, evs1. done_spec.
  - destruct (Hh e w1 Hw1) as (r2 & w2 & evs2 & Hr2 & Hne2 & Hw2 & Ht2 & Hp2).
    exists r2, w2, (evs1 ++ evs2). rewrite Hr2, Ht2, Ht1, app_assoc, phases_app, Hp1, Hp2.
    done_spec.
  - by destruct (Hne c).
Qed.

Lemma quiet_try_finally {A} (m : M A) (f : M unit) :
  quiet E m → quiet E f → quiet E (try_finally m f).
Proof.
  intros Hm Hf w Hw.
  destruct (Hm w Hw) as (r & w1 & evs1 & Hr & Hne & Hw1 & Ht1 & Hp1).
  destruct (Hf w1 Hw1) as (r2 & w2 & evs2 & Hr2 & Hne2 & Hw2 & Ht2 & Hp2).
  unfold try_finally. rewrite Hr.
  destruct r as [a|e|c]; [| |by destruct (Hne c)]; rewrite Hr2;
    (destruct r2 as [[]|e2|c2]; [| |by destruct (Hne2 c2)]);
    eexists _, w2, (evs1 ++ evs2);
    rewrite Ht2, Ht1, app_assoc, phases_app, Hp1, Hp2; done_spec.
Qed.

Lemma quiet_for_of {A} (xs : list A) (body : A → M unit) :
  (∀ x, quiet E (body x)) → quiet E (for_of xs body).
Proof.
  intros Hbody. induction xs as [|x xs IH]; simpl.
  - apply quiet_ret.
  - apply quiet_bind; [apply Hbody | intros _; apply IH].
Qed.

Lemma quiet_new_Date : quiet E (new_Date E).
Proof.
  intros w Hw. eexists (Ok _), w, []. unfold new_Date. rewrite app_nil_r. done_spec.
Qed.

Lemma quiet_Date_now : quiet E (Date_now E).
Proof.
  unfold Date_now. apply quiet_bind; [apply quiet_new_Date | intros d; apply quiet_ret].
Qed.

Lemma quiet_fs_fail {A} op p data e : quiet E (@fs_fail A op p data e).
Proof.
  intros w Hw. eexists (Throw e), _, [_]. unfold fs_fail.
  split; [done|]. split; [done|]. split; [by apply writable_same|]. by split.
Qed.

Lemma quiet_fs_store op p data f : quiet E (fs_store E op p data f).
Proof.
  intros w Hw. unfold fs_store.
  destruct (listing w !! p.1) as [names|]; [|by apply quiet_fs_fail].
  destruct (decide (p ∈ readonly E)); [by apply quiet_fs_fail|].
  eexists (Ok tt), _, [_].
  split; [done|]. split; [done|]. split; [by apply writable_insert|]. by split.
Qed.

Lemma quiet_fs_writeFile p data : quiet E (fs_writeFile E p data).
Proof. apply quiet_fs_store. Qed.

Lemma quiet_fs_remove op p : quiet E (fs_remove op p).
Proof.
  intros w Hw. eexists (Ok tt), _, [_]. unfold fs_remove.
  split; [done|]. split; [done|]. split; [by apply writable_alter|]. by split.
Qed.

Lemma quiet_fs_rm p : quiet E (fs_rm E p).
Proof.
  intros w Hw. unfold fs_rm.
  destruct (decide (p ∈ locked E)); [by apply quiet_fs_fail | by apply quiet_fs_remove].
Qed.

Lemma quiet_fs_unlink p : quiet E (fs_unlink E p).
Proof.
  intros w Hw. unfold fs_unlink.
  destruct (decide (p.2 ∈ _)); [|by apply quiet_fs_fail].
  destruct (decide (p ∈ locked E)); [by apply quiet_fs_fail | by apply quiet_fs_remove].
Qed.

Lemma quiet_fs_readdir d : quiet E (fs_readdir E d).
Proof.
  intros w Hw. unfold fs_readdir.
  destruct (listing w !! d) as [names|]; [|by apply quiet_fs_fail].
  destruct (decide (d ∈ noread E)); [by apply quiet_fs_fail|].
  eexists (Ok names), _, [_].
  split; [done|]. split; [done|]. split; [by apply writable_same|]. by split.
Qed.

Lemma quiet_runCommand command args : quiet E (runCommand E command args).
Proof.
  intros w Hw. unfold runCommand.
  destruct (ending _) as [code|err]; [destruct (decide _)|];
    eexists _, _, [_]; (split; [done|]); (split; [done|]);
    (split; [by apply writable_same|]); by split.
Qed.

Lemma quiet_writeLog msg level : quiet E (writeLog E msg level).
Proof.
  intros w Hw. destruct (writeLog_ok E msg level w Hw) as (w' & Hr & Hw' & Ht & _).
  eexists (Ok tt), w', [_]. done_spec.
Qed.

(** A [writeLog] that nobody awaits still succeeds while the log is
    writable, so its rejection never goes unhandled. *)
Lemma quiet_detached_writeLog msg level : quiet E (detached (writeLog E msg level)).
Proof.
  intros w Hw. destruct (writeLog_ok E msg level w Hw) as (w' & Hr & Hw' & Ht & _).
  eexists (Ok tt), w', [_]. unfold detached. rewrite Hr. done_spec.
Qed.

Lemma quiet_if {A} (b : bool) (m1 m2 : M A) :
  quiet E m1 → quiet E m2 → quiet E (if b then m1 else m2).
Proof. by destruct b. Qed.

End Steps.

#[export] Hint Resolve quiet_ret quiet_throw quiet_lift quiet_bind quiet_try_catch
  quiet_try_finally quiet_for_of quiet_new_Date quiet_Date_now quiet_fs_writeFile
  quiet_fs_rm quiet_fs_unlink quiet_fs_readdir quiet_runCommand quiet_writeLog
  quiet_detached_writeLog quiet_if : quiet.
#[export] Hint Extern 1 (quiet _ (emit _)) => (apply quiet_emit; reflexivity) : quiet.

(** ** The operations always return *)

Section Operations.

Variable E : Env.

Lemma guarded_bind {A} (m : M A) (k : A → M bool) :
  quiet E m → (∀ a, guarded E (k a)) → guarded E (bind m k).
Proof.
  intros Hm Hk w Hw.
  destruct (Hm w Hw) as (r & w1 & evs1 & Hr & Hne & Hw1 & Ht1 & Hp1).
  unfold bind. rewrite Hr. destruct r as [a|e|c].
  - destruct (Hk a w1 Hw1) as (r2 & w2 & evs2 & Hr2 & Hw2 & Ht2 & Hp2).
    exists r2, w2, (evs1 ++ evs2).
    rewrite Hr2, Ht2, Ht1, app_assoc, phases_app, Hp1. done_spec.
  - exists (Throw e), w1, evs1. split; [done|]. split; [done|]. split; [done|].
    left. eauto.
  - by destruct (Hne c).
Qed.

(** The end of a guarded block: report success, then steps that cannot
    fail while the log is writable. *)
Lemma guarded_succeed text (rest : M unit) :
  (∀ w, log_writable E w →
     ∃ w' evs, rest w = (Ok tt, w') ∧ log_writable E w' ∧
               trace w' = trace w ++ evs ∧ phases evs = []) →
  guarded E (emit (SpinnerSucceed text) >> rest >> ret true).
Proof.
  intros Hrest w Hw. unfold bind at 1. unfold emit at 1.
  set (w1 := {| listing := listing w; content := content w;
                trace := trace w ++ [SpinnerSucceed text] |}).
  assert (log_writable E w1) as Hw1 by (by apply writable_same).
  destruct (Hrest w1 Hw1) as (w2 & evs & Hr & Hw2 & Ht & Hp).
  unfold bind, ret. rewrite Hr.
  exists (Ok true), w2, ([SpinnerSucceed text] ++ evs).
  split; [done|]. split; [done|]. split.
  { rewrite Ht. unfold w1. cbn [trace]. by rewrite app_assoc. }
  right. split; [done|]. rewrite phases_app, Hp. done.
Qed.

Lemma guarded_succeed_ret text : guarded E (emit (SpinnerSucceed text) >> ret true).
Proof.
  intros w Hw. unfold bind, emit, ret.
  eexists (Ok true), _, [SpinnerSucceed text].
  split; [done|]. split; [by apply writable_same|]. split; [done|].
  right. done.
Qed.

(** A spinner around a guarded block whose handler reports the failure,
    logs it and returns [false]. *)
Lemma wrapper_announces title body (failed shown : Error → Text) (logged_as : Error → string) :
  guarded E body →
  announces E title
    (emit (SpinnerStart title) >>
     try_catch body
       (λ error,
        emit (SpinnerFail (failed error)) >>
        emit (ConsoleError (shown error)) >>
        writeLog E (logged_as error) ERROR >>
        ret false)).
Proof.
  intros Hbody w Hw. unfold bind at 1. unfold emit at 1.
  change {| listing := listing w; content := content w;
            trace := trace w ++ [SpinnerStart title] |} with (after_start title w).
  assert (log_writable E (after_start title w)) as Hw0 by (by apply writable_same).
  destruct (Hbody _ Hw0) as (r & w1 & evs & Hr & Hw1 & Ht & Hcases).
  unfold try_catch. rewrite Hr.
  destruct Hcases as [(e & -> & Hp) | [-> Hp]].
  - unfold bind, emit. cbn [fst snd listing content trace].
    set (w2 := {| listing := listing w1; content := content w1; trace := _ |}).
    assert (log_writable E w2) as Hw2 by (by apply writable_same).
    destruct (writeLog_ok E (logged_as e) ERROR w2 Hw2) as (w3 & -> & Hw3 & Ht3 & _).
    exists false, w3, ([SpinnerStart title] ++ evs ++
                       [SpinnerFail (failed e); ConsoleError (shown e)] ++
                       [FsCall OpAppend (logFile E)
                          (logEntry E (toISOString (date_at E (length (trace w2))))
                             ERROR (logged_as e)) true]).
    split; [done|]. split; [done|]. split.
    + rewrite Ht3. unfold w2. cbn [trace]. rewrite Ht. unfold after_start. cbn [trace].
      by rewrite <- !app_assoc.
    + rewrite !phases_app, Hp. done.
  - exists true, w1, ([SpinnerStart title] ++ evs).
    split; [done|]. split; [done|]. split.
    + rewrite Ht. unfold after_start. cbn [trace]. by rewrite <- app_assoc.
    + rewrite phases_app, Hp. done.
Qed.

Lemma runTask_announces title task :
  quiet E task → announces E title (runTask E title task).
Proof.
  intros Htask. unfold runTask. apply wrapper_announces.
  apply guarded_bind; [done|].
  intros [m|]; [destruct (truthy m)|]; apply guarded_succeed_ret.
Qed.

Lemma quiet_sweep tempPath : quiet E (sweep E tempPath).
Proof. unfold sweep. eauto 20 with quiet. Qed.

Lemma runWindowsUpdateCheck_announces :
  announces E "Checking for Windows Updates" (runWindowsUpdateCheck E).
Proof. apply runTask_announces. eauto 20 with quiet. Qed.

Lemma runWingetUpdates_announces :
  announces E "Updating Winget Software" (runWingetUpdates E).
Proof. apply runTask_announces. eauto 20 with quiet. Qed.

Lemma runChocoUpdates_announces :
  announces E "Updating Chocolatey Software" (runChocoUpdates E).
Proof. apply runTask_announces. eauto 20 with quiet. Qed.

Lemma runDismCheck_announces :
  announces E "Checking DISM Health" (runDismCheck E).
Proof. apply runTask_announces. eauto 20 with quiet. Qed.

Lemma runSfcScan_announces :
  announces E "Running System File Checker (sfc /scannow)" (runSfcScan E).
Proof. apply runTask_announces. eauto 20 with quiet. Qed.

Lemma runTempFileCleanup_announces :
  announces E "Cleaning Temporary Files" (runTempFileCleanup E).
Proof.
  apply runTask_announces.
  apply quiet_bind; [|intros; apply quiet_ret].
  apply quiet_for_of. apply quiet_sweep.
Qed.

Lemma runDiskOptimization_announces :
  announces E "Optimizing System Drive (C:)" (runDiskOptimization E).
Proof. apply runTask_announces. eauto 20 with quiet. Qed.

Lemma runHardwareCheck_announces :
  announces E "Gathering Hardware & OS Information" (runHardwareCheck E).
Proof.
  unfold runHardwareCheck. apply wrapper_announces.
  apply guarded_bind; [apply quiet_Date_now|]. intros now.
  apply guarded_bind; [apply quiet_fs_writeFile|]. intros _.
  apply guarded_bind; [apply quiet_runCommand|]. intros out.
  apply guarded_bind; [apply quiet_lift|]. intros systemInfo.
  apply guarded_bind; [eauto with quiet|]. intros _.
  apply guarded_bind; [apply quiet_lift|]. intros output.
  apply (guarded_succeed _
           (emit (ConsoleLog output) >>
            writeLog E "Gathered Hardware & OS Information" INFO)).
  intros w Hw. unfold bind, emit.
  set (w1 := {| listing := listing w; content := content w; trace := _ |}).
  assert (log_writable E w1) as Hw1 by (by apply writable_same).
  destruct (writeLog_ok E "Gathered Hardware & OS Information" INFO w1 Hw1)
    as (w2 & -> & Hw2 & Ht & _).
  eexists w2, ([ConsoleLog output] ++ [_]).
  split; [done|]. split; [done|]. split.
  - rewrite Ht. unfold w1. cbn [trace]. by rewrite <- app_assoc.
  - done.
Qed.

End Operations.

(** ** The orchestrator *)

Section Orchestrator.

Variable E : Env.

(** Every key of the catalog has the title its operation announces, and
    no other key has one. *)
Lemma catalog_titles key :
  match assoc key (tasks E), title_of key with
  | Some entry, Some title => announces E title (task entry)
  | None, None => True
  | _, _ => False
  end.
Proof.
  unfold tasks, title_of. cbn [assoc].
  repeat (destruct (decide (_ = key)) as [_|_];
          [ cbn [task];
            first [ apply runHardwareCheck_announces
                  | apply runWindowsUpdateCheck_announces
                  | apply runWingetUpdates_announces
                  | apply runChocoUpdates_announces
                  | apply runDismCheck_announces
                  | apply runSfcScan_announces
                  | apply runTempFileCleanup_announces
                  | apply runDiskOptimization_announces ] | ]).
  done.
Qed.

Lemma main_unfold : main E =
  (emit (ConsoleLog (Chalk BoldCyan ("=== Windows System Maintenance Tool (Node.js) ===" +:+ nl))) >>
   writeLog E "Script started." INFO >>
   checkAdmin E >>
   after_checkAdmin E).
Proof. reflexivity. Qed.

(** A key of the catalog has its entry. *)
Lemma assoc_keys (catalog : list (string * Entry)) k :
  k ∈ keys catalog → is_Some (assoc k catalog).
Proof.
  induction catalog as [|[k' entry] catalog IH]; cbn [keys map assoc fst].
  - by intros ?%elem_of_nil.
  - destruct (decide (k' = k)) as [->|Hne]; [eauto|].
    intros [?|Hin]%elem_of_cons; [done|]. by apply IH.
Qed.

(** The loop over selected catalog keys, while the log is writable: every
    selected operation runs, one after the other, whatever each returns. *)
Lemma run_selected_spec ks :
  Forall (λ k, k ∈ keys (tasks E)) ks →
  ∀ w,
  log_writable E w →
  ∃ bs w' evs,
    run_selected (tasks E) ks w = (Ok tt, w') ∧
    log_writable E w' ∧
    trace w' = trace w ++ evs ∧
    length bs = length (omap title_of ks) ∧
    phases evs = concat (map report (zip (omap title_of ks) bs)).
Proof.
  induction 1 as [|k ks Hk _ IH]; intros w Hw.
  - exists [], w, []. rewrite app_nil_r. done_spec.
  - unfold run_selected. cbn [for_of]. fold (run_selected (tasks E) ks).
    pose proof (catalog_titles k) as Htitle. cbn [omap list_omap].
    destruct (assoc_keys _ _ Hk) as [entry Hentry]. rewrite Hentry in Htitle |- *.
    destruct (title_of k) as [title|]; [|done].
    destruct (Htitle w Hw) as (b & w1 & evs1 & Hr & Hw1 & Ht1 & Hp1).
    destruct (IH w1 Hw1) as (bs & w2 & evs2 & Hr2 & Hw2 & Ht2 & Hlen & Hp2).
    exists (b :: bs), w2, (evs1 ++ evs2).
    unfold bind at 1. unfold bind at 1. rewrite Hr. unfold ret at 1. rewrite Hr2.
    split; [done|]. split; [done|]. split; [by rewrite Ht2, Ht1, app_assoc|].
    split; [simpl; by rewrite Hlen|].
    rewrite phases_app, Hp1, Hp2. done.
Qed.

(** What [main] sets out to run are keys of the catalog. *)
Lemma chosen_catalog_keys : Forall (λ k, k ∈ keys (tasks E)) (chosen E).
Proof.
  apply Forall_forall. intros k. unfold chosen. destruct (silent E); [done|].
  intros (c & -> & Hc)%list_elem_of_fmap. apply list_elem_of_filter in Hc as [_ Hc].
  assert (keys (tasks E) = map (λ c : string * string * bool, c.1.2) (choices (tasks E)))
    as -> by reflexivity.
  by apply (list_elem_of_fmap_2 (λ c : string * string * bool, c.1.2)).
Qed.

(** The privilege check when the probe exits with status 0. *)
Lemma checkAdmin_pass w :
  log_writable E w →
  ending (child E (length (trace w) + 1) "net" ["session"]) = Closed (Some 0%Z) →
  ∃ w' evs,
    checkAdmin E w = (Ok tt, w') ∧ log_writable E w' ∧
    trace w' = trace w ++ evs ∧
    phases evs = report ("Checking for Administrator privileges", true) ∧
    spawned evs = [("net", ["session"])].
Proof.
  intros Hw Hend. unfold checkAdmin, bind, try_catch, emit, runCommand.
  cbn [fst snd listing content trace].
  rewrite length_app. cbn [length]. rewrite Hend.
  destruct (decide (Some 0%Z = Some 0%Z)); [|done].
  match goal with
  | |- context [writeLog E "Running as Administrator: OK" INFO ?w0] => set (w1 := w0)
  end.
  assert (log_writable E w1) as Hw1 by (by apply writable_same).
  destruct (writeLog_ok E "Running as Administrator: OK" INFO w1 Hw1)
    as (w2 & -> & Hw2 & Ht & _).
  eexists w2, _. split; [done|]. split; [done|]. split.
  - rewrite Ht. unfold w1. cbn [trace]. rewrite <- !app_assoc. reflexivity.
  - done.
Qed.

(** The privilege check when the probe does not exit with status 0: the
    failure is reported and logged, and the process exits with status 1. *)
Lemma checkAdmin_fail w :
  log_writable E w →
  ending (child E (length (trace w) + 1) "net" ["session"]) ≠ Closed (Some 0%Z) →
  ∃ w' evs d,
    checkAdmin E w = (Exit 1, w') ∧
    trace w' = trace w ++ evs ∧
    phases evs = report ("Checking for Administrator privileges", false) ∧
    spawned evs = [("net", ["session"])] ∧
    appended (logFile E) evs =
      [logEntry E (toISOString d) ERROR "ERROR: Script not running as Administrator."].
Proof.
  intros Hw Hend. unfold checkAdmin, bind, try_catch, emit, runCommand, process_exit.
  cbn [fst snd listing content trace].
  rewrite length_app. cbn [length].
  destruct (ending _) as [code|err] eqn:Hc.
  - destruct (decide (code = Some 0%Z)) as [->|Hne]; [done|].
    cbn [fst snd listing content trace].
    match goal with
    | |- context [writeLog E _ ERROR ?w0] => set (w1 := w0)
    end.
    assert (log_writable E w1) as Hw1 by (by apply writable_same).
    destruct (writeLog_ok E "ERROR: Script not running as Administrator." ERROR w1 Hw1)
      as (w2 & -> & Hw2 & Ht & _).
    eexists w2, _, _. split; [done|]. split.
    { rewrite Ht. unfold w1. cbn [trace]. rewrite <- !app_assoc. reflexivity. }
    split; [done|]. split; [done|].
    cbn. destruct (decide (logFile E = logFile E)); done.
  - cbn [fst snd listing content trace].
    match goal with
    | |- context [writeLog E _ ERROR ?w0] => set (w1 := w0)
    end.
    assert (log_writable E w1) as Hw1 by (by apply writable_same).
    destruct (writeLog_ok E "ERROR: Script not running as Administrator." ERROR w1 Hw1)
      as (w2 & -> & Hw2 & Ht & _).
    eexists w2, _, _. split; [done|]. split.
    { rewrite Ht. unfold w1. cbn [trace]. rewrite <- !app_assoc. reflexivity. }
    split; [done|]. split; [done|].
    cbn. destruct (decide (logFile E = logFile E)); done.
Qed.

(** What the prompt answers. *)
Lemma selection_spec w :
  log_writable E w →
  ∃ w' evs,
    (if silent E then ret (keys (tasks E)) else prompt_checkbox E (choices (tasks E))) w
      = (Ok (chosen E), w') ∧
    log_writable E w' ∧ trace w' = trace w ++ evs ∧ phases evs = [] ∧
    (silent E = false → evs = [Prompt (choices (tasks E))]).
Proof.
  intros Hw. unfold chosen. destruct (silent E).
  - exists w, []. rewrite app_nil_r. done_spec.
  - eexists _, [_]. unfold prompt_checkbox, bind, emit, ret.
    split; [done|]. split; [by apply writable_same|]. done.
Qed.

(** After the privilege check, while the log is writable, [main] runs to its end:
    every chosen operation is run, in the order chosen. *)
Lemma after_checkAdmin_spec w :
  log_writable E w →
  ∃ bs w' evs,
    after_checkAdmin E w = (Ok tt, w') ∧
    trace w' = trace w ++ evs ∧
    length bs = length (omap title_of (chosen E)) ∧
    phases evs = concat (map report (zip (omap title_of (chosen E)) bs)) ∧
    (silent E = false → Prompt (choices (tasks E)) ∈ evs).
Proof.
  intros Hw. unfold after_checkAdmin.
  destruct (selection_spec w Hw) as (w1 & evs1 & Hr1 & Hw1 & Ht1 & Hp1 & Hprompt).
  unfold bind at 1. rewrite Hr1.
  destruct (chosen E) as [|k ks] eqn:Hch.
  - eexists [], _, (evs1 ++ [_]). unfold emit.
    split; [done|]. cbn [trace]. split; [by rewrite Ht1, app_assoc|].
    split; [done|]. split; [by rewrite phases_app, Hp1|].
    intros Hs. rewrite (Hprompt Hs). set_solver.
  - unfold bind at 1. unfold emit at 1.
    set (w2 := {| listing := listing w1; content := content w1; trace := _ |}).
    assert (log_writable E w2) as Hw2 by (by apply writable_same).
    pose proof chosen_catalog_keys as Hkeys. rewrite Hch in Hkeys.
    destruct (run_selected_spec (k :: ks) Hkeys w2 Hw2)
      as (bs & w3 & evs3 & Hr3 & Hw3 & Ht3 & Hlen & Hp3).
    unfold bind at 1. rewrite Hr3. unfold bind, emit. cbn [fst snd listing content trace].
    eexists bs, _, (evs1 ++ [ConsoleLog (Plain "")] ++ evs3 ++ [_; _]).
    split; [done|]. split.
    { rewrite Ht3. unfold w2. cbn [trace]. rewrite Ht1. by rewrite <- !app_assoc. }
    split; [done|]. split.
    { rewrite !phases_app, Hp1, Hp3. cbn. by rewrite app_nil_r. }
    intros Hs. rewrite (Hprompt Hs). set_solver.
Qed.

End Orchestrator.

(** ** What the orchestrator guarantees *)


Lemma ticked_keys (P : string → bool → bool) (catalog : list (string * Entry)) :
  map (λ c : string * string * bool, c.1.2)
    (filter (λ c, P c.1.2 c.2 = true) (choices catalog))
  = map fst (filter (λ kv, P kv.1 (checked kv.2) = true) catalog).
Proof.
  induction catalog as [|[k entry] catalog IH]; [done|].
  cbn [choices map]. rewrite !filter_cons. cbn [fst snd].
  fold (choices catalog).
  destruct (decide (P k (checked entry) = true)); cbn [map fst]; by rewrite IH.
Qed.



(** A key that is no key of the catalog but names an inherited property:
    the loop throws at it, and what follows is not run. *)
Example inherited_key_stops_the_loop :
  run_selected (tasks (Scenario.machine true ∅ ∅ ∅ Scenario.only_admin))
    ["constructor"; "dism"] Scenario.disk
  = (Throw {| message := "tasks[taskKey].task is not a function" |}, Scenario.disk).
Proof. reflexivity. Qed.

(** A run over three catalog keys and an unknown one, evaluated: all three
    operations fail, and all three run. *)
Example failing_operations_do_not_stop_the_loop :
  let r := run_selected (tasks (Scenario.machine true ∅ ∅ ∅ Scenario.only_admin))
             ["dism"; "sfc"; "unknown"; "optimize"] Scenario.disk in
  r.1 = Ok tt ∧
  phases (trace r.2) =
    [inl "Checking DISM Health"; inr false;
     inl "Running System File Checker (sfc /scannow)"; inr false;
     inl "Optimizing System Drive (C:)"; inr false].
Proof. vm_compute. done. Qed.

(** C4, as the code has it.  In silent mode [main] runs every entry of the
    catalog in catalog order, the entry whose default flag is off included;
    in interactive mode it offers the catalog with its default flags as the
    ticks of the prompt and runs exactly the entries the user leaves ticked,
    in catalog order.  The privilege probe must pass and the log be writable. *)
Theorem main_runs_chosen (E : Env) (w : World) :
  log_writable E w →
  (∀ n, ending (child E n "net" ["session"]) = Closed (Some 0%Z)) →
  ∃ (bs : list bool) (w' : World) (evs : list Event),
    main E w = (Ok tt, w') ∧
    trace w' = trace w ++ evs ∧
    length bs = length (omap title_of (chosen E)) ∧
    phases evs = report ("Checking for Administrator privileges", true) ++
                 concat (map report (zip (omap title_of (chosen E)) bs)) ∧
    (silent E = true →
       chosen E = ["hwInfo"; "winUpdate"; "winget"; "choco"; "dism"; "sfc"; "cleanup";
                   "optimize"] ∧
       omap title_of (chosen E) =
         ["Gathering Hardware & OS Information"; "Checking for Windows Updates";
          "Updating Winget Software"; "Updating Chocolatey Software";
          "Checking DISM Health"; "Running System File Checker (sfc /scannow)";
          "Cleaning Temporary Files"; "Optimizing System Drive (C:)"]) ∧
    (silent E = false →
       chosen E = map fst (filter (λ kv, user_checks E kv.1 (checked kv.2) = true) (tasks E)) ∧
       Prompt [("Gather Hardware & OS Information", "hwInfo", true);
               ("Check for Windows Updates", "winUpdate", true);
               ("Update Winget Software", "winget", true);
               ("Update Chocolatey Software", "choco", true);
               ("Check DISM Health", "dism", true);
               ("Run System File Checker (SFC)", "sfc", true);
               ("Clean Temporary Files", "cleanup", true);
               ("Optimize System Drive", "optimize", false)] ∈ evs).
Proof.
  intros Hw Hadmin. rewrite main_unfold.
  unfold bind at 1. unfold emit at 1. fold (greeted w).
  assert (log_writable E (greeted w)) as Hw0 by (by apply writable_same).
  destruct (writeLog_ok E "Script started." INFO (greeted w) Hw0)
    as (w1 & Hr1 & Hw1 & Ht1 & _).
  unfold bind at 1. rewrite Hr1.
  destruct (checkAdmin_pass E w1 Hw1 (Hadmin _)) as (w2 & evs2 & Hr2 & Hw2 & Ht2 & Hp2 & _).
  unfold bind at 1. rewrite Hr2.
  destruct (after_checkAdmin_spec E w2 Hw2) as (bs & w3 & evs3 & Hr3 & Ht3 & Hlen & Hp3 & Hprompt).
  eexists bs, w3, ([_] ++ [_] ++ evs2 ++ evs3).
  split; [done|]. split.
  { rewrite Ht3, Ht2, Ht1. unfold greeted. cbn [trace]. by rewrite <- !app_assoc. }
  split; [done|]. split.
  { rewrite !phases_app, Hp2, Hp3. done. }
  split.
  - intros Hs. unfold chosen. rewrite Hs. done.
  - intros Hs. split.
    + unfold chosen. rewrite Hs. apply ticked_keys.
    + specialize (Hprompt Hs). set_solver.
Qed.

Lemma main_runs_chosen_witness :
  ∃ (bs : list bool) (w' : World) (evs : list Event),
    main (Scenario.machine true ∅ ∅ ∅ Scenario.only_admin) Scenario.disk = (Ok tt, w') ∧
    trace w' = trace Scenario.disk ++ evs ∧
    length bs = length (omap title_of (chosen (Scenario.machine true ∅ ∅ ∅ Scenario.only_admin))) ∧
    phases evs = report ("Checking for Administrator privileges", true) ++
                 concat (map report
                   (zip (omap title_of (chosen (Scenario.machine true ∅ ∅ ∅ Scenario.only_admin)))
                      bs)).
Proof.
  destruct (main_runs_chosen (Scenario.machine true ∅ ∅ ∅ Scenario.only_admin) Scenario.disk)
    as (bs & w' & evs & Hr & Ht & Hlen & Hp & _).
  - unfold log_writable. compute_done.
  - intros n. reflexivity.
  - exists bs, w', evs. split; [exact Hr|]. split; [exact Ht|]. split; [exact Hlen|exact Hp].
Defined.

(** C4, as the spec words it, fails: in silent mode the entry whose default
    flag is off (disk optimization) is run as well. *)
Lemma silent_mode_runs_unchecked_entry :
  let E := Scenario.machine true ∅ ∅ ∅ Scenario.all_pass in
  let r := program E Scenario.disk in
  checked <$> assoc "optimize" (tasks E) = Some false
  ∧ silent E = true
  ∧ r.1 = Ok tt
  ∧ phases (trace r.2) =
      [inl "Checking for Administrator privileges"; inr true;
       inl "Gathering Hardware & OS Information"; inr false;
       inl "Checking for Windows Updates"; inr true;
       inl "Updating Winget Software"; inr true;
       inl "Updating Chocolatey Software"; inr true;
       inl "Checking DISM Health"; inr true;
       inl "Running System File Checker (sfc /scannow)"; inr true;
       inl "Cleaning Temporary Files"; inr true;
       inl "Optimizing System Drive (C:)"; inr true]
  ∧ last (spawned (trace r.2))
    = Some ("powershell.exe", ["-Command"; "Optimize-Volume -DriveLetter C"]).
Proof. vm_compute. done. Qed.

Lemma writeLog_Ok_inv (E : Env) msg level w w' :
  writeLog E msg level w = (Ok tt, w') →
  log_writable E w ∧ log_writable E w' ∧
  trace w' = trace w ++
    [FsCall OpAppend (logFile E)
       (logEntry E (toISOString (date_at E (length (trace w)))) level msg) true].
Proof.
  intros Hrun.
  destruct (decide (is_Some (listing w !! tmpdir E) ∧ logFile E ∉ readonly E)) as [Hw|Hnw].
  - destruct (writeLog_ok E msg level w Hw) as (w'' & Hr & Hw'' & Ht & _).
    rewrite Hr in Hrun. injection Hrun as <-. done.
  - destruct (writeLog_fail E msg level w Hnw) as (e & Hr). congruence.
Qed.

(** C2. The probe decides how the run ends, while the log is writable.
    When [net session] does not exit with status 0, the process ends in
    [checkAdmin] with exit status 1: the only command spawned is the probe,
    the only spinner is the check's, and the log holds the start entry and
    the check's ERROR entry and nothing else — no operation of the catalog
    has run.  When the probe exits with status 0, [main] runs to its end and
    the process ends with status 0, whatever booleans the operations return. *)
Theorem checkAdmin_decides_exit_status (E : Env) (w : World) :
  let probe := ending (child E (length (trace w) + 3) "net" ["session"]) in
  log_writable E w →
  (probe ≠ Closed (Some 0%Z) →
     ∃ w2 evs d1 d2,
       program E w = (Exit 1, w2) ∧
       exit_status (program E w).1 = 1%Z ∧
       trace w2 = trace w ++ evs ∧
       phases evs = report ("Checking for Administrator privileges", false) ∧
       spawned evs = [("net", ["session"])] ∧
       appended (logFile E) evs =
         [logEntry E (toISOString d1) INFO "Script started.";
          logEntry E (toISOString d2) ERROR "ERROR: Script not running as Administrator."]) ∧
  (probe = Closed (Some 0%Z) →
     (main E w).1 = Ok tt ∧
     exit_status (program E w).1 = 0%Z ∧
     ∃ (bs : list bool) (evs : list Event),
       trace (main E w).2 = trace w ++ evs ∧
       length bs = length (omap title_of (chosen E)) ∧
       phases evs = report ("Checking for Administrator privileges", true) ++
                    concat (map report (zip (omap title_of (chosen E)) bs))).
Proof.
  intros probe Hw.
  assert (log_writable E (greeted w)) as Hw0 by (by apply writable_same).
  destruct (writeLog_ok E "Script started." INFO (greeted w) Hw0)
    as (w1 & Hstart & Hw1 & Ht1 & _).
  assert (length (trace w1) + 1 = length (trace w) + 3) as Hlen.
  { rewrite Ht1. unfold greeted. cbn [trace]. rewrite !length_app. simpl. lia. }
  assert (main E w = bind (checkAdmin E) (λ _, after_checkAdmin E) w1) as Hmain.
  { rewrite main_unfold. unfold bind at 1. unfold emit at 1. fold (greeted w).
    unfold bind at 1. by rewrite Hstart. }
  split.
  - intros Hfail. unfold probe in Hfail. rewrite <- Hlen in Hfail.
    destruct (checkAdmin_fail E w1 Hw1 Hfail)
      as (w2 & evs2 & d2 & Hr2 & Ht2 & Hp2 & Hs2 & Ha2).
    assert (program E w = (Exit 1, w2)) as Hprog.
    { unfold program, try_catch. rewrite Hmain. unfold bind. by rewrite Hr2. }
    eexists w2, ([_] ++ [_] ++ evs2), _, d2.
    split; [done|]. split; [by rewrite Hprog|]. split.
    { rewrite Ht2, Ht1. unfold greeted. cbn [trace]. by rewrite <- !app_assoc. }
    split; [by rewrite !phases_app, Hp2|].
    split; [by rewrite !spawned_app, Hs2|].
    rewrite !appended_app, Ha2. cbn.
    destruct (decide (logFile E = logFile E)); done.
  - intros Hpass. unfold probe in Hpass. rewrite <- Hlen in Hpass.
    destruct (checkAdmin_pass E w1 Hw1 Hpass) as (w2 & evs2 & Hr2 & Hw2 & Ht2 & Hp2 & _).
    destruct (after_checkAdmin_spec E w2 Hw2) as (bs & w3 & evs3 & Hr3 & Ht3 & Hbs & Hp3 & _).
    assert (main E w = (Ok tt, w3)) as Hrun.
    { rewrite Hmain. unfold bind. by rewrite Hr2, Hr3. }
    split; [by rewrite Hrun|]. split.
    { unfold program, try_catch. by rewrite Hrun. }
    eexists bs, ([_] ++ [_] ++ evs2 ++ evs3). rewrite Hrun. cbn [snd]. split.
    { rewrite Ht3, Ht2, Ht1. unfold greeted. cbn [trace]. by rewrite <- !app_assoc. }
    split; [done|]. by rewrite !phases_app, Hp2, Hp3.
Qed.

Lemma checkAdmin_decides_exit_status_witness :
  (program (Scenario.machine true ∅ ∅ ∅ Scenario.all_fail) Scenario.disk).1 = Exit 1
  ∧ exit_status (program (Scenario.machine true ∅ ∅ ∅ Scenario.only_admin) Scenario.disk).1
    = 0%Z.
Proof.
  split.
  - destruct (checkAdmin_decides_exit_status
                (Scenario.machine true ∅ ∅ ∅ Scenario.all_fail) Scenario.disk)
      as [Hfail _]; [unfold log_writable; compute_done|].
    destruct Hfail as (w2 & evs & d1 & d2 & Hprog & _); [discriminate|].
    by rewrite Hprog.
  - destruct (checkAdmin_decides_exit_status
                (Scenario.machine true ∅ ∅ ∅ Scenario.only_admin) Scenario.disk)
      as [_ Hpass]; [unfold log_writable; compute_done|].
    destruct Hpass as (_ & Hstatus & _); [reflexivity|]. exact Hstatus.
Defined.

(** The privilege check failing and passing, evaluated: with the probe
    failing nothing but the check runs; with every operation failing after a
    passed check, the
    status is still 0. *)
Example failed_privilege_check_evaluated :
  let r := program (Scenario.machine true ∅ ∅ ∅ Scenario.all_fail) Scenario.disk in
  exit_status r.1 = 1%Z ∧
  phases (trace r.2) = [inl "Checking for Administrator privileges"; inr false] ∧
  spawned (trace r.2) = [("net", ["session"])] ∧
  appended Scenario.log_path (trace r.2) =
    ["2024-03-07T09:05:01.042Z [INFO] Script started." +:+ crlf;
     "2024-03-07T09:05:01.042Z [ERROR] ERROR: Script not running as Administrator." +:+ crlf].
Proof. vm_compute. done. Qed.

Example all_operations_failing_evaluated :
  let r := program (Scenario.machine true ∅ ∅ ∅ Scenario.only_admin) Scenario.disk in
  exit_status r.1 = 0%Z ∧
  phases (trace r.2) =
    [inl "Checking for Administrator privileges"; inr true;
     inl "Gathering Hardware & OS Information"; inr false;
     inl "Checking for Windows Updates"; inr false;
     inl "Updating Winget Software"; inr false;
     inl "Updating Chocolatey Software"; inr false;
     inl "Checking DISM Health"; inr false;
     inl "Running System File Checker (sfc /scannow)"; inr false;
     inl "Cleaning Temporary Files"; inr true;
     inl "Optimizing System Drive (C:)"; inr false].
Proof. vm_compute. done. Qed.

(** ** The temporary-file sweep *)

Section Sweep.

Variable E : Env.

Lemma logged_app level a b : logged E level (a ++ b) = logged E level a ++ logged E level b.
Proof. unfold logged. by rewrite appended_app, filter_app. Qed.

Lemma logged_entry level d level' msg :
  logged E level [FsCall OpAppend (logFile E) (logEntry E (toISOString d) level' msg) true]
  = if decide (level' = level) then [logEntry E (toISOString d) level' msg] else [].
Proof.
  unfold logged. cbn. destruct (decide (logFile E = logFile E)); [|done].
  rewrite filter_cons, entry_level_written. cbn.
  destruct (decide (Some level' = Some level)) as [Heq|Hne];
    destruct (decide (level' = level)) as [Heq'|Hne']; try done; congruence.
Qed.

(** One entry of a directory: its removal is attempted, and a failed
    removal gets one WARN entry in the log. *)
Lemma sweep_entry dir n w :
  log_writable E w →
  ∃ w' evs,
    try_catch (fs_rm E (path_join dir n))
      (λ err,
       detached (writeLog E ("Could not delete " +:+ path_text E (path_join dir n) +:+ ": "
                             +:+ message err) WARN)) w = (Ok tt, w') ∧
    log_writable E w' ∧
    trace w' = trace w ++ evs ∧
    phases evs = [] ∧
    rm_attempts evs = [path_join dir n] ∧
    Forall2 (λ data n, is_entry E WARN (could_not_delete E dir n) data)
      (logged E WARN evs) (undeletable E dir [n]) ∧
    logged E ERROR evs = [].
Proof.
  intros Hw. unfold try_catch, fs_rm, undeletable. rewrite filter_cons, filter_nil.
  destruct (decide (path_join dir n ∈ locked E)) as [Hin|Hnin].
  - unfold fs_fail.
    set (w1 := {| listing := listing w; content := content w; trace := _ |}).
    assert (log_writable E w1) as Hw1 by (by apply writable_same).
    set (msg := "Could not delete " +:+ path_text E (path_join dir n) +:+ ": " +:+ _).
    destruct (writeLog_ok E msg WARN w1 Hw1) as (w2 & Hr2 & Hw2 & Ht2 & _).
    unfold detached. rewrite Hr2.
    eexists w2, ([_] ++ [_]).
    split; [done|]. split; [done|]. split.
    { rewrite Ht2. unfold w1. cbn [trace]. by rewrite <- !app_assoc. }
    split; [done|]. split; [done|].
    destruct (decide ((dir, n) ∈ locked E)) as [_|Hno]; [|by destruct Hno].
    split.
    + rewrite !logged_app, logged_entry. cbn.
      constructor; [by eexists|constructor].
    + by rewrite !logged_app, logged_entry.
  - unfold fs_remove.
    eexists _, [_].
    split; [done|]. split; [by apply writable_alter|]. split; [done|].
    split; [done|]. split; [done|].
    destruct (decide ((dir, n) ∈ locked E)) as [Hyes|_]; [by destruct Hnin|].
    split; [constructor|done].
Qed.

(** The loop over the entries of one directory: a removal is attempted for
    every entry, in order, and each entry that cannot be removed gets one
    WARN entry in the log. *)
Lemma sweep_entries dir names : ∀ w,
  log_writable E w →
  ∃ w' evs,
    for_of names (λ file,
      let filePath := path_join dir file in
      try_catch (fs_rm E filePath)
        (λ err,
         detached (writeLog E ("Could not delete " +:+ path_text E filePath +:+ ": "
                               +:+ message err) WARN))) w = (Ok tt, w') ∧
    log_writable E w' ∧
    trace w' = trace w ++ evs ∧
    phases evs = [] ∧
    rm_attempts evs = map (path_join dir) names ∧
    Forall2 (λ data n, is_entry E WARN (could_not_delete E dir n) data)
      (logged E WARN evs) (undeletable E dir names) ∧
    logged E ERROR evs = [].
Proof.
  induction names as [|n names IH]; intros w Hw.
  - exists w, []. rewrite app_nil_r. unfold undeletable. simpl.
    split; [done|]. split; [done|]. split; [done|]. split; [done|]. split; [done|].
    split; [constructor|done].
  - cbn [for_of]. unfold bind at 1. cbv zeta.
    destruct (sweep_entry dir n w Hw) as (w1 & evs1 & Hr1 & Hw1 & Ht1 & Hp1 & Hrm1 & Hwarn1 & Herr1).
    rewrite Hr1.
    destruct (IH w1 Hw1) as (w3 & evs3 & Hr3 & Hw3 & Ht3 & Hp3 & Hrm3 & Hwarn3 & Herr3).
    cbv zeta in Hr3. rewrite Hr3.
    exists w3, (evs1 ++ evs3).
    split; [done|]. split; [done|]. split; [by rewrite Ht3, Ht1, app_assoc|].
    split; [by rewrite phases_app, Hp1, Hp3|].
    split; [by rewrite rm_attempts_app, Hrm1, Hrm3|].
    split.
    + rewrite logged_app.
      assert (undeletable E dir (n :: names)
              = undeletable E dir [n] ++ undeletable E dir names) as ->.
      { unfold undeletable. by rewrite <- filter_app. }
      by apply Forall2_app.
    + by rewrite logged_app, Herr1, Herr3.
Qed.

(** One temp directory: the sweep never fails.  When the directory can be
    enumerated, every entry gets a removal attempt and every undeletable
    entry one WARN entry; when it cannot, one WARN entry says so and nothing
    is removed. *)
Lemma sweep_spec dir w :
  log_writable E w →
  ∃ w' evs,
    sweep E dir w = (Ok tt, w') ∧
    log_writable E w' ∧
    trace w' = trace w ++ evs ∧
    phases evs = [] ∧
    logged E ERROR evs = [] ∧
    match readdir_result E (writeLog E ("Cleaning folder: " +:+ dir) INFO w).2 dir with
    | Some names =>
        rm_attempts evs = map (path_join dir) names ∧
        Forall2 (λ data n, is_entry E WARN (could_not_delete E dir n) data)
          (logged E WARN evs) (undeletable E dir names)
    | None =>
        rm_attempts evs = [] ∧
        ∃ e data, logged E WARN evs = [data] ∧
                  is_entry E WARN ("Could not access temp path " +:+ dir +:+ ": "
                                   +:+ message e) data
    end.
Proof.
  intros Hw. unfold sweep. unfold try_catch at 1. unfold bind at 1.
  destruct (writeLog_ok E ("Cleaning folder: " +:+ dir) INFO w Hw)
    as (w1 & Hr1 & Hw1 & Ht1 & _).
  rewrite Hr1. cbn [snd]. unfold bind at 1.
  assert (∀ w2 e,
    log_writable E w2 → trace w2 = trace w1 ++ [FsCall OpReaddir (dir, "") "" false] →
    ∃ w' evs,
      writeLog E ("Could not access temp path " +:+ dir +:+ ": " +:+ message e) WARN w2
        = (Ok tt, w') ∧
      log_writable E w' ∧ trace w' = trace w ++ evs ∧ phases evs = [] ∧
      logged E ERROR evs = [] ∧ rm_attempts evs = [] ∧
      ∃ e data, logged E WARN evs = [data] ∧
                is_entry E WARN ("Could not access temp path " +:+ dir +:+ ": "
                                 +:+ message e) data) as Hskip.
  { intros w2 e Hw2 Ht2.
    destruct (writeLog_ok E ("Could not access temp path " +:+ dir +:+ ": " +:+ message e)
                WARN w2 Hw2) as (w3 & Hr3 & Hw3 & Ht3 & _).
    eexists w3, ([_] ++ [_] ++ [_]).
    split; [done|]. split; [done|]. split.
    { rewrite Ht3, Ht2, Ht1. by rewrite <- !app_assoc. }
    split; [done|]. split; [by rewrite !logged_app, !logged_entry|]. split; [done|].
    exists e. eexists. split.
    - rewrite !logged_app, !logged_entry. cbn. reflexivity.
    - by eexists. }
  unfold fs_readdir, readdir_result.
  destruct (listing w1 !! dir) as [names|] eqn:Hnames.
  - destruct (decide (dir ∈ noread E)) as [Hno|Hyes].
    + unfold fs_fail.
      set (w2 := {| listing := listing w1; content := content w1; trace := _ |}).
      assert (log_writable E w2) as Hw2 by (by apply writable_same).
      destruct (Hskip w2 (fs_error "EPERM: operation not permitted" "scandir" dir) Hw2 eq_refl)
        as (w' & evs & -> & Hrest).
      exists w', evs. split; [done|]. exact Hrest.
    + set (w2 := {| listing := listing w1; content := content w1; trace := _ |}).
      assert (log_writable E w2) as Hw2 by (by apply writable_same).
      destruct (sweep_entries dir names w2 Hw2)
        as (w3 & evs3 & Hr3 & Hw3 & Ht3 & Hp3 & Hrm3 & Hwarn3 & Herr3).
      cbv zeta in Hr3. rewrite Hr3.
      eexists w3, ([_] ++ [_] ++ evs3).
      split; [done|]. split; [done|]. split.
      { rewrite Ht3. unfold w2. cbn [trace]. rewrite Ht1. by rewrite <- !app_assoc. }
      split; [by rewrite !phases_app, Hp3|].
      split; [by rewrite !logged_app, logged_entry, Herr3|].
      split; [by rewrite !rm_attempts_app, Hrm3|].
      by rewrite !logged_app, logged_entry.
  - unfold fs_fail.
    set (w2 := {| listing := listing w1; content := content w1; trace := _ |}).
    assert (log_writable E w2) as Hw2 by (by apply writable_same).
    destruct (Hskip w2 (fs_error "ENOENT: no such file or directory" "scandir" dir) Hw2 eq_refl)
      as (w' & evs & -> & Hrest).
    exists w', evs. split; [done|]. exact Hrest.
Qed.

(** The whole operation: both sweeps run, and the task reports success. *)
Lemma runTempFileCleanup_spec w :
  log_writable E w →
  ∃ w1 evs1 w2 evs2 text,
    sweep E (tmpdir E) (after_start "Cleaning Temporary Files" w) = (Ok tt, w1) ∧
    trace w1 = trace (after_start "Cleaning Temporary Files" w) ++ evs1 ∧
    sweep E "C:\Windows\Temp" w1 = (Ok tt, w2) ∧
    trace w2 = trace w1 ++ evs2 ∧
    runTempFileCleanup E w =
      (Ok true,
       {| listing := listing w2; content := content w2;
          trace := trace w2 ++ [SpinnerSucceed text] |}) ∧
    logged E ERROR evs1 = [] ∧ logged E ERROR evs2 = [].
Proof.
  intros Hw.
  assert (log_writable E (after_start "Cleaning Temporary Files" w)) as Hw0
    by (by apply writable_same).
  destruct (sweep_spec (tmpdir E) _ Hw0) as (w1 & evs1 & Hr1 & Hw1 & Ht1 & _ & He1 & _).
  destruct (sweep_spec "C:\Windows\Temp" w1 Hw1) as (w2 & evs2 & Hr2 & Hw2 & Ht2 & _ & He2 & _).
  exists w1, evs1, w2, evs2. eexists.
  split; [done|]. split; [done|]. split; [done|]. split; [done|]. split; [|done].
  unfold runTempFileCleanup, runTask. unfold bind at 1. unfold emit at 1.
  fold (after_start "Cleaning Temporary Files" w).
  unfold try_catch. unfold bind at 1. unfold bind at 1. cbn [for_of].
  unfold bind at 1. rewrite Hr1. unfold bind at 1. rewrite Hr2.
  unfold ret at 1. unfold ret at 1. unfold bind, emit, ret. reflexivity.
Qed.

End Sweep.

(** ** What the cleanup guarantees *)




(** The cleanup evaluated on a machine where one entry of the temp directory
    is locked and the second directory may not be enumerated: three removal
    attempts in the first directory (the log file among them), one WARN entry
    written for the locked entry, one for the directory that is skipped, and
    success.  The log file is removed on its turn, so what was written to it
    before is no longer in the file that the later entries re-create. *)
Example cleanup_evaluated :
  let E := Scenario.machine true ∅ {[("C:\Temp", "busy.tmp")]} {["C:\Windows\Temp"]}
             Scenario.all_pass in
  let r := runTempFileCleanup E Scenario.disk in
  r.1 = Ok true ∧
  rm_attempts (trace r.2) =
    [("C:\Temp", "a.txt"); ("C:\Temp", "busy.tmp"); Scenario.log_path] ∧
  logged E WARN (trace r.2) =
    ["2024-03-07T09:05:01.042Z [WARN] Could not delete C:\Temp\busy.tmp: "
     +:+ "EPERM: operation not permitted, rm 'C:\Temp\busy.tmp'" +:+ crlf;
     "2024-03-07T09:05:01.042Z [WARN] Could not access temp path C:\Windows\Temp: "
     +:+ "EPERM: operation not permitted, scandir 'C:\Windows\Temp'" +:+ crlf] ∧
  content r.2 !! Scenario.log_path =
    Some ("2024-03-07T09:05:01.042Z [INFO] Cleaning folder: C:\Windows\Temp" +:+ crlf
          +:+ "2024-03-07T09:05:01.042Z [WARN] Could not access temp path C:\Windows\Temp: "
          +:+ "EPERM: operation not permitted, scandir 'C:\Windows\Temp'" +:+ crlf).
Proof. vm_compute. done. Qed.


(** C10, as the code has it.  The log file lives in the temp directory the
    cleanup sweeps first, and the sweep appends to it before enumerating: so
    whenever the log can be appended to and that directory can be enumerated,
    the log file of the run is among the entries the cleanup tries to remove. *)
Theorem cleanup_sweeps_its_own_log (E : Env) (w : World) :
  log_writable E w →
  tmpdir E ∉ noread E →
  ∃ w' evs,
    runTempFileCleanup E w = (Ok true, w') ∧
    trace w' = trace w ++ evs ∧
    logFile E ∈ rm_attempts evs.
Proof.
  intros Hw Hread.
  destruct (runTempFileCleanup_spec E w Hw)
    as (w1 & evs1 & w2 & evs2 & text & Hr1 & Ht1 & _ & Ht2 & Hr & _).
  eexists _, ([_] ++ evs1 ++ evs2 ++ [_]). split; [exact Hr|]. split.
  { cbn [trace]. rewrite Ht2, Ht1. unfold after_start. cbn [trace].
    by rewrite <- !app_assoc. }
  assert (log_writable E (after_start "Cleaning Temporary Files" w)) as Hw0
    by (by apply writable_same).
  destruct (sweep_spec E (tmpdir E) _ Hw0) as (w1' & evs1' & Hr1' & _ & Ht1' & _ & _ & Hcase).
  rewrite Hr1 in Hr1'. injection Hr1' as <-.
  rewrite Ht1 in Ht1'. apply app_inv_head in Ht1'. subst evs1'.
  destruct (writeLog_ok E ("Cleaning folder: " +:+ tmpdir E) INFO _ Hw0)
    as (w0' & Hr0 & _ & _ & _ & names & Hnames & Hlisting).
  rewrite Hr0 in Hcase. cbn [snd] in Hcase.
  unfold readdir_result in Hcase. rewrite Hlisting, lookup_insert_eq in Hcase.
  destruct (decide (tmpdir E ∈ noread E)); [done|].
  destruct Hcase as [Hrm _].
  rewrite !rm_attempts_app, Hrm.
  apply elem_of_app. right. apply elem_of_app. left.
  apply (list_elem_of_fmap_2 (path_join (tmpdir E)) _ (logFile E).2).
  unfold add_entry. destruct (decide _); [done|]. set_solver.
Qed.

Lemma cleanup_sweeps_its_own_log_witness :
  ∃ w' evs,
    runTempFileCleanup (Scenario.machine true ∅ ∅ ∅ Scenario.all_pass) Scenario.disk
      = (Ok true, w') ∧
    trace w' = trace Scenario.disk ++ evs ∧
    logFile (Scenario.machine true ∅ ∅ ∅ Scenario.all_pass) ∈ rm_attempts evs.
Proof.
  apply (cleanup_sweeps_its_own_log (Scenario.machine true ∅ ∅ ∅ Scenario.all_pass)
           Scenario.disk).
  - unfold log_writable. compute_done.
  - compute_done.
Defined.

(** C10, as the spec words it, fails: when the temp directory may not be
    enumerated, the cleanup runs, the log file of the run is there (the
    sweep has just appended to it), and no removal of it is attempted. *)
Lemma unreadable_temp_dir_spares_the_log :
  let E := Scenario.machine true ∅ ∅ {["C:\Temp"]} Scenario.all_pass in
  let r := runTempFileCleanup E Scenario.disk in
  r.1 = Ok true
  ∧ logFile E = Scenario.log_path
  ∧ listing r.2 !! "C:\Temp" = Some ["a.txt"; "busy.tmp"; Scenario.log_path.2]
  ∧ rm_attempts (trace r.2) = [("C:\Windows\Temp", "old.log")]
  ∧ logFile E ∉ rm_attempts (trace r.2).
Proof.
  vm_compute. repeat split; try done.
  intros Hin. apply list_elem_of_singleton in Hin. discriminate.
Qed.

(** * Further properties of the code *)

(** ** The name of the log file *)

Lemma replaceAll_lacks c r s :
  has_char c r = false → has_char c (replaceAll c r s) = false.
Proof.
  intros Hr. induction s as [|a s IH]; [done|].
  cbn [replaceAll]. destruct (Ascii.eqb a c) eqn:Heq.
  - by rewrite has_char_app, Hr, IH.
  - cbn [has_char]. by rewrite Heq, IH.
Qed.

Lemma replaceAll_char_length c c' s :
  String.length (replaceAll c (String c' "") s) = String.length s.
Proof.
  induction s as [|a s IH]; [done|].
  cbn [replaceAll]. destruct (Ascii.eqb a c).
  - rewrite append_cons.
    change ("" +:+ replaceAll c (String c' "") s) with (replaceAll c (String c' "") s).
    cbn [String.length]. by rewrite IH.
  - cbn [String.length]. by rewrite IH.
Qed.

(** X1. The log file sits in the platform temp directory, and its name is
    [SystemMaintenance-], a stamp and [.log], where the stamp is as long as
    the ISO timestamp of the start and holds no colon, whatever the start
    time is. *)
Theorem logFile_name_has_no_colon (E : Env) :
  (logFile E).1 = tmpdir E ∧
  ∃ stamp,
    (logFile E).2 = "SystemMaintenance-" +:+ stamp +:+ ".log" ∧
    String.length stamp = String.length (toISOString (started E)) ∧
    has_char ":" stamp = false ∧
    has_char ":" (logFile E).2 = false.
Proof.
  split; [done|]. exists (replaceAll ":" "-" (toISOString (started E))).
  split; [done|]. split; [apply replaceAll_char_length|].
  assert (has_char ":" (replaceAll ":" "-" (toISOString (started E))) = false) as Hstamp
    by (by apply replaceAll_lacks).
  split; [done|].
  unfold logFile, path_join. cbn [snd]. by rewrite !has_char_app, Hstamp.
Qed.

(** ** The inventory summary *)





Lemma field_JNull k : ¬ readable (field JNull k).
Proof. by intros [? _]. Qed.




(** A blob without the [GPU] section, and one without the board. *)
Example inventory_output_evaluated :
  let os := JObj [("Caption", JStr "Windows 11"); ("Version", JStr "10.0");
                  ("BuildNumber", JStr "22631")] in
  let cpu := JObj [("Name", JStr "CPU"); ("NumberOfCores", JNum "8" true);
                   ("NumberOfLogicalProcessors", JNum "16" true);
                   ("MaxClockSpeed", JNum "3200" true)] in
  let ram := JObj [("TotalPhysicalMemory", JNum "32" true)] in
  let board := JObj [("Manufacturer", JStr "ACME"); ("Product", JStr "B1")] in
  (∃ out, inventory_output (JObj [("OS", os); ("CPU", cpu); ("RAM", ram);
                                   ("Motherboard", board)]) = inr out ∧
          (Some Bold, "GPU:") ∉ segments out) ∧
  inventory_output (JObj [("OS", os); ("CPU", cpu); ("GPU", JNull); ("RAM", ram)])
    = inl {| message := "Cannot read properties of undefined (reading 'Manufacturer')" |}.
Proof.
  split; [|reflexivity]. eexists. split; [reflexivity|].
  vm_compute. intros Hin.
  repeat (apply elem_of_cons in Hin as [Hin|Hin]; [discriminate|]).
  by apply elem_of_nil in Hin.
Qed.

(** X3. In a summary that was built, the [GPU] block is there exactly when
    the [GPU] section of the parsed value is truthy: a missing, [null] or
    otherwise falsy section leaves the block out. *)
Theorem inventory_output_gpu_block (systemInfo : Json) (out : Text) :
  inventory_output systemInfo = inr out →
  ((Some Bold, "GPU:") ∈ segments out ↔ js_truthy (field systemInfo "GPU") = true).
Proof.
  unfold inventory_output. cbv zeta beta.
  repeat match goal with
         | |- context [match js_field (Some systemInfo) "OS" ?b with _ => _ end] =>
             destruct (js_field (Some systemInfo) "OS" b) as [?|?] eqn:?; [done|]
         | |- context [match js_field (Some systemInfo) "CPU" ?b with _ => _ end] =>
             destruct (js_field (Some systemInfo) "CPU" b) as [?|?] eqn:?; [done|]
         end.
  unfold field. destruct (js_get (Some systemInfo) "GPU") as [e|gpu] eqn:Hg; [done|].
  destruct (js_truthy gpu) eqn:Ht.
  - repeat match goal with
           | |- context [match js_field (Some systemInfo) ?a ?b with _ => _ end] =>
               destruct (js_field (Some systemInfo) a b) as [?|?] eqn:?; [done|]
           end.
    intros [= <-]. cbn [segments app]. split; [done|]. intros _. set_solver.
  - repeat match goal with
           | |- context [match js_field (Some systemInfo) ?a ?b with _ => _ end] =>
               destruct (js_field (Some systemInfo) a b) as [?|?] eqn:?; [done|]
           end.
    intros [= <-]. cbn [segments app]. split; [|done]. intros Hin.
    repeat (apply elem_of_cons in Hin as [Hin|Hin]; [discriminate|]).
    by apply elem_of_nil in Hin.
Qed.

Lemma inventory_output_gpu_block_witness :
  ∃ out,
    inventory_output
      (JObj [("OS", JObj []); ("CPU", JObj []);
             ("GPU", JObj [("Name", JStr "GPU 1"); ("AdapterRAM", JNum "8192" true)]);
             ("RAM", JObj []); ("Motherboard", JObj [])]) = inr out ∧
    (Some Bold, "GPU:") ∈ segments out.
Proof.
  eexists. split; [reflexivity|].
  apply (inventory_output_gpu_block
           (JObj [("OS", JObj []); ("CPU", JObj []);
                  ("GPU", JObj [("Name", JStr "GPU 1"); ("AdapterRAM", JNum "8192" true)]);
                  ("RAM", JObj []); ("Motherboard", JObj [])])); reflexivity.
Defined.

(** ** The wrapper, for every operation *)

(** The steps every [catch] block of an operation takes: the spinner fails,
    the error is printed, and [writeLog] is awaited; [logged_ok] tells whether
    that append succeeded.  The temp directory loses no entry and gains at
    most the log file. *)
Lemma failure_report (E : Env) (failed shown : Text) (msg : string) (w1 : World) :
  let r := (emit (SpinnerFail failed) >> emit (ConsoleError shown) >>
            writeLog E msg ERROR >> ret false) w1 in
  ∃ logged_ok : bool,
    trace r.2 =
      trace w1 ++
      [SpinnerFail failed; ConsoleError shown;
       FsCall OpAppend (logFile E)
         (logEntry E (toISOString (date_at E (length (trace w1) + 2))) ERROR msg)
         logged_ok] ∧
    (logged_ok = true ↔ log_writable E w1) ∧
    (logged_ok = true → r.1 = Ok false) ∧
    (logged_ok = false → ∃ e', r.1 = Throw e') ∧
    (∀ name, name ∈ default [] (listing w1 !! tmpdir E) →
             name ∈ default [] (listing r.2 !! tmpdir E)) ∧
    (∀ dir name, name ∈ default [] (listing r.2 !! dir) →
                 name ∈ default [] (listing w1 !! dir) ∨ (dir, name) = logFile E).
Proof.
  cbn zeta. unfold bind, emit. cbn [listing content trace].
  set (w2 := {| listing := listing w1; content := content w1; trace := _ |}).
  assert (length (trace w2) = length (trace w1) + 2) as Hlen.
  { unfold w2. cbn [trace]. rewrite !length_app. simpl. lia. }
  destruct (decide (is_Some (listing w1 !! tmpdir E) ∧ logFile E ∉ readonly E)) as [Hw|Hnw].
  - assert (log_writable E w2) as Hw2 by (by apply writable_same).
    destruct (writeLog_ok E msg ERROR w2 Hw2)
      as (w3 & -> & _ & Ht & _ & names & Hnames & Hlisting).
    exists true. unfold ret. cbn [fst snd]. rewrite Ht, Hlen, Hlisting.
    unfold w2 at 1. cbn [trace]. rewrite <- !app_assoc.
    split; [done|]. split; [done|]. split; [done|]. split; [done|].
    unfold w2 in Hnames |- *. cbn [listing] in Hnames |- *. split.
    + intros name Hin. rewrite lookup_insert_eq. cbn. rewrite Hnames in Hin. cbn in Hin.
      unfold add_entry. destruct (decide _); [done|]. apply elem_of_app. by left.
    + intros dir name Hin. destruct (decide (dir = tmpdir E)) as [->|Hne].
      * rewrite lookup_insert_eq in Hin. cbn in Hin. rewrite Hnames. cbn.
        unfold add_entry in Hin. destruct (decide _); [by left|].
        apply elem_of_app in Hin as [Hin|Hin]; [by left|].
        right. apply list_elem_of_singleton in Hin. subst. reflexivity.
      * rewrite lookup_insert_ne in Hin by done. by left.
  - assert (¬ log_writable E w2) as Hnw2.
    { intros [Hs Hro]. apply Hnw. by split. }
    destruct (writeLog_fail E msg ERROR w2 Hnw2) as (e' & ->).
    exists false. cbn [fst snd trace listing]. rewrite Hlen.
    unfold w2. cbn [trace listing]. rewrite <- !app_assoc.
    split; [done|]. split; [split; [done|by intros ?] |].
    split; [done|]. split; [eauto|]. split; [done|]. intros dir name Hin. by left.
Qed.

(** [runTask] once the operation has thrown: the [catch] block runs in the
    world the operation left. *)
Lemma runTask_catch (E : Env) (title : string) (task : M (option string))
    (w w1 : World) (e : Error) :
  task (after_start title w) = (Throw e, w1) →
  runTask E title task w =
    (emit (SpinnerFail (Chalk Red title)) >>
     emit (ConsoleError (Chalk Red (indented (message e)))) >>
     writeLog E (title +:+ " failed: " +:+ message e) ERROR >> ret false) w1.
Proof.
  intros Htask. unfold runTask, try_catch. unfold bind at 1. unfold emit at 1.
  fold (after_start title w). unfold bind at 1. unfold bind at 1. rewrite Htask.
  reflexivity.
Qed.

Lemma runTask_after_throw (E : Env) (title : string) (task : M (option string))
    (w w1 : World) (e : Error) :
  task (after_start title w) = (Throw e, w1) →
  ∃ logged_ok : bool,
    trace (runTask E title task w).2 =
      trace w1 ++
      [SpinnerFail (Chalk Red title);
       ConsoleError (Chalk Red (indented (message e)));
       FsCall OpAppend (logFile E)
         (logEntry E (toISOString (date_at E (length (trace w1) + 2))) ERROR
            (title +:+ " failed: " +:+ message e)) logged_ok] ∧
    (logged_ok = true ↔ log_writable E w1) ∧
    (logged_ok = true → (runTask E title task w).1 = Ok false) ∧
    (logged_ok = false → ∃ e', (runTask E title task w).1 = Throw e') ∧
    (∀ name, name ∈ default [] (listing w1 !! tmpdir E) →
             name ∈ default [] (listing (runTask E title task w).2 !! tmpdir E)) ∧
    (∀ dir name, name ∈ default [] (listing (runTask E title task w).2 !! dir) →
                 name ∈ default [] (listing w1 !! dir) ∨ (dir, name) = logFile E).
Proof.
  intros Htask. rewrite (runTask_catch E title task w w1 e Htask).
  apply failure_report.
Qed.

(** X4. When the operation completes normally, [runTask] returns [true]
    and touches neither the file system nor the log; the only thing it adds
    is the success of the spinner, whose text is the title followed by [ - ]
    and the result message when the operation returned a non-empty message,
    and the title alone when it returned nothing or an empty message. *)
Theorem runTask_returns_true_on_success (E : Env) (title : string)
    (task : M (option string)) (w w1 : World) (result : option string) :
  task (after_start title w) = (Ok result, w1) →
  ∃ text,
    runTask E title task w =
      (Ok true,
       {| listing := listing w1; content := content w1;
          trace := trace w1 ++ [SpinnerSucceed (Chalk Green text)] |}) ∧
    (∀ m, result = Some m → m ≠ "" → text = title +:+ " - " +:+ m) ∧
    (result = None ∨ result = Some "" → text = title).
Proof.
  intros Htask. rewrite (runTask_success E title task w w1 result Htask).
  eexists. split; [reflexivity|]. split.
  - intros m -> Hm. destruct m as [|a m]; [done|]. reflexivity.
  - by intros [->| ->].
Qed.

Lemma runTask_returns_true_on_success_witness :
  ∃ text,
    runTask (Scenario.machine true ∅ ∅ ∅ Scenario.all_pass) "Checking for Windows Updates"
      (ret (Some "No updates found.")) Scenario.disk =
      (Ok true,
       {| listing := listing Scenario.disk; content := content Scenario.disk;
          trace := [SpinnerStart "Checking for Windows Updates";
                    SpinnerSucceed (Chalk Green text)] |}) ∧
    text = "Checking for Windows Updates - No updates found.".
Proof.
  destruct (runTask_returns_true_on_success
              (Scenario.machine true ∅ ∅ ∅ Scenario.all_pass)
              "Checking for Windows Updates" (ret (Some "No updates found.")) Scenario.disk
              (after_start "Checking for Windows Updates" Scenario.disk)
              (Some "No updates found.") eq_refl) as (text & Hrun & Hmsg & _).
  exists text. split; [exact Hrun|]. by apply Hmsg.
Defined.

(** ** The temp scripts *)

Lemma script_is_not_the_log (E : Env) (pre : string) (n : nat) :
  String.prefix "S" pre = false → pre ≠ "" →
  path_join (tmpdir E) (pre +:+ pretty n +:+ ".ps1") ≠ logFile E.
Proof.
  intros Hp Hne. unfold logFile, path_join. intros [= Heq].
  destruct pre as [|a pre]; [done|].
  rewrite !append_cons in Heq. injection Heq as -> _.
  by rewrite prefix_cons_eq, prefix_nil in Hp.
Qed.

(** One run of [runCommand]: the command is spawned, and the promise settles
    without ending the process; it resolves exactly when the child closes
    with code 0. *)
Lemma runCommand_run (E : Env) (command : string) (args : list string) (w : World) :
  ∃ r,
    runCommand E command args w =
      (r, {| listing := listing w; content := content w;
             trace := trace w ++ [Spawn command args] |}) ∧
    (∀ c, r ≠ Exit c) ∧
    ((∃ out, r = Ok out) ↔
     ending (child E (length (trace w)) command args) = Closed (Some 0%Z)).
Proof.
  unfold runCommand. cbn zeta.
  destruct (ending (child E (length (trace w)) command args)) as [code|err].
  - destruct (decide (code = Some 0%Z)) as [->|Hne].
    + eexists. split; [done|]. split; [done|]. split; [done|eauto].
    + eexists. split; [done|]. split; [done|]. split; [by intros [? ?]|].
      intros [= ->]. done.
  - eexists. split; [done|]. split; [done|]. split; [by intros [? ?]|done].
Qed.

Lemma elem_of_add_entry (name : string) (names : list string) :
  name ∈ add_entry name names.
Proof.
  unfold add_entry. destruct (decide (name ∈ names)); [done|].
  apply elem_of_app. right. by apply list_elem_of_singleton.
Qed.

Lemma not_elem_of_remove_entry (name : string) (names : list string) :
  name ∉ remove_entry name names.
Proof. unfold remove_entry. intros [Hne _]%list_elem_of_filter. done. Qed.

(** X5. The update check always cleans up after itself: when its temp
    script can be written and is not protected against removal, the script is
    unlinked once — whether the PowerShell command succeeded or failed — and
    is gone from the temp directory when the operation returns. *)
Theorem update_script_is_removed (E : Env) (w : World) :
  is_Some (listing w !! tmpdir E) →
  update_script_path E w ∉ readonly E →
  update_script_path E w ∉ locked E →
  ((update_script_path E w).2 ∉ temp_entries E (runWindowsUpdateCheck E w).2) ∧
  ∃ evs,
    trace (runWindowsUpdateCheck E w).2 = trace w ++ evs ∧
    unlink_attempts evs = [update_script_path E w] ∧
    spawned evs =
      [("powershell.exe",
        ["-ExecutionPolicy"; "Bypass"; "-File"; path_text E (update_script_path E w)])].
Proof.
  intros [names Hnames] Hro Hlk. unfold runWindowsUpdateCheck.
  set (title := "Checking for Windows Updates").
  set (body := bind (Date_now E) _).
  assert (∃ r w3, body (after_start title w) = (r, w3) ∧ (∀ c, r ≠ Exit c) ∧
            ((update_script_path E w).2 ∉ default [] (listing w3 !! tmpdir E)) ∧
            trace w3 = trace w ++
              [SpinnerStart title;
               FsCall OpWrite (update_script_path E w) updateScript true;
               Spawn "powershell.exe"
                 ["-ExecutionPolicy"; "Bypass"; "-File"; path_text E (update_script_path E w)];
               FsCall OpUnlink (update_script_path E w) "" true])
    as (r & w3 & Hb & Hr & Hgone & Ht).
  { unfold body, Date_now, new_Date. unfold bind at 1. unfold bind at 1. unfold ret at 1.
    assert (length (trace (after_start title w)) = length (trace w) + 1) as ->.
    { unfold after_start. cbn [trace]. rewrite length_app. simpl. lia. }
    fold (update_script_path E w). set (p := update_script_path E w) in *.
    unfold bind at 1. unfold fs_writeFile, fs_store.
    replace (listing (after_start title w) !! p.1) with (Some names) by done.
    destruct (decide (p ∈ readonly E)) as [|_]; [done|].
    unfold try_finally, try_catch, fs_unlink. unfold bind at 1.
    match goal with |- context [runCommand E ?c ?a ?w0] =>
      destruct (runCommand_run E c a w0) as (rc & -> & Hrc & _) end.
    cbn [listing content trace].
    destruct rc as [out|e|c]; [| |by destruct (Hrc c)]; unfold ret; cbn [listing content trace];
      rewrite lookup_insert_eq; cbn [default from_option id];
      (destruct (decide (p.2 ∈ add_entry p.2 names)) as [_|Hn];
         [|by destruct Hn; apply elem_of_add_entry]);
      (destruct (decide (p ∈ locked E)) as [|_]; [done|]);
      unfold fs_remove; cbn [listing content trace];
      eexists _, _; (split; [reflexivity|]); (split; [done|]);
      cbn [listing content trace]; rewrite <- !app_assoc;
      (split; [|unfold after_start; cbn [trace]; by rewrite <- app_assoc]);
      change p.1 with (tmpdir E); rewrite lookup_alter_eq, lookup_insert_eq; cbn;
      apply not_elem_of_remove_entry. }
  unfold temp_entries.
  destruct r as [result|e|c]; [| |by destruct (Hr c)].
  - rewrite (runTask_success E title body w w3 result Hb). cbn [snd listing trace].
    split; [done|].
    eexists. rewrite Ht, <- app_assoc. split; [reflexivity|]. done.
  - destruct (runTask_after_throw E title body w w3 e Hb)
      as (ok & Htr & _ & _ & _ & _ & Hback).
    split.
    + intros Hin. destruct (Hback _ _ Hin) as [Hin'|Heq]; [done|].
      by apply (script_is_not_the_log E "ps-script-") in Heq.
    + eexists. rewrite Htr, Ht, <- app_assoc. split; [reflexivity|]. done.
Qed.

Lemma update_script_is_removed_witness :
  ("ps-script-1700.ps1" ∉
     temp_entries (Scenario.machine true ∅ ∅ ∅ Scenario.only_admin)
       (runWindowsUpdateCheck (Scenario.machine true ∅ ∅ ∅ Scenario.only_admin)
          Scenario.disk).2).
Proof.
  apply (update_script_is_removed (Scenario.machine true ∅ ∅ ∅ Scenario.only_admin)
           Scenario.disk).
  - compute_done.
  - apply not_elem_of_empty.
  - apply not_elem_of_empty.
Defined.

(** X6. The inventory has no such [finally]: its temp script is unlinked only
    once the PowerShell command has succeeded and its output has parsed.  When
    the script can be written and is not protected against removal, it is
    left behind in the temp directory exactly when the command fails or its
    output is not valid JSON. *)
Theorem inventory_script_left_iff_failure (E : Env) (w : World) :
  let p := inventory_script_path E w in
  let c := child E (length (trace w) + 2) "powershell.exe"
             ["-ExecutionPolicy"; "Bypass"; "-File"; path_text E p] in
  is_Some (listing w !! tmpdir E) →
  p ∉ readonly E →
  p ∉ locked E →
  (p.2 ∈ temp_entries E (runHardwareCheck E w).2 ↔
   ending c ≠ Closed (Some 0%Z) ∨
   ∃ e, JSON_parse E (foldl on_data ("", "") (chunks c)).1 = inl e).
Proof.
  intros p c [names Hnames] Hro Hlk. unfold runHardwareCheck, temp_entries.
  set (title := "Gathering Hardware & OS Information").
  unfold try_catch. unfold bind at 1. unfold emit at 1. fold (after_start title w).
  unfold Date_now, new_Date. unfold bind at 1. unfold bind at 1. unfold ret at 1.
  assert (length (trace (after_start title w)) = length (trace w) + 1) as ->.
  { unfold after_start. cbn [trace]. rewrite length_app. simpl. lia. }
  fold (inventory_script_path E w). fold p.
  unfold bind at 1. unfold fs_writeFile, fs_store.
  replace (listing (after_start title w) !! p.1) with (Some names) by done.
  destruct (decide (p ∈ readonly E)) as [|_]; [done|].
  unfold bind at 1. unfold runCommand. cbn [listing content trace].
  assert (length (trace (after_start title w) ++ [FsCall OpWrite p inventoryScript true])
          = length (trace w) + 2) as ->.
  { unfold after_start. cbn [trace]. rewrite !length_app. simpl. lia. }
  fold c.
  set (w2 := {| listing := <[p.1:=add_entry p.2 names]> (listing (after_start title w));
                content := _; trace := _ |}).
  assert (p.2 ∈ default [] (listing w2 !! tmpdir E)) as Hin2.
  { unfold w2. cbn [listing]. change p.1 with (tmpdir E). rewrite lookup_insert_eq.
    apply elem_of_add_entry. }
  assert (∀ e, p.2 ∈ default [] (listing
            ((emit (SpinnerFail (Chalk Red title)) >>
              emit (ConsoleError (Chalk Red ("  " +:+ replaceAll LF (nl +:+ "  ") (message e)))) >>
              writeLog E ("Hardware & OS Information failed: " +:+ message e) ERROR >>
              ret false) w2).2 !! tmpdir E)) as Hleft.
  { intros e.
    destruct (failure_report E (Chalk Red title)
                (Chalk Red ("  " +:+ replaceAll LF (nl +:+ "  ") (message e)))
                ("Hardware & OS Information failed: " +:+ message e) w2)
      as (ok & _ & _ & _ & _ & Hkeep & _).
    by apply Hkeep. }
  destruct (ending c) as [code|err] eqn:Hend;
    [destruct (decide (code = Some 0%Z)) as [->|Hne] |].
  2: { split; [intros _; left; congruence | intros _; apply Hleft]. }
  2: { split; [intros _; by left | intros _; apply Hleft]. }
  unfold bind at 1. unfold lift at 1.
  destruct (JSON_parse E (foldl on_data ("", "") (chunks c)).1) as [e|systemInfo].
  { split; [intros _; right; eauto | intros _; apply Hleft]. }
  unfold ret at 1. unfold bind at 1. unfold fs_unlink.
  replace (listing w2 !! p.1) with (Some (add_entry p.2 names))
    by (unfold w2; cbn [listing]; by rewrite lookup_insert_eq).
  cbn [default from_option id].
  destruct (decide (p.2 ∈ add_entry p.2 names)) as [_|Hn];
    [|by destruct Hn; apply elem_of_add_entry].
  destruct (decide (p ∈ locked E)) as [|_]; [done|].
  unfold fs_remove.
  set (w3 := {| listing := alter _ _ _; content := _; trace := _ |}).
  assert (p.2 ∉ default [] (listing w3 !! tmpdir E)) as Hout3.
  { unfold w3, w2. cbn [listing]. change p.1 with (tmpdir E).
    rewrite lookup_alter_eq, lookup_insert_eq. cbn. apply not_elem_of_remove_entry. }
  assert (∀ e w', p.2 ∉ default [] (listing w' !! tmpdir E) →
            p.2 ∉ default [] (listing
              ((emit (SpinnerFail (Chalk Red title)) >>
                emit (ConsoleError (Chalk Red ("  " +:+ replaceAll LF (nl +:+ "  ") (message e)))) >>
                writeLog E ("Hardware & OS Information failed: " +:+ message e) ERROR >>
                ret false) w').2 !! tmpdir E)) as Hback.
  { intros e w' Hout Hin.
    destruct (failure_report E (Chalk Red title)
                (Chalk Red ("  " +:+ replaceAll LF (nl +:+ "  ") (message e)))
                ("Hardware & OS Information failed: " +:+ message e) w')
      as (ok & _ & _ & _ & _ & _ & Hgain).
    destruct (Hgain _ _ Hin) as [Hin'|Heq]; [done|].
    by apply (script_is_not_the_log E "hw-info-") in Heq. }
  split; [|intros [?|[e ?]]; done].
  intros Hin. exfalso. revert Hin.
  unfold bind at 1. unfold lift at 1.
  destruct (inventory_output systemInfo) as [e|output].
  { unfold throw. by apply Hback. }
  unfold ret at 1. unfold bind at 1. unfold emit at 1. unfold bind at 1. unfold emit at 1.
  unfold bind at 1. cbn [listing content trace].
  set (w5 := {| listing := listing w3; content := content w3; trace := _ |}).
  destruct (decide (is_Some (listing w5 !! tmpdir E) ∧ logFile E ∉ readonly E)) as [Hw|Hnw].
  - destruct (writeLog_ok E "Gathered Hardware & OS Information" INFO w5 Hw)
      as (w6 & -> & _ & _ & _ & names5 & Hnames5 & Hlisting).
    unfold ret. cbn [snd]. rewrite Hlisting, lookup_insert_eq. cbn [default from_option id].
    intros Hin. apply Hout3. change (listing w3) with (listing w5). rewrite Hnames5.
    cbn [default from_option id]. unfold add_entry in Hin.
    destruct (decide _); [done|].
    apply elem_of_app in Hin as [Hin|Hin]; [done|].
    apply list_elem_of_singleton in Hin.
    destruct (script_is_not_the_log E "hw-info-"
                (time_ms (date_at E (length (trace w) + 1)))); [done|done|].
    change ((tmpdir E, p.2) = (tmpdir E, (logFile E).2)). by rewrite Hin.
  - destruct (writeLog_fail E "Gathered Hardware & OS Information" INFO w5 Hnw)
      as (e & ->).
    by apply Hback.
Qed.

Lemma inventory_script_left_iff_failure_witness :
  "hw-info-1700.ps1" ∈
    temp_entries (Scenario.machine true ∅ ∅ ∅ Scenario.all_pass)
      (runHardwareCheck (Scenario.machine true ∅ ∅ ∅ Scenario.all_pass) Scenario.disk).2.
Proof.
  apply (inventory_script_left_iff_failure (Scenario.machine true ∅ ∅ ∅ Scenario.all_pass)
           Scenario.disk).
  - compute_done.
  - apply not_elem_of_empty.
  - apply not_elem_of_empty.
  - right. eexists. reflexivity.
Defined.

(** ** Operations that replace the error of a command *)

Lemma prefix_app (pat b : string) : String.prefix pat (pat +:+ b) = true.
Proof.
  induction pat as [|x pat IH]; [apply prefix_nil|].
  by rewrite append_cons, prefix_cons_eq.
Qed.

Lemma includes_here (s pat : string) : String.prefix pat s = true → includes s pat = true.
Proof. intros H. destruct s; cbn [includes]; by rewrite H. Qed.

Lemma includes_app (a pat b : string) : includes (a +:+ pat +:+ b) pat = true.
Proof.
  induction a as [|x a IH].
  - change (includes (pat +:+ b) pat = true). apply includes_here, prefix_app.
  - rewrite append_cons. cbn [includes]. rewrite IH. apply orb_true_r.
Qed.

Lemma prefix_char_inv (c : ascii) (s : string) :
  String.prefix (String c "") s = true → ∃ rest, s = String c rest.
Proof.
  destruct s as [|a s]; [done|]. simpl.
  destruct (ascii_dec c a) as [->|]; [eauto|done].
Qed.

(** X7. Without a working [choco], the Chocolatey update stops at the probe:
    when [choco --version] does not exit with status 0, no other command is
    started, the operation fails, and what is printed and logged is the
    fixed "not installed" text — the error of the probe itself is discarded. *)
Theorem runChocoUpdates_without_choco (E : Env) (w : World) :
  let title := "Updating Chocolatey Software" in
  let missing :=
    "Chocolatey is not installed or not in your PATH. Please install Chocolatey to use this feature." in
  ending (child E (length (trace w) + 1) "choco" ["--version"]) ≠ Closed (Some 0%Z) →
  ∃ logged_ok : bool,
    trace (runChocoUpdates E w).2 =
      trace w ++
      [SpinnerStart title;
       Spawn "choco" ["--version"];
       SpinnerFail (Chalk Red title);
       ConsoleError (Chalk Red ("  " +:+ missing));
       FsCall OpAppend (logFile E)
         (logEntry E (toISOString (date_at E (length (trace w) + 4))) ERROR
            (title +:+ " failed: " +:+ missing)) logged_ok] ∧
    (logged_ok = true ↔ log_writable E w) ∧
    (logged_ok = true → (runChocoUpdates E w).1 = Ok false).
Proof.
  intros title missing Hend. unfold runChocoUpdates. fold title.
  set (body := bind (try_catch _ _) _).
  assert (body (after_start title w) =
            (Throw {| message := missing |},
             {| listing := listing w; content := content w;
                trace := trace w ++ [SpinnerStart title; Spawn "choco" ["--version"]] |}))
    as Hb.
  { unfold body. unfold bind at 1. unfold try_catch, runCommand.
    assert (length (trace (after_start title w)) = length (trace w) + 1) as ->.
    { unfold after_start. cbn [trace]. rewrite length_app. simpl. lia. }
    cbn [listing content trace after_start]. rewrite <- app_assoc.
    destruct (ending _) as [code|err]; [|done].
    destruct (decide (code = Some 0%Z)) as [->|_]; done. }
  destruct (runTask_after_throw E title body w _ _ Hb)
    as (ok & Ht & Hok & Hres & _).
  exists ok. rewrite Ht. cbn [trace listing message]. rewrite <- app_assoc, length_app.
  split; [|split; [|done]].
  - replace (length (trace w) + length [SpinnerStart title; Spawn "choco" ["--version"]] + 2)
      with (length (trace w) + 4) by (simpl; lia).
    reflexivity.
  - rewrite Hok. by unfold log_writable.
Qed.

Lemma runChocoUpdates_without_choco_witness :
  ∃ logged_ok : bool,
    spawned (trace (runChocoUpdates (Scenario.machine true ∅ ∅ ∅ Scenario.only_admin)
                      Scenario.disk).2) = [("choco", ["--version"])] ∧
    logged_ok = true.
Proof.
  destruct (runChocoUpdates_without_choco
              (Scenario.machine true ∅ ∅ ∅ Scenario.only_admin) Scenario.disk)
    as (ok & Ht & Hok & _).
  - compute_done.
  - exists ok. split.
    + rewrite Ht. reflexivity.
    + apply Hok. unfold log_writable. compute_done.
Defined.

(** X8. The System File Checker's special message is chosen by a text
    search: whenever the exit code of [sfc /scannow], written in decimal,
    begins with the digit 1 — 1, but also 10 or 127 — the operation fails
    with the fixed "integrity violations" text, which is printed and logged
    in place of the error of the command. *)
Theorem runSfcScan_exit_code_starting_with_1 (E : Env) (w : World) (code : Z) :
  let title := "Running System File Checker (sfc /scannow)" in
  let violations :=
    "sfc /scannow failed. This may indicate that Windows Resource Protection found integrity violations."
    +:+ nl +:+ "  Please check the CBS.log for more details: C:\Windows\Logs\CBS\CBS.log" in
  ending (child E (length (trace w) + 1) "sfc" ["/scannow"]) = Closed (Some code) →
  String.prefix "1" (pretty code) = true →
  ∃ logged_ok : bool,
    trace (runSfcScan E w).2 =
      trace w ++
      [SpinnerStart title;
       Spawn "sfc" ["/scannow"];
       SpinnerFail (Chalk Red title);
       ConsoleError (Chalk Red (indented violations));
       FsCall OpAppend (logFile E)
         (logEntry E (toISOString (date_at E (length (trace w) + 4))) ERROR
            (title +:+ " failed: " +:+ violations)) logged_ok] ∧
    (logged_ok = true ↔ log_writable E w) ∧
    (logged_ok = true → (runSfcScan E w).1 = Ok false).
Proof.
  intros title violations Hend Hone. unfold runSfcScan. fold title.
  set (body := bind (try_catch _ _) _).
  assert (body (after_start title w) =
            (Throw {| message := violations |},
             {| listing := listing w; content := content w;
                trace := trace w ++ [SpinnerStart title; Spawn "sfc" ["/scannow"]] |}))
    as Hb.
  { unfold body. unfold bind at 1. unfold try_catch, runCommand.
    assert (length (trace (after_start title w)) = length (trace w) + 1) as ->.
    { unfold after_start. cbn [trace]. rewrite length_app. simpl. lia. }
    cbn [listing content trace after_start]. rewrite <- app_assoc, Hend.
    destruct (decide (Some code = Some 0%Z)) as [[= ->]|_]; [done|].
    cbn [message code_text].
    destruct (prefix_char_inv _ _ Hone) as (rest & ->).
    change ("Command failed with exit code " +:+ String "1" rest +:+ nl +:+ ?x)
      with ("Command failed with " +:+ "exit code 1" +:+ (rest +:+ nl +:+ x)).
    by rewrite includes_app. }
  destruct (runTask_after_throw E title body w _ _ Hb)
    as (ok & Ht & Hok & Hres & _).
  exists ok. rewrite Ht. cbn [trace listing message]. rewrite <- app_assoc, length_app.
  split; [|split; [|done]].
  - replace (length (trace w) + length [SpinnerStart title; Spawn "sfc" ["/scannow"]] + 2)
      with (length (trace w) + 4) by (simpl; lia).
    reflexivity.
  - rewrite Hok. by unfold log_writable.
Qed.

Lemma runSfcScan_exit_code_starting_with_1_witness :
  ∃ logged_ok : bool,
    spawned (trace (runSfcScan
                      (Scenario.machine true ∅ ∅ ∅ (λ _ _, Scenario.exits 127 "not found"))
                      Scenario.disk).2) = [("sfc", ["/scannow"])] ∧
    logged_ok = true.
Proof.
  destruct (runSfcScan_exit_code_starting_with_1
              (Scenario.machine true ∅ ∅ ∅ (λ _ _, Scenario.exits 127 "not found"))
              Scenario.disk 127)
    as (ok & Ht & Hok & _).
  - reflexivity.
  - reflexivity.
  - exists ok. split.
    + rewrite Ht. reflexivity.
    + apply Hok. unfold log_writable. compute_done.
Defined.

(** ** The whole program *)

(** X9. With a log that cannot be written the tool does nothing at all: the
    banner is printed, the very first [writeLog] rejects, and the top-level
    handler prints the critical error and rejects in turn on its own
    [writeLog] — before [process.exit(1)] is reached.  No command is started,
    no spinner shown, the disk is untouched, and the exit status is 1. *)
Theorem program_stops_when_log_fails (E : Env) (w : World) :
  ¬ log_writable E w →
  ∃ (e e' : Error) (w' : World),
    program E w = (Throw e', w') ∧
    exit_status (program E w).1 = 1%Z ∧
    listing w' = listing w ∧ content w' = content w ∧
    trace w' =
      trace w ++
      [ConsoleLog (Chalk BoldCyan ("=== Windows System Maintenance Tool (Node.js) ===" +:+ nl));
       FsCall OpAppend (logFile E)
         (logEntry E (toISOString (date_at E (length (trace w) + 1))) INFO "Script started.")
         false;
       ConsoleError (Chalk Red (nl +:+ "CRITICAL ERROR: " +:+ message e));
       FsCall OpAppend (logFile E)
         (logEntry E (toISOString (date_at E (length (trace w) + 3))) ERROR
            ("Critical script error: " +:+ message e))
         false].
Proof.
  intros Hnw. destruct (program E w) as [r w'] eqn:Hp. cbn [fst].
  unfold program, try_catch in Hp. rewrite main_unfold in Hp.
  unfold bind at 1 in Hp. unfold emit at 1 in Hp. fold (greeted w) in Hp.
  assert (¬ log_writable E (greeted w)) as Hnw0.
  { intros [Hs Hro]. apply Hnw. by split. }
  destruct (writeLog_fail E "Script started." INFO (greeted w) Hnw0) as (e & He).
  unfold bind at 1 in Hp. rewrite He in Hp.
  unfold bind at 1 in Hp. unfold emit at 1 in Hp. unfold bind at 1 in Hp.
  match type of Hp with context [writeLog E _ ERROR ?w0] => set (w2 := w0) in Hp end.
  assert (¬ log_writable E w2) as Hnw2.
  { intros [Hs Hro]. apply Hnw. by split. }
  destruct (writeLog_fail E ("Critical script error: " +:+ message e) ERROR w2 Hnw2)
    as (e' & He').
  rewrite He' in Hp. injection Hp as <- <-.
  exists e, e'. eexists. split; [done|]. split; [done|]. split; [done|]. split; [done|].
  unfold w2, greeted. cbn [trace]. rewrite !length_app. cbn [length].
  rewrite <- !app_assoc. cbn [app].
  replace (length (trace w) + 1 + 1 + 1) with (length (trace w) + 3) by lia.
  reflexivity.
Qed.

Lemma program_stops_when_log_fails_witness :
  exit_status
    (program (Scenario.machine true {[Scenario.log_path]} ∅ ∅ Scenario.all_pass)
       Scenario.disk).1 = 1%Z.
Proof.
  destruct (program_stops_when_log_fails
              (Scenario.machine true {[Scenario.log_path]} ∅ ∅ Scenario.all_pass)
              Scenario.disk)
    as (e & e' & w' & _ & Hs & _).
  - unfold log_writable. compute_done.
  - exact Hs.
Defined.

(** X10. How a run of [main] closes, when the privilege probe passes and
    the log is writable.  With an empty selection the last thing printed is
    the "No tasks selected" notice: nothing but the probe was started and no
    completion banner appears.  Otherwise the run closes with the completion
    banner followed by the path of the log file. *)
Theorem main_closing_output (E : Env) (w : World) :
  log_writable E w →
  (∀ n, ending (child E n "net" ["session"]) = Closed (Some 0%Z)) →
  ∃ (w' : World) (evs : list Event),
    main E w = (Ok tt, w') ∧
    trace w' =
      trace w ++ evs ++
      match chosen E with
      | [] => [ConsoleLog (Chalk Yellow "No tasks selected. Exiting.")]
      | _ => [ConsoleLog (Chalk BoldGreen (nl +:+ "=== MAINTENANCE COMPLETE ==="));
              ConsoleLog (Chalk Gray ("Log file created at: " +:+ path_text E (logFile E)))]
      end ∧
    (chosen E = [] →
       spawned evs = [("net", ["session"])] ∧
       phases evs = report ("Checking for Administrator privileges", true)).
Proof.
  intros Hw Hadmin. rewrite main_unfold.
  unfold bind at 1. unfold emit at 1. fold (greeted w).
  assert (log_writable E (greeted w)) as Hw0 by (by apply writable_same).
  destruct (writeLog_ok E "Script started." INFO (greeted w) Hw0)
    as (w1 & Hr1 & Hw1 & Ht1 & _).
  unfold bind at 1. rewrite Hr1.
  destruct (checkAdmin_pass E w1 Hw1 (Hadmin _)) as (w2 & evs2 & Hr2 & Hw2 & Ht2 & Hp2 & Hs2).
  unfold bind at 1. rewrite Hr2. unfold after_checkAdmin.
  destruct (selection_spec E w2 Hw2) as (w3 & evs3 & Hr3 & Hw3 & Ht3 & Hp3 & Hprompt).
  unfold bind at 1. rewrite Hr3.
  destruct (chosen E) as [|k ks] eqn:Hch.
  - assert (silent E = false) as Hs.
    { unfold chosen in Hch. by destruct (silent E). }
    unfold emit. cbn [listing content trace].
    eexists _, ([_; _] ++ evs2 ++ evs3). split; [done|]. split.
    { cbn [trace]. rewrite Ht3, Ht2, Ht1. unfold greeted. cbn [trace].
      by rewrite <- !app_assoc. }
    intros _. rewrite (Hprompt Hs), !spawned_app, !phases_app, Hs2, Hp2. done.
  - unfold bind at 1. unfold emit at 1.
    set (w4 := {| listing := listing w3; content := content w3; trace := _ |}).
    assert (log_writable E w4) as Hw4 by (by apply writable_same).
    pose proof (chosen_catalog_keys E) as Hkeys. rewrite Hch in Hkeys.
    destruct (run_selected_spec E (k :: ks) Hkeys w4 Hw4)
      as (bs & w5 & evs5 & Hr5 & _ & Ht5 & _).
    unfold bind at 1. rewrite Hr5. unfold bind, emit. cbn [fst snd listing content trace].
    eexists _, ([_; _] ++ evs2 ++ evs3 ++ [ConsoleLog (Plain "")] ++ evs5).
    split; [done|]. split; [|done].
    rewrite Ht5. unfold w4. cbn [trace]. rewrite Ht3, Ht2, Ht1. unfold greeted. cbn [trace].
    by rewrite <- !app_assoc.
Qed.

Lemma main_closing_output_witness :
  ∃ (w' : World) (evs : list Event),
    main unticked_machine Scenario.disk = (Ok tt, w') ∧
    trace w' = evs ++ [ConsoleLog (Chalk Yellow "No tasks selected. Exiting.")].
Proof.
  destruct (main_closing_output unticked_machine Scenario.disk) as (w' & evs & Hr & Ht & _).
  - unfold log_writable. compute_done.
  - done.
  - exists w', evs. split; [exact Hr|]. exact Ht.
Defined.

(** ** What the tool touches *)

Section Emits.

Variable E : Env.
Variable P : Event → Prop.

Lemma emits_nothing {A} (m : M A) : (∀ w, (m w).2 = w) → emits P m.
Proof. intros H w. exists []. rewrite H, app_nil_r. done. Qed.

Lemma emits_ret {A} (a : A) : emits P (ret a).
Proof. by apply emits_nothing. Qed.

Lemma emits_throw {A} (e : Error) : emits P (@throw A e).
Proof. by apply emits_nothing. Qed.

Lemma emits_process_exit {A} (code : Z) : emits P (@process_exit A code).
Proof. by apply emits_nothing. Qed.

Lemma emits_lift {A} (x : Error + A) : emits P (lift x).
Proof. apply emits_nothing. by destruct x. Qed.

Lemma emits_Date_now : emits P (Date_now E).
Proof. by apply emits_nothing. Qed.

Lemma emits_emit ev : P ev → emits P (emit ev).
Proof. intros H w. exists [ev]. split; [done|]. by constructor. Qed.

Lemma emits_bind {A B} (m : M A) (k : A → M B) :
  emits P m → (∀ a, emits P (k a)) → emits P (bind m k).
Proof.
  intros Hm Hk w. destruct (Hm w) as (evs1 & Ht1 & HF1). unfold bind.
  destruct (m w) as [[a|e|c] w1]; cbn [snd] in *; [|by exists evs1..].
  destruct (Hk a w1) as (evs2 & Ht2 & HF2). exists (evs1 ++ evs2).
  split; [by rewrite Ht2, Ht1, app_assoc | by apply Forall_app].
Qed.

Lemma emits_try_catch {A} (m : M A) (h : Error → M A) :
  emits P m → (∀ e, emits P (h e)) → emits P (try_catch m h).
Proof.
  intros Hm Hh w. destruct (Hm w) as (evs1 & Ht1 & HF1). unfold try_catch.
  destruct (m w) as [[a|e|c] w1]; cbn [snd] in *; [by exists evs1| |by exists evs1].
  destruct (Hh e w1) as (evs2 & Ht2 & HF2). exists (evs1 ++ evs2).
  split; [by rewrite Ht2, Ht1, app_assoc | by apply Forall_app].
Qed.

Lemma emits_try_finally {A} (m : M A) (f : M unit) :
  emits P m → emits P f → emits P (try_finally m f).
Proof.
  intros Hm Hf w. destruct (Hm w) as (evs1 & Ht1 & HF1). unfold try_finally.
  destruct (m w) as [[a|e|c] w1]; cbn [snd] in *; [| |by exists evs1];
    destruct (Hf w1) as (evs2 & Ht2 & HF2); exists (evs1 ++ evs2);
    (split; [|by apply Forall_app]);
    destruct (f w1) as [[[]|e'|c'] w2]; cbn [snd] in *; by rewrite Ht2, Ht1, app_assoc.
Qed.

Lemma emits_detached (m : M unit) : emits P m → emits P (detached m).
Proof.
  intros Hm w. destruct (Hm w) as (evs1 & Ht1 & HF1). unfold detached.
  destruct (m w) as [[a|e|c] w1]; cbn [snd] in *; by exists evs1.
Qed.

Lemma emits_for_of {A} (xs : list A) (body : A → M unit) :
  (∀ x, emits P (body x)) → emits P (for_of xs body).
Proof.
  intros Hbody. induction xs as [|x xs IH]; cbn [for_of]; [apply emits_ret|].
  apply emits_bind; [apply Hbody | intros _; apply IH].
Qed.

Lemma emits_if {A} (b : bool) (m1 m2 : M A) :
  emits P m1 → emits P m2 → emits P (if b then m1 else m2).
Proof. by destruct b. Qed.

Lemma emits_fs_fail {A} op p data e : P (FsCall op p data false) → emits P (@fs_fail A op p data e).
Proof. intros H w. exists [FsCall op p data false]. split; [done|]. by constructor. Qed.

Lemma emits_fs_store op p data f :
  (∀ ok, P (FsCall op p data ok)) → emits P (fs_store E op p data f).
Proof.
  intros H w. unfold fs_store.
  destruct (listing w !! p.1); [destruct (decide (p ∈ readonly E))|];
    eexists [_]; (split; [reflexivity|]); by constructor.
Qed.

Lemma emits_fs_rm p : (∀ ok, P (FsCall OpRm p "" ok)) → emits P (fs_rm E p).
Proof.
  intros H w. unfold fs_rm. destruct (decide (p ∈ locked E));
    eexists [_]; (split; [reflexivity|]); by constructor.
Qed.

Lemma emits_fs_unlink p : (∀ ok, P (FsCall OpUnlink p "" ok)) → emits P (fs_unlink E p).
Proof.
  intros H w. unfold fs_unlink.
  destruct (decide (p.2 ∈ default [] (listing w !! p.1)));
    [destruct (decide (p ∈ locked E))|];
    eexists [_]; (split; [reflexivity|]); by constructor.
Qed.

Lemma emits_fs_readdir d : (∀ ok, P (FsCall OpReaddir (d, "") "" ok)) → emits P (fs_readdir E d).
Proof.
  intros H w. unfold fs_readdir.
  destruct (listing w !! d); [destruct (decide (d ∈ noread E))|];
    eexists [_]; (split; [reflexivity|]); by constructor.
Qed.

Lemma emits_runCommand command args :
  P (Spawn command args) → emits P (runCommand E command args).
Proof.
  intros H w. exists [Spawn command args]. split; [|by constructor].
  unfold runCommand. cbn zeta.
  destruct (ending _) as [code|err]; [destruct (decide (code = Some 0%Z))|]; done.
Qed.

Lemma emits_writeLog msg level :
  (∀ data ok, P (FsCall OpAppend (logFile E) data ok)) → emits P (writeLog E msg level).
Proof.
  intros H w. unfold writeLog, bind, new_Date. by apply emits_fs_store.
Qed.

End Emits.

(** One step of a footprint proof: the rule of the construct at the head of
    the computation. *)
Ltac emits_step :=
  lazymatch goal with
  | |- emits _ (bind _ _) => apply emits_bind; [|intros ?]
  | |- emits _ (ret _) => apply emits_ret
  | |- emits _ (throw _) => apply emits_throw
  | |- emits _ (process_exit _) => apply emits_process_exit
  | |- emits _ (lift _) => apply emits_lift
  | |- emits _ (Date_now _) => apply emits_Date_now
  | |- emits _ (emit _) => apply emits_emit; exact I
  | |- emits _ (try_catch _ _) => apply emits_try_catch; [|intros ?]
  | |- emits _ (try_finally _ _) => apply emits_try_finally
  | |- emits _ (detached _) => apply emits_detached
  | |- emits _ (for_of _ _) => apply emits_for_of; intros ?
  | |- emits _ (if _ then _ else _) => apply emits_if
  | |- emits _ (writeLog _ _ _) => apply emits_writeLog; intros ? ?; reflexivity
  | |- emits _ (runCommand _ _ _) =>
      apply emits_runCommand; unfold within_footprint, executables; set_solver
  | |- emits _ (fs_writeFile _ _ _) => apply emits_fs_store; intros ?; reflexivity
  | |- emits _ (fs_unlink _ _) => apply emits_fs_unlink; intros ?; reflexivity
  end.

Section Confined.

Variable E : Env.

Abbreviation confined := (emits (within_footprint E)).

Lemma confined_runTask title task : confined task → confined (runTask E title task).
Proof.
  intros Htask. unfold runTask. repeat emits_step; [exact Htask|..].
  all: destruct a0 as [m|]; [destruct (truthy m)|]; emits_step.
Qed.

Lemma confined_sweep tempPath : tempPath ∈ temp_dirs E → confined (sweep E tempPath).
Proof.
  intros Hin. unfold sweep. repeat emits_step.
  - by apply emits_fs_readdir.
  - by apply emits_fs_rm.
Qed.

Lemma confined_catalog : Forall (λ kv, confined (task kv.2)) (tasks E).
Proof.
  unfold tasks. repeat apply Forall_cons_2; [..|apply Forall_nil_2]; cbn [snd task].
  - unfold runHardwareCheck. cbn zeta. repeat emits_step.
  - unfold runWindowsUpdateCheck. cbn zeta. apply confined_runTask. repeat emits_step.
  - unfold runWingetUpdates. apply confined_runTask. repeat emits_step.
  - unfold runChocoUpdates. apply confined_runTask. repeat emits_step.
  - unfold runDismCheck. apply confined_runTask. repeat emits_step.
  - unfold runSfcScan. apply confined_runTask. repeat emits_step.
  - unfold runTempFileCleanup. cbn zeta. apply confined_runTask. cbn [for_of].
    repeat emits_step; apply confined_sweep; unfold temp_dirs; set_solver.
  - unfold runDiskOptimization. apply confined_runTask. repeat emits_step.
Qed.

Lemma confined_run_selected ks : confined (run_selected (tasks E) ks).
Proof.
  unfold run_selected. apply emits_for_of. intros k.
  destruct (assoc k (tasks E)) as [entry|] eqn:Hk;
    [|destruct (decide _); [apply emits_throw | apply emits_ret]].
  apply emits_bind; [|intros _; apply emits_ret].
  pose proof confined_catalog as Hall.
  revert Hk. generalize (tasks E) Hall. clear Hall.
  intros catalog Hall. induction Hall as [|[k' entry'] catalog Hhead _ IH]; [done|].
  cbn [assoc]. destruct (decide _); [by intros [= <-] | exact IH].
Qed.

Lemma confined_program : confined (program E).
Proof.
  unfold program, main, checkAdmin, prompt_checkbox. repeat emits_step.
  destruct a2; repeat emits_step; apply confined_run_selected.
Qed.

End Confined.

(** X11. Whatever the machine, the selection and the outcome of each step,
    a run of the program starts no executable other than [net],
    [powershell.exe], [winget], [choco], [Dism.exe] and [sfc]. *)
Theorem program_spawns_only_its_executables (E : Env) (w : World) :
  ∃ evs,
    trace (program E w).2 = trace w ++ evs ∧
    ∀ command args, (command, args) ∈ spawned evs →
      command ∈ ["net"; "powershell.exe"; "winget"; "choco"; "Dism.exe"; "sfc"].
Proof.
  destruct (confined_program E w) as (evs & Ht & Hall). exists evs. split; [done|].
  intros command args Hin. unfold spawned in Hin.
  apply list_elem_of_omap in Hin as (ev & Hev & Hsome).
  rewrite Forall_forall in Hall. specialize (Hall ev Hev).
  destruct ev; try done. injection Hsome as -> ->. exact Hall.
Qed.

(** X12. Whatever the machine, the selection and the outcome of each step,
    a run of the program confines its file-system calls to the two temp
    directories: it appends to nothing but its log file, writes and unlinks
    nothing outside the platform temp directory, and enumerates and removes
    only inside the platform temp directory and [C:\Windows\Temp]. *)
Theorem program_files_stay_in_temp (E : Env) (w : World) :
  ∃ evs,
    trace (program E w).2 = trace w ++ evs ∧
    ∀ op p data ok, FsCall op p data ok ∈ evs →
      p.1 ∈ [tmpdir E; "C:\Windows\Temp"] ∧
      (op = OpAppend → p = logFile E) ∧
      (op = OpWrite ∨ op = OpUnlink → p.1 = tmpdir E).
Proof.
  destruct (confined_program E w) as (evs & Ht & Hall). exists evs. split; [done|].
  intros op p data ok Hin.
  rewrite Forall_forall in Hall. specialize (Hall _ Hin).
  destruct op; cbn in Hall.
  - subst p. split; [set_solver|]. split; [done|]. by intros [?|?].
  - split; [rewrite Hall; set_solver|]. split; [done|]. done.
  - split; [rewrite Hall; set_solver|]. split; [done|]. done.
  - split; [exact Hall|]. split; [done|]. by intros [?|?].
  - split; [exact Hall|]. split; [done|]. by intros [?|?].
Qed.

(** ** The variant with three fixed steps *)

Lemma fixed_runTask_announces (E : Env) title task :
  quiet E task → announces E title (Fixed.runTask E title task).
Proof.
  intros Htask. unfold Fixed.runTask. apply wrapper_announces.
  apply guarded_bind; [done|]. intros _. apply guarded_succeed_ret.
Qed.

Lemma fixed_runWingetUpdates_announces (E : Env) :
  announces E "Updating Winget Software" (Fixed.runWingetUpdates E).
Proof.
  apply fixed_runTask_announces. apply quiet_bind; [apply quiet_runCommand|].
  intros _. destruct (silent E); eauto 20 with quiet.
Qed.

Lemma fixed_runDismCheck_announces (E : Env) :
  announces E "Checking DISM Health" (Fixed.runDismCheck E).
Proof. apply fixed_runTask_announces. eauto 20 with quiet. Qed.

Lemma fixed_runSfcScan_announces (E : Env) :
  announces E "Running System File Checker (sfc /scannow)" (Fixed.runSfcScan E).
Proof. apply fixed_runTask_announces. eauto 20 with quiet. Qed.

(** What the wrapper of the variant adds after the operation: no command. *)
Lemma fixed_runTask_tail (E : Env) title task w :
  ∃ evs,
    trace (Fixed.runTask E title task w).2 = trace (task (after_start title w)).2 ++ evs ∧
    spawned evs = [].
Proof.
  unfold Fixed.runTask, try_catch. unfold bind at 1. unfold emit at 1.
  fold (after_start title w). unfold bind at 1.
  destruct (task (after_start title w)) as [[[]|e|c] w1]; cbn [snd].
  - eexists [_]. unfold bind, emit, ret. cbn [snd trace]. done.
  - destruct (failure_report E (Chalk Red title)
                (Chalk Red ("  " +:+ replaceAll LF (nl +:+ "  ") (message e)))
                (title +:+ " failed: " +:+ message e) w1) as (ok & Ht & _).
    eexists. split; [exact Ht|done].
  - exists []. by rewrite app_nil_r.
Qed.

(** X13. In the variant with three fixed steps, the package update installs
    upgrades by itself only in silent mode, and only once the source update
    has exited with status 0; the source update itself is always run. *)
Theorem fixed_runWingetUpdates_upgrades_only_in_silent_mode (E : Env) (w : World) :
  ∃ evs,
    trace (Fixed.runWingetUpdates E w).2 = trace w ++ evs ∧
    spawned evs =
      ("winget", ["source"; "update"]) ::
      (if silent E &&
          bool_decide (ending (child E (length (trace w) + 1) "winget" ["source"; "update"])
                       = Closed (Some 0%Z))
       then [("winget", ["upgrade"; "--all"; "--accept-package-agreements";
                         "--accept-source-agreements"; "--silent";
                         "--disable-interactivity"])]
       else []).
Proof.
  unfold Fixed.runWingetUpdates. set (title := "Updating Winget Software").
  set (body := bind (runCommand E "winget" ["source"; "update"]) _).
  destruct (fixed_runTask_tail E title body w) as (tail & Ht & Hs).
  assert (∃ evs, trace (body (after_start title w)).2 = trace w ++ SpinnerStart title :: evs ∧
            spawned evs =
              ("winget", ["source"; "update"]) ::
              (if silent E &&
                  bool_decide (ending (child E (length (trace w) + 1) "winget"
                                         ["source"; "update"]) = Closed (Some 0%Z))
               then [("winget", ["upgrade"; "--all"; "--accept-package-agreements";
                                 "--accept-source-agreements"; "--silent";
                                 "--disable-interactivity"])]
               else [])) as (evs & Hb & Hsp).
  { unfold body. unfold bind at 1. unfold runCommand at 1. cbn zeta.
    assert (length (trace (after_start title w)) = length (trace w) + 1) as ->.
    { unfold after_start. cbn [trace]. rewrite length_app. simpl. lia. }
    destruct (ending _) as [code|err].
    - destruct (decide (code = Some 0%Z)) as [->|Hne].
      + rewrite bool_decide_eq_true_2 by done. rewrite andb_true_r.
        destruct (silent E).
        * unfold bind at 1.
          match goal with |- context [runCommand E ?c ?a ?w0] =>
            destruct (runCommand_run E c a w0) as (rc & -> & _ & _) end.
          eexists [_; _].
          destruct rc; cbn [snd trace ret after_start listing content];
            rewrite <- !app_assoc; done.
        * eexists [_; _]. unfold emit. cbn [snd trace after_start]. rewrite <- !app_assoc. done.
      + rewrite bool_decide_eq_false_2 by congruence. rewrite andb_false_r.
        eexists [_]. cbn [snd trace after_start]. rewrite <- !app_assoc. done.
    - rewrite bool_decide_eq_false_2 by congruence. rewrite andb_false_r.
      eexists [_]. cbn [snd trace after_start]. rewrite <- !app_assoc. done. }
  exists (SpinnerStart title :: evs ++ tail). split.
  - rewrite Ht, Hb. by rewrite <- app_assoc.
  - change (SpinnerStart title :: evs ++ tail) with ([SpinnerStart title] ++ evs ++ tail).
    rewrite !spawned_app, Hsp, Hs, app_nil_r. done.
Qed.

(** X14. In the variant with three fixed steps, once the privilege probe
    passes and the log is writable, [main] runs the package update, the DISM
    check and the file checker, each exactly once and in that order, whatever
    each of them returns; the process ends with status 0. *)
Theorem fixed_main_runs_three_steps (E : Env) (w : World) :
  log_writable E w →
  (∀ n, ending (child E n "net" ["session"]) = Closed (Some 0%Z)) →
  ∃ (b1 b2 b3 : bool) (w' : World) (evs : list Event),
    Fixed.main E w = (Ok tt, w') ∧
    trace w' = trace w ++ evs ∧
    phases evs =
      report ("Checking for Administrator privileges", true) ++
      report ("Updating Winget Software", b1) ++
      report ("Checking DISM Health", b2) ++
      report ("Running System File Checker (sfc /scannow)", b3) ∧
    exit_status (Fixed.program E w).1 = 0%Z.
Proof.
  intros Hw Hadmin.
  assert (∃ (b1 b2 b3 : bool) (w' : World) (evs : list Event),
            Fixed.main E w = (Ok tt, w') ∧ trace w' = trace w ++ evs ∧
            phases evs =
              report ("Checking for Administrator privileges", true) ++
              report ("Updating Winget Software", b1) ++
              report ("Checking DISM Health", b2) ++
              report ("Running System File Checker (sfc /scannow)", b3))
    as (b1 & b2 & b3 & w' & evs & Hr & Ht & Hp).
  { unfold Fixed.main. unfold bind at 1. unfold emit at 1.
    set (w0 := {| listing := listing w; content := content w; trace := _ |}).
    assert (log_writable E w0) as Hw0 by (by apply writable_same).
    destruct (writeLog_ok E "Script started." INFO w0 Hw0) as (w1 & Hr1 & Hw1 & Ht1 & _).
    unfold bind at 1. rewrite Hr1.
    destruct (checkAdmin_pass E w1 Hw1 (Hadmin _)) as (w2 & evs2 & Hr2 & Hw2 & Ht2 & Hp2 & _).
    unfold bind at 1. rewrite Hr2.
    destruct (fixed_runWingetUpdates_announces E w2 Hw2)
      as (b1 & w3 & evs3 & Hr3 & Hw3 & Ht3 & Hp3).
    unfold bind at 1. rewrite Hr3.
    destruct (fixed_runDismCheck_announces E w3 Hw3)
      as (b2 & w4 & evs4 & Hr4 & Hw4 & Ht4 & Hp4).
    unfold bind at 1. rewrite Hr4.
    destruct (fixed_runSfcScan_announces E w4 Hw4)
      as (b3 & w5 & evs5 & Hr5 & Hw5 & Ht5 & Hp5).
    unfold bind at 1. rewrite Hr5.
    unfold bind, emit. cbn [fst snd listing content trace].
    eexists b1, b2, b3, _, ([_; _] ++ evs2 ++ evs3 ++ evs4 ++ evs5 ++ [_; _]).
    split; [done|]. split.
    { cbn [trace]. rewrite Ht5, Ht4, Ht3, Ht2, Ht1. unfold w0. cbn [trace].
      by rewrite <- !app_assoc. }
    rewrite !phases_app, Hp2, Hp3, Hp4, Hp5. cbn. done. }
  exists b1, b2, b3, w', evs. split; [done|]. split; [done|]. split; [done|].
  unfold Fixed.program, try_catch. by rewrite Hr.
Qed.

Lemma fixed_main_runs_three_steps_witness :
  exit_status (Fixed.program (Scenario.machine true ∅ ∅ ∅ Scenario.only_admin)
                 Scenario.disk).1 = 0%Z.
Proof.
  destruct (fixed_main_runs_three_steps (Scenario.machine true ∅ ∅ ∅ Scenario.only_admin)
              Scenario.disk) as (b1 & b2 & b3 & w' & evs & _ & _ & _ & Hs).
  - unfold log_writable. compute_done.
  - done.
  - exact Hs.
Defined.

(** ** The variant that passes the update script on the command line *)

(** X15. In the variant with the first catalog, the update check hands its
    script to PowerShell as an argument: it starts that one command, returns
    [true] exactly when the command exits with status 0, and makes no
    file-system call except the append of its failure to the log — no temp
    script is written or unlinked. *)
Theorem earlier_update_check_writes_no_script (E : Env) (w : World) :
  ∃ evs,
    trace (Earlier.runWindowsUpdateCheck E w).2 = trace w ++ evs ∧
    spawned evs = [("powershell.exe", ["-Command"; updateScript])] ∧
    (∀ op p data ok, FsCall op p data ok ∈ evs → op = OpAppend ∧ p = logFile E) ∧
    ((Earlier.runWindowsUpdateCheck E w).1 = Ok true ↔
     ending (child E (length (trace w) + 1) "powershell.exe" ["-Command"; updateScript])
       = Closed (Some 0%Z)).
Proof.
  unfold Earlier.runWindowsUpdateCheck. cbn zeta.
  set (title := "Checking for Windows Updates").
  set (body := bind (runCommand E "powershell.exe" ["-Command"; updateScript]) _).
  destruct (runCommand_run E "powershell.exe" ["-Command"; updateScript]
              (after_start title w)) as (rc & Hrc & Hne & Hiff).
  assert (length (trace (after_start title w)) = length (trace w) + 1) as Hlen.
  { unfold after_start. cbn [trace]. rewrite length_app. simpl. lia. }
  rewrite Hlen in Hiff.
  destruct rc as [out|e|c]; [| |by destruct (Hne c)].
  - assert (body (after_start title w) =
              (Ok (Some (trim out.1)),
               {| listing := listing w; content := content w;
                  trace := trace w ++ [SpinnerStart title;
                                       Spawn "powershell.exe" ["-Command"; updateScript]] |}))
      as Hb.
    { unfold body, bind. rewrite Hrc. unfold ret, after_start. cbn [listing content trace].
      by rewrite <- app_assoc. }
    rewrite (runTask_success E title body w _ _ Hb). cbn [fst snd trace].
    eexists. split; [by rewrite <- app_assoc|]. split; [done|]. split.
    + intros op p data ok Hin. cbn [app] in Hin.
      repeat (apply elem_of_cons in Hin as [Hin|Hin]; [by simplify_eq|]).
      by apply elem_of_nil in Hin.
    + split; [intros _; apply Hiff; eauto | done].
  - assert (body (after_start title w) =
              (Throw e,
               {| listing := listing w; content := content w;
                  trace := trace w ++ [SpinnerStart title;
                                       Spawn "powershell.exe" ["-Command"; updateScript]] |}))
      as Hb.
    { unfold body, bind. rewrite Hrc. unfold after_start. cbn [listing content trace].
      by rewrite <- app_assoc. }
    destruct (runTask_after_throw E title body w _ _ Hb)
      as (ok & Ht & _ & Hok & Hfail & _).
    eexists. split; [rewrite Ht; cbn [trace]; by rewrite <- app_assoc|].
    split; [done|]. split.
    + intros op p data ok' Hin. cbn [app] in Hin.
      repeat (apply elem_of_cons in Hin as [Hin|Hin]; [by simplify_eq|]).
      by apply elem_of_nil in Hin.
    + split.
      * intros Hres. destruct ok; [by rewrite Hok in Hres|].
        destruct (Hfail eq_refl) as (e' & He'). by rewrite He' in Hres.
      * intros Hend. apply Hiff in Hend as (out & [=]).
Qed.

(** ** The exit status *)

Section Exits.

Variable E : Env.
Variable code : Z.

Lemma exits_only_never {A} (m : M A) : (∀ w c, (m w).1 ≠ Exit c) → exits_only code m.
Proof. intros H w c Hc. by destruct (H w c). Qed.

Lemma exits_only_ret {A} (a : A) : exits_only code (ret a).
Proof. by apply exits_only_never. Qed.

Lemma exits_only_throw {A} (e : Error) : exits_only code (@throw A e).
Proof. by apply exits_only_never. Qed.

Lemma exits_only_emit ev : exits_only code (emit ev).
Proof. by apply exits_only_never. Qed.

Lemma exits_only_lift {A} (x : Error + A) : exits_only code (lift x).
Proof. apply exits_only_never. by destruct x. Qed.

Lemma exits_only_Date_now : exits_only code (Date_now E).
Proof. by apply exits_only_never. Qed.

Lemma exits_only_process_exit {A} : exits_only code (@process_exit A code).
Proof. intros w c [= <-]. done. Qed.

Lemma exits_only_fs_store op p data f : exits_only code (fs_store E op p data f).
Proof.
  apply exits_only_never. intros w c. unfold fs_store.
  destruct (listing w !! p.1); [destruct (decide (p ∈ readonly E))|]; done.
Qed.

Lemma exits_only_fs_rm p : exits_only code (fs_rm E p).
Proof.
  apply exits_only_never. intros w c. unfold fs_rm.
  destruct (decide (p ∈ locked E)); done.
Qed.

Lemma exits_only_fs_unlink p : exits_only code (fs_unlink E p).
Proof.
  apply exits_only_never. intros w c. unfold fs_unlink.
  destruct (decide (p.2 ∈ default [] (listing w !! p.1)));
    [destruct (decide (p ∈ locked E))|]; done.
Qed.

Lemma exits_only_fs_readdir d : exits_only code (fs_readdir E d).
Proof.
  apply exits_only_never. intros w c. unfold fs_readdir.
  destruct (listing w !! d); [destruct (decide (d ∈ noread E))|]; done.
Qed.

Lemma exits_only_runCommand command args : exits_only code (runCommand E command args).
Proof.
  apply exits_only_never. intros w c.
  destruct (runCommand_run E command args w) as (r & -> & Hne & _). apply Hne.
Qed.

Lemma exits_only_writeLog msg level : exits_only code (writeLog E msg level).
Proof. unfold writeLog, bind, new_Date. intros w. apply exits_only_fs_store. Qed.

Lemma exits_only_bind {A B} (m : M A) (k : A → M B) :
  exits_only code m → (∀ a, exits_only code (k a)) → exits_only code (bind m k).
Proof.
  intros Hm Hk w c. unfold bind. specialize (Hm w).
  destruct (m w) as [[a|e|c'] w1]; cbn [fst] in *; [apply Hk|done|].
  intros [= <-]. by apply Hm.
Qed.

Lemma exits_only_try_catch {A} (m : M A) (h : Error → M A) :
  exits_only code m → (∀ e, exits_only code (h e)) → exits_only code (try_catch m h).
Proof.
  intros Hm Hh w c. unfold try_catch. specialize (Hm w).
  destruct (m w) as [[a|e|c'] w1]; cbn [fst] in *; [done|apply Hh|apply Hm].
Qed.

Lemma exits_only_try_finally {A} (m : M A) (f : M unit) :
  exits_only code m → exits_only code f → exits_only code (try_finally m f).
Proof.
  intros Hm Hf w c. unfold try_finally. specialize (Hm w).
  destruct (m w) as [[a|e|c'] w1]; cbn [fst] in *; [| |apply Hm];
    specialize (Hf w1); destruct (f w1) as [[[]|e'|c'] w2]; cbn [fst] in *;
    try done; intros [= <-]; by apply Hf.
Qed.

Lemma exits_only_for_of {A} (xs : list A) (body : A → M unit) :
  (∀ x, exits_only code (body x)) → exits_only code (for_of xs body).
Proof.
  intros Hbody. induction xs as [|x xs IH]; cbn [for_of]; [apply exits_only_ret|].
  apply exits_only_bind; [apply Hbody | intros _; apply IH].
Qed.

Lemma exits_only_if {A} (b : bool) (m1 m2 : M A) :
  exits_only code m1 → exits_only code m2 → exits_only code (if b then m1 else m2).
Proof. by destruct b. Qed.

End Exits.

(** An un-awaited promise that rejects ends the process with status 1. *)
Lemma exits_only_detached (m : M unit) : exits_only 1 m → exits_only 1 (detached m).
Proof.
  intros Hm w c. unfold detached. specialize (Hm w).
  destruct (m w) as [[a|e|c'] w1]; cbn [fst] in *; [done|by intros [= <-]|apply Hm].
Qed.

Ltac exits_step :=
  lazymatch goal with
  | |- exits_only _ (bind _ _) => apply exits_only_bind; [|intros ?]
  | |- exits_only _ (ret _) => apply exits_only_ret
  | |- exits_only _ (throw _) => apply exits_only_throw
  | |- exits_only _ (process_exit _) => apply exits_only_process_exit
  | |- exits_only _ (lift _) => apply exits_only_lift
  | |- exits_only _ (Date_now _) => apply exits_only_Date_now
  | |- exits_only _ (emit _) => apply exits_only_emit
  | |- exits_only _ (try_catch _ _) => apply exits_only_try_catch; [|intros ?]
  | |- exits_only _ (try_finally _ _) => apply exits_only_try_finally
  | |- exits_only _ (detached _) => apply exits_only_detached
  | |- exits_only _ (for_of _ _) => apply exits_only_for_of; intros ?
  | |- exits_only _ (if _ then _ else _) => apply exits_only_if
  | |- exits_only _ (writeLog _ _ _) => apply exits_only_writeLog
  | |- exits_only _ (runCommand _ _ _) => apply exits_only_runCommand
  | |- exits_only _ (fs_writeFile _ _ _) => apply exits_only_fs_store
  | |- exits_only _ (fs_unlink _ _) => apply exits_only_fs_unlink
  | |- exits_only _ (fs_rm _ _) => apply exits_only_fs_rm
  | |- exits_only _ (fs_readdir _ _) => apply exits_only_fs_readdir
  end.

Lemma exits_only_runTask (E : Env) title task :
  exits_only 1 task → exits_only 1 (runTask E title task).
Proof.
  intros Htask. unfold runTask. repeat exits_step; [exact Htask|..].
  all: destruct a0 as [m|]; [destruct (truthy m)|]; exits_step.
Qed.

Lemma exits_only_catalog (E : Env) : Forall (λ kv, exits_only 1 (task kv.2)) (tasks E).
Proof.
  unfold tasks. repeat apply Forall_cons_2; [..|apply Forall_nil_2]; cbn [snd task].
  - unfold runHardwareCheck. cbn zeta. repeat exits_step.
  - unfold runWindowsUpdateCheck. cbn zeta. apply exits_only_runTask. repeat exits_step.
  - unfold runWingetUpdates. apply exits_only_runTask. repeat exits_step.
  - unfold runChocoUpdates. apply exits_only_runTask. repeat exits_step.
  - unfold runDismCheck. apply exits_only_runTask. repeat exits_step.
  - unfold runSfcScan. apply exits_only_runTask. repeat exits_step.
  - unfold runTempFileCleanup, sweep. cbn zeta. apply exits_only_runTask. repeat exits_step.
  - unfold runDiskOptimization. apply exits_only_runTask. repeat exits_step.
Qed.

Lemma exits_only_run_selected (E : Env) ks : exits_only 1 (run_selected (tasks E) ks).
Proof.
  unfold run_selected. apply exits_only_for_of. intros k.
  destruct (assoc k (tasks E)) as [entry|] eqn:Hk;
    [|destruct (decide _); [apply exits_only_throw | apply exits_only_ret]].
  apply exits_only_bind; [|intros _; apply exits_only_ret].
  pose proof (exits_only_catalog E) as Hall.
  revert Hk. generalize (tasks E) Hall. clear Hall.
  intros catalog Hall. induction Hall as [|[k' entry'] catalog Hhead _ IH]; [done|].
  cbn [assoc]. destruct (decide _); [by intros [= <-] | exact IH].
Qed.

(** X16. Whatever the machine, the selection and the outcome of each step,
    the process ends with status 0 or 1: every [process.exit] of the script
    passes 1, and an error that escapes everything is an unhandled rejection. *)
Theorem program_exit_status_is_0_or_1 (E : Env) (w : World) :
  exit_status (program E w).1 = 0%Z ∨ exit_status (program E w).1 = 1%Z.
Proof.
  assert (exits_only 1 (program E)) as Hexit.
  { unfold program, main, checkAdmin, prompt_checkbox. repeat exits_step.
    destruct a2; repeat exits_step; apply exits_only_run_selected. }
  specialize (Hexit w). destruct (program E w).1 as [[]|e|c]; cbn [exit_status].
  - by left.
  - by right.
  - right. by apply Hexit.
Qed.

(** ** The inventory, when everything works *)

(** X17. The inventory on its success path: the script is written, run and
    unlinked, the spinner succeeds, the summary is printed, and — unlike the
    operations wrapped by [runTask] — the success is logged with one INFO
    entry; the operation returns [true]. *)
Theorem runHardwareCheck_success (E : Env) (w : World) (systemInfo : Json) (output : Text) :
  let p := inventory_script_path E w in
  let c := child E (length (trace w) + 2) "powershell.exe"
             ["-ExecutionPolicy"; "Bypass"; "-File"; path_text E p] in
  log_writable E w →
  p ∉ readonly E →
  p ∉ locked E →
  ending c = Closed (Some 0%Z) →
  JSON_parse E (foldl on_data ("", "") (chunks c)).1 = inr systemInfo →
  inventory_output systemInfo = inr output →
  ∃ w',
    runHardwareCheck E w = (Ok true, w') ∧
    trace w' =
      trace w ++
      [SpinnerStart "Gathering Hardware & OS Information";
       FsCall OpWrite p inventoryScript true;
       Spawn "powershell.exe" ["-ExecutionPolicy"; "Bypass"; "-File"; path_text E p];
       FsCall OpUnlink p "" true;
       SpinnerSucceed (Chalk Green "Gathered Hardware & OS Information");
       ConsoleLog output;
       FsCall OpAppend (logFile E)
         (logEntry E (toISOString (date_at E (length (trace w) + 6))) INFO
            "Gathered Hardware & OS Information") true].
Proof.
  intros p c Hw Hro Hlk Hend Hparse Hout. destruct Hw as [[names Hnames] Hlog].
  unfold runHardwareCheck.
  set (title := "Gathering Hardware & OS Information").
  unfold try_catch. unfold bind at 1. unfold emit at 1. fold (after_start title w).
  unfold Date_now, new_Date. unfold bind at 1. unfold bind at 1. unfold ret at 1.
  assert (length (trace (after_start title w)) = length (trace w) + 1) as ->.
  { unfold after_start. cbn [trace]. rewrite length_app. simpl. lia. }
  fold (inventory_script_path E w). fold p.
  unfold bind at 1. unfold fs_writeFile, fs_store.
  replace (listing (after_start title w) !! p.1) with (Some names) by done.
  destruct (decide (p ∈ readonly E)) as [|_]; [done|].
  unfold bind at 1. unfold runCommand. cbn [listing content trace].
  assert (length (trace (after_start title w) ++ [FsCall OpWrite p inventoryScript true])
          = length (trace w) + 2) as ->.
  { unfold after_start. cbn [trace]. rewrite !length_app. simpl. lia. }
  fold c. rewrite Hend.
  destruct (decide (Some 0%Z = Some 0%Z)) as [_|]; [|done].
  unfold bind at 1. unfold lift at 1. rewrite Hparse.
  unfold ret at 1. unfold bind at 1. unfold fs_unlink. cbn [listing content trace].
  rewrite lookup_insert_eq. cbn [default from_option id].
  destruct (decide (p.2 ∈ add_entry p.2 names)) as [_|Hn];
    [|by destruct Hn; apply elem_of_add_entry].
  destruct (decide (p ∈ locked E)) as [|_]; [done|].
  unfold fs_remove. cbn [listing content trace].
  unfold bind at 1. unfold lift at 1. rewrite Hout. unfold ret at 1.
  unfold bind at 1. unfold emit at 1. unfold bind at 1. unfold emit at 1.
  cbn [listing content trace]. unfold bind at 1.
  match goal with |- context [writeLog E _ INFO ?w0] => set (w5 := w0) end.
  assert (log_writable E w5) as Hw5.
  { split; [|done]. unfold w5. cbn [listing]. change p.1 with (tmpdir E).
    rewrite lookup_alter_eq, lookup_insert_eq. cbn. eauto. }
  destruct (writeLog_ok E "Gathered Hardware & OS Information" INFO w5 Hw5)
    as (w6 & -> & _ & Ht & _).
  unfold ret. eexists. split; [done|]. rewrite Ht.
  assert (length (trace w5) = length (trace w) + 6) as ->.
  { unfold w5, after_start. cbn [trace]. rewrite !length_app. simpl. lia. }
  unfold w5, after_start. cbn [trace]. by rewrite <- !app_assoc.
Qed.

Lemma runHardwareCheck_success_witness :
  ∃ w', runHardwareCheck (inventory_machine sample_inventory) Scenario.disk = (Ok true, w').
Proof.
  destruct (inventory_output sample_inventory) as [e|output] eqn:Hout; [discriminate|].
  destruct (runHardwareCheck_success (inventory_machine sample_inventory) Scenario.disk
              sample_inventory output) as (w' & Hr & _).
  - unfold log_writable. compute_done.
  - apply not_elem_of_empty.
  - apply not_elem_of_empty.
  - reflexivity.
  - reflexivity.
  - exact Hout.
  - by exists w'.
Defined.

(** ** A temp script that cannot be removed *)

(** X18. When the temp script of the update check is protected against
    removal, the failed [unlink] does not fail the operation: it is logged
    with one WARN entry carrying the error of the file system, the script
    stays in the temp directory, and a command that exited with status 0
    still makes the operation succeed. *)
Theorem update_script_locked_is_logged (E : Env) (w : World) :
  let title := "Checking for Windows Updates" in
  let p := update_script_path E w in
  let c := child E (length (trace w) + 2) "powershell.exe"
             ["-ExecutionPolicy"; "Bypass"; "-File"; path_text E p] in
  let stdout := trim (foldl on_data ("", "") (chunks c)).1 in
  log_writable E w →
  p ∉ readonly E →
  p ∈ locked E →
  ending c = Closed (Some 0%Z) →
  ∃ w',
    runWindowsUpdateCheck E w = (Ok true, w') ∧
    p.2 ∈ temp_entries E w' ∧
    trace w' =
      trace w ++
      [SpinnerStart title;
       FsCall OpWrite p updateScript true;
       Spawn "powershell.exe" ["-ExecutionPolicy"; "Bypass"; "-File"; path_text E p];
       FsCall OpUnlink p "" false;
       FsCall OpAppend (logFile E)
         (logEntry E (toISOString (date_at E (length (trace w) + 4))) WARN
            ("Failed to delete temp script: EPERM: operation not permitted, unlink '"
             +:+ path_text E p +:+ "'")) true;
       SpinnerSucceed (Chalk Green
         (if truthy stdout then title +:+ " - " +:+ stdout else title))].
Proof.
  intros title p c stdout Hw Hro Hlk Hend. destruct Hw as [[names Hnames] Hlog].
  unfold runWindowsUpdateCheck. fold title.
  set (body := bind (Date_now E) _).
  assert (∃ w3, body (after_start title w) = (Ok (Some stdout), w3) ∧
            p.2 ∈ default [] (listing w3 !! tmpdir E) ∧
            trace w3 = trace w ++
              [SpinnerStart title;
               FsCall OpWrite p updateScript true;
               Spawn "powershell.exe" ["-ExecutionPolicy"; "Bypass"; "-File"; path_text E p];
               FsCall OpUnlink p "" false;
               FsCall OpAppend (logFile E)
                 (logEntry E (toISOString (date_at E (length (trace w) + 4))) WARN
                    ("Failed to delete temp script: EPERM: operation not permitted, unlink '"
                     +:+ path_text E p +:+ "'")) true])
    as (w3 & Hb & Hstays & Ht).
  { unfold body, Date_now, new_Date. unfold bind at 1. unfold bind at 1. unfold ret at 1.
    assert (length (trace (after_start title w)) = length (trace w) + 1) as ->.
    { unfold after_start. cbn [trace]. rewrite length_app. simpl. lia. }
    fold (update_script_path E w). fold p.
    unfold bind at 1. unfold fs_writeFile, fs_store.
    replace (listing (after_start title w) !! p.1) with (Some names) by done.
    destruct (decide (p ∈ readonly E)) as [|_]; [done|].
    unfold try_finally, try_catch, fs_unlink. unfold bind at 1. unfold runCommand.
    cbn [listing content trace].
    assert (length (trace (after_start title w) ++ [FsCall OpWrite p updateScript true])
            = length (trace w) + 2) as ->.
    { unfold after_start. cbn [trace]. rewrite !length_app. simpl. lia. }
    fold c. rewrite Hend.
    destruct (decide (Some 0%Z = Some 0%Z)) as [_|]; [|done].
    unfold ret at 1. cbn [listing content trace].
    rewrite lookup_insert_eq. cbn [default from_option id].
    destruct (decide (p.2 ∈ add_entry p.2 names)) as [_|Hn];
      [|by destruct Hn; apply elem_of_add_entry].
    destruct (decide (p ∈ locked E)) as [_|]; [|done].
    unfold fs_fail. cbn [message fs_error].
    match goal with |- context [writeLog E _ WARN ?w0] => set (w2 := w0) end.
    assert (log_writable E w2) as Hw2.
    { split; [|done]. unfold w2. cbn [listing]. change p.1 with (tmpdir E).
      rewrite lookup_insert_eq. eauto. }
    match goal with |- context [writeLog E ?msg WARN w2] =>
      destruct (writeLog_ok E msg WARN w2 Hw2)
        as (w3 & -> & _ & Ht3 & _ & names2 & Hnames2 & Hl3) end.
    exists w3. split; [done|]. split.
    - rewrite Hl3, lookup_insert_eq. cbn [default from_option id].
      assert (names2 = add_entry p.2 names) as ->.
      { unfold w2 in Hnames2. cbn [listing] in Hnames2. change p.1 with (tmpdir E) in Hnames2.
        rewrite lookup_insert_eq in Hnames2. by injection Hnames2. }
      unfold add_entry at 1. destruct (decide _); [apply elem_of_add_entry|].
      apply elem_of_app. left. apply elem_of_add_entry.
    - rewrite Ht3.
      assert (length (trace w2) = length (trace w) + 4) as ->.
      { unfold w2, after_start. cbn [trace]. rewrite !length_app. simpl. lia. }
      unfold w2, after_start. cbn [trace]. rewrite <- !app_assoc. reflexivity. }
  rewrite (runTask_success E title body w w3 _ Hb).
  eexists. split; [reflexivity|]. cbn [listing trace]. unfold temp_entries. cbn [listing].
  split; [done|]. rewrite Ht, <- app_assoc. reflexivity.
Qed.

Lemma update_script_locked_is_logged_witness :
  ∃ w',
    runWindowsUpdateCheck
      (Scenario.machine true ∅ {[("C:\Temp", "ps-script-1700.ps1")]} ∅ Scenario.all_pass)
      Scenario.disk = (Ok true, w') ∧
    "ps-script-1700.ps1" ∈
      temp_entries
        (Scenario.machine true ∅ {[("C:\Temp", "ps-script-1700.ps1")]} ∅ Scenario.all_pass) w'.
Proof.
  destruct (update_script_locked_is_logged
              (Scenario.machine true ∅ {[("C:\Temp", "ps-script-1700.ps1")]} ∅
                 Scenario.all_pass) Scenario.disk) as (w' & Hr & Hin & _).
  - unfold log_writable. compute_done.
  - apply not_elem_of_empty.
  - compute_done.
  - reflexivity.
  - exists w'. split; [exact Hr | exact Hin].
Defined.

(** ** The privilege check and the log *)

(** X19. [checkAdmin] keeps its own [writeLog] inside the [try]: when the
    probe has passed but the success cannot be logged, the [catch] block runs
    all the same.  The spinner that had succeeded is failed, the user is told
    that Administrator privileges are required, and the second [writeLog]
    rejects before [process.exit(1)] is reached. *)
Theorem checkAdmin_blames_privileges_for_a_failed_log (E : Env) (w : World) :
  ending (child E (length (trace w) + 1) "net" ["session"]) = Closed (Some 0%Z) →
  ¬ log_writable E w →
  ∃ (e : Error) (w' : World),
    checkAdmin E w = (Throw e, w') ∧
    trace w' =
      trace w ++
      [SpinnerStart "Checking for Administrator privileges";
       Spawn "net" ["session"];
       SpinnerSucceed (Chalk Green "Running as Administrator: OK");
       FsCall OpAppend (logFile E)
         (logEntry E (toISOString (date_at E (length (trace w) + 3))) INFO
            "Running as Administrator: OK") false;
       SpinnerFail (Chalk Red "Administrator privileges check failed.");
       ConsoleError (Chalk Red "ERROR: This script requires Administrator privileges!");
       ConsoleLog (Chalk Yellow
         "Please re-run your terminal (PowerShell, Command Prompt, etc.) as an Administrator.");
       FsCall OpAppend (logFile E)
         (logEntry E (toISOString (date_at E (length (trace w) + 7))) ERROR
            "ERROR: Script not running as Administrator.") false].
Proof.
  intros Hend Hnw. unfold checkAdmin, try_catch. unfold bind at 1. unfold emit at 1.
  unfold bind at 1. unfold runCommand. cbn [listing content trace].
  rewrite length_app. cbn [length]. rewrite Hend.
  destruct (decide (Some 0%Z = Some 0%Z)) as [_|]; [|done].
  unfold bind at 1. unfold emit at 1. cbn [listing content trace].
  match goal with |- context [writeLog E _ INFO ?w0] => set (w1 := w0) end.
  assert (¬ log_writable E w1) as Hnw1.
  { intros [Hs Hro]. apply Hnw. by split. }
  destruct (writeLog_fail E "Running as Administrator: OK" INFO w1 Hnw1) as (e1 & ->).
  unfold bind at 1. unfold emit at 1. unfold bind at 1. unfold emit at 1.
  unfold bind at 1. unfold emit at 1. cbn [listing content trace]. unfold bind at 1.
  match goal with |- context [writeLog E _ ERROR ?w0] => set (w2 := w0) end.
  assert (¬ log_writable E w2) as Hnw2.
  { intros [Hs Hro]. apply Hnw. by split. }
  destruct (writeLog_fail E "ERROR: Script not running as Administrator." ERROR w2 Hnw2)
    as (e2 & ->).
  exists e2. eexists. split; [done|]. cbn [trace].
  assert (length (trace w2) = length (trace w) + 7) as ->.
  { unfold w2, w1. cbn [trace]. rewrite !length_app. simpl. lia. }
  assert (length (trace w1) = length (trace w) + 3) as Hl1.
  { unfold w1. cbn [trace]. rewrite !length_app. simpl. lia. }
  unfold w2. cbn [trace]. rewrite Hl1. unfold w1. cbn [trace].
  by rewrite <- !app_assoc.
Qed.

Lemma checkAdmin_blames_privileges_for_a_failed_log_witness :
  ∃ (e : Error) (w' : World),
    checkAdmin (Scenario.machine true {[Scenario.log_path]} ∅ ∅ Scenario.all_pass)
      Scenario.disk = (Throw e, w') ∧
    phases (trace w') =
      [inl "Checking for Administrator privileges"; inr true; inr false].
Proof.
  destruct (checkAdmin_blames_privileges_for_a_failed_log
              (Scenario.machine true {[Scenario.log_path]} ∅ ∅ Scenario.all_pass)
              Scenario.disk) as (e & w' & Hr & Ht).
  - reflexivity.
  - unfold log_writable. compute_done.
  - exists e, w'. split; [exact Hr|]. rewrite Ht. reflexivity.
Defined.

(** ** Operations of one command *)

Lemma runTask_of_command (E : Env) title command args (k : M (option string)) w :
  (∀ w0, ∃ r w', k w0 = (Ok r, w')) →
  ((runTask E title (runCommand E command args >> k) w).1 = Ok true ↔
   ending (child E (length (trace w) + 1) command args) = Closed (Some 0%Z)).
Proof.
  intros Hk.
  destruct (runCommand_run E command args (after_start title w)) as (rc & Hrc & Hne & Hiff).
  assert (length (trace (after_start title w)) = length (trace w) + 1) as Hlen.
  { unfold after_start. cbn [trace]. rewrite length_app. simpl. lia. }
  rewrite Hlen in Hiff.
  destruct rc as [out|e|c]; [| |by destruct (Hne c)].
  - match type of Hrc with _ = (_, ?w1) => destruct (Hk w1) as (r & w2 & Hr) end.
    assert ((runCommand E command args >> k) (after_start title w) = (Ok r, w2)) as Hb.
    { unfold bind. by rewrite Hrc. }
    rewrite (runTask_success E title _ w w2 r Hb). cbn [fst].
    split; [intros _; apply Hiff; eauto | done].
  - match type of Hrc with _ = (_, ?w1) =>
      assert ((runCommand E command args >> k) (after_start title w) = (Throw e, w1)) as Hb
    end.
    { unfold bind. by rewrite Hrc. }
    destruct (runTask_after_throw E title _ w _ e Hb) as (ok & _ & _ & Hok & Hfail & _).
    split.
    + intros Hres. destruct ok; [by rewrite Hok in Hres|].
      destruct (Hfail eq_refl) as (e' & He'). by rewrite He' in Hres.
    + intros Hend. apply Hiff in Hend as (out & [=]).
Qed.

(** X20. The operations made of one command — the Winget source update, the
    DISM health check and the drive optimisation — return [true] exactly when
    their command exits with status 0, whatever the state of the log. *)
Theorem single_command_operations_succeed_iff_exit_0 (E : Env) (w : World) :
  ((runWingetUpdates E w).1 = Ok true ↔
   ending (child E (length (trace w) + 1) "winget" ["source"; "update"])
     = Closed (Some 0%Z)) ∧
  ((runDismCheck E w).1 = Ok true ↔
   ending (child E (length (trace w) + 1) "Dism.exe"
             ["/Online"; "/Cleanup-Image"; "/CheckHealth"]) = Closed (Some 0%Z)) ∧
  ((runDiskOptimization E w).1 = Ok true ↔
   ending (child E (length (trace w) + 1) "powershell.exe"
             ["-Command"; "Optimize-Volume -DriveLetter C"]) = Closed (Some 0%Z)).
Proof.
  split; [|split].
  - apply runTask_of_command. intros w0. unfold bind, emit, ret. eauto.
  - apply runTask_of_command. intros w0. unfold ret. eauto.
  - apply runTask_of_command. intros w0. unfold ret. eauto.
Qed.

(** ** The loop runs the operations *)


Section AtWork.

Variable E : Env.
Variable P : Event → bool.

(** A computation that only adds actions to the history. *)
Abbreviation grows := (emits (λ _ : Event, True)).










End AtWork.


Section Loop.

Variable E : Env.





End Loop.


